(** * Inspection checklist: document model, persistence gateway, identifiers

    A shallow embedding of the checklist application.

    - The document types ([ItemStatus], [InspectionChecklistItem],
      [InspectionSection], [InspectionProfile]) are those of [types.ts],
      listed in [src/services/supabaseService.ts] (l. 256) after the service.
    - The data mutators and the progress helper are those of the [App]
      component, listed in [src/components/CameraView.tsx] after the camera
      view: [processImageAnalysis] (l. 782), [handleAddSection] (l. 818),
      [handleAddItem] (l. 838), [updateItemStatus] (l. 929),
      [updateItemOption] (l. 957), [updateItemNote] (l. 973),
      [toggleItemVisibility] (l. 989), [handleCapturePhoto] (l. 1005),
      [deletePhoto] (l. 1042), [calculateProgress] (l. 1067), and the
      "show hidden items" button (l. 2112).
    - The persistence gateway is [src/services/supabaseService.ts]:
      [generateUUID] (l. 45), [generateShortId] (l. 56),
      [saveReportToSupabase] (l. 100), [loadReportFromSupabase] (l. 187).
    - The shapes of the generated sections and items are those built in the
      generation service ([src/unnamed/part_000], l. 273, 296, 371, 419).

    JavaScript numbers are IEEE 754 binary64 values; they are modelled with
    the executable specification of the Standard Library ([SpecFloat]) at
    precision 53 and maximal exponent 1024.  Strings are [string]; an
    optional property ([x?: T]) is an [option]; the state cell holding the
    document ([InspectionProfile | null]) is an [option InspectionProfile];
    a state update [setInspection(prev => ...)] is a function on that
    cell.  The external collaborators (remote store, authentication,
    browser storage, clock, random sources, generation service) appear
    through their answers. *)

From Stdlib Require Import ZArith String Ascii List Bool Lia SpecFloat.
From Stdlib Require Import HexadecimalString DecimalString.
Import ListNotations.

Open Scope string_scope.
Open Scope Z_scope.

(* ================================================================== *)
(** * JavaScript numbers *)
(* ================================================================== *)

Module JsNumber.

Definition prec : Z := 53.
Definition emax : Z := 1024.

(** A JavaScript [Number]. *)
Definition number : Type := spec_float.

(** The number denoted by an integer literal or by an array [length]. *)
Definition of_Z (n : Z) : number := binary_normalize prec emax n 0 false.

Definition of_nat (n : nat) : number := of_Z (Z.of_nat n).

(** [x / y] and [x * y]: correctly rounded, round to nearest even. *)
Definition div (x y : number) : number := SFdiv prec emax x y.
Definition mul (x y : number) : number := SFmul prec emax x y.

(** Signed mantissa of a finite number. *)
Definition signed (s : bool) (m : positive) : Z :=
  if s then Z.neg m else Z.pos m.

(** [floor (s m * 2^e)], computed exactly. *)
Definition floor_Z (s : bool) (m : positive) (e : Z) : Z :=
  if 0 <=? e then Z.shiftl (signed s m) e else Z.shiftr (signed s m) (- e).

(** [floor (s m * 2^e + 1/2)], computed exactly: the integer closest to the
    value, a tie going to the larger one. *)
Definition round_half_up_Z (s : bool) (m : positive) (e : Z) : Z :=
  if 0 <=? e then Z.shiftl (signed s m) e
  else Z.shiftr (signed s m + Z.shiftl 1 (- e - 1)) (- e).

(** [Math.round]: NaN, the infinities and the zeros are returned as they
    are; a number rounding to zero gives the zero of its sign. *)
Definition Math_round (x : number) : number :=
  match x with
  | S754_finite s m e =>
      let k := round_half_up_Z s m e in
      if k =? 0 then S754_zero s else of_Z k
  | _ => x
  end.

(** [Math.floor]. *)
Definition Math_floor (x : number) : number :=
  match x with
  | S754_finite s m e => of_Z (floor_Z s m e)
  | _ => x
  end.

(** Truncation toward zero of a finite number. *)
Definition trunc_Z (s : bool) (m : positive) (e : Z) : Z :=
  if s then - floor_Z false m e else floor_Z false m e.

(** [ToInt32], the conversion applied by the bitwise operators: NaN, the
    infinities and the zeros give 0; a finite number is truncated and
    wrapped into the signed 32-bit range. *)
Definition ToInt32 (x : number) : Z :=
  match x with
  | S754_finite s m e =>
      let k := (trunc_Z s m e) mod 2 ^ 32 in
      if k <? 2 ^ 31 then k else k - 2 ^ 32
  | _ => 0
  end.

(** [a | b] and [a & b] on values that are already 32-bit integers. *)
Definition bor (a b : Z) : Z := Z.lor a b.
Definition band (a b : Z) : Z := Z.land a b.

(** The integer denoted by a number that is integral, if it is one. *)
Definition to_integer (x : number) : option Z :=
  match x with
  | S754_zero _ => Some 0
  | S754_finite s m e =>
      if 0 <=? e then Some (Z.shiftl (signed s m) e)
      else if Z.shiftl (Z.shiftr (Z.pos m) (- e)) (- e) =? Z.pos m
           then Some (Z.shiftr (signed s m) (- e))
           else None
  | _ => None
  end.

End JsNumber.

Import JsNumber.

(* ================================================================== *)
(** * Document types *)
(* ================================================================== *)

Inductive ItemStatus : Type :=
  | untouched | pass | info | attention | moderate | dangerous.

Definition ItemStatus_eqb (a b : ItemStatus) : bool :=
  match a, b with
  | untouched, untouched | pass, pass | info, info
  | attention, attention | moderate, moderate | dangerous, dangerous => true
  | _, _ => false
  end.

Record InspectionChecklistItem : Type := mkItem {
  item_id : string;
  item_label : string;
  item_status : ItemStatus;
  item_notes : string;
  item_photos : list string;
  item_options : option (list string);
  item_selectedOption : option string;
  item_isHidden : option bool
}.

Inductive SectionStatus : Type := pending | in_progress | completed.

Record InspectionSection : Type := mkSection {
  sec_id : string;
  sec_title : string;
  sec_iconName : string;
  sec_description : string;
  sec_items : list InspectionChecklistItem;
  sec_photoUrl : option string;
  sec_status : SectionStatus
}.

(** A numeric property of a document: a number, or [null] in a document
    read back from JSON text that held [null] in its place. *)
Inductive Numeric : Type :=
  | num (x : number)
  | null_number.

Record InspectionProfile : Type := mkProfile {
  profile_id : string;
  savedReportId : option string;
  shortId : option string;
  userId : option string;
  address : string;
  googleMapsUrl : option string;
  propertyType : string;
  floors : Numeric;
  baths : Numeric;
  bedrooms : Numeric;
  sqft : option Numeric;
  yearBuilt : option string;
  occupancy : option string;
  pets : option string;
  weather : option string;
  temperatureOutside : option string;
  temperatureInside : option string;
  gasType : option string;
  sewerType : option string;
  waterType : option string;
  electricPanel : option string;
  generatorType : option string;
  inspectorName : string;
  createdAt : string;
  sections : list InspectionSection
}.

(** ** Object spread with one property replaced *)

Definition with_status (i : InspectionChecklistItem) (st : ItemStatus) :=
  mkItem (item_id i) (item_label i) st (item_notes i) (item_photos i)
         (item_options i) (item_selectedOption i) (item_isHidden i).

Definition with_notes (i : InspectionChecklistItem) (n : string) :=
  mkItem (item_id i) (item_label i) (item_status i) n (item_photos i)
         (item_options i) (item_selectedOption i) (item_isHidden i).

Definition with_photos (i : InspectionChecklistItem) (ps : list string) :=
  mkItem (item_id i) (item_label i) (item_status i) (item_notes i) ps
         (item_options i) (item_selectedOption i) (item_isHidden i).

Definition with_selectedOption (i : InspectionChecklistItem) (o : string) :=
  mkItem (item_id i) (item_label i) (item_status i) (item_notes i)
         (item_photos i) (item_options i) (Some o) (item_isHidden i).

Definition with_isHidden (i : InspectionChecklistItem) (h : bool) :=
  mkItem (item_id i) (item_label i) (item_status i) (item_notes i)
         (item_photos i) (item_options i) (item_selectedOption i) (Some h).

Definition with_items (s : InspectionSection)
    (its : list InspectionChecklistItem) :=
  mkSection (sec_id s) (sec_title s) (sec_iconName s) (sec_description s)
            its (sec_photoUrl s) (sec_status s).

Definition with_items_status (s : InspectionSection)
    (its : list InspectionChecklistItem) (st : SectionStatus) :=
  mkSection (sec_id s) (sec_title s) (sec_iconName s) (sec_description s)
            its (sec_photoUrl s) st.

Definition with_photoUrl (s : InspectionSection) (url : string) :=
  mkSection (sec_id s) (sec_title s) (sec_iconName s) (sec_description s)
            (sec_items s) (Some url) (sec_status s).

Definition with_sections (p : InspectionProfile)
    (ss : list InspectionSection) :=
  mkProfile (profile_id p) (savedReportId p) (shortId p) (userId p)
    (address p) (googleMapsUrl p) (propertyType p) (floors p) (baths p)
    (bedrooms p) (sqft p) (yearBuilt p) (occupancy p) (pets p) (weather p)
    (temperatureOutside p) (temperatureInside p) (gasType p) (sewerType p)
    (waterType p) (electricPanel p) (generatorType p) (inspectorName p)
    (createdAt p) ss.

Definition with_keys (p : InspectionProfile)
    (uuid sid uid : option string) :=
  mkProfile (profile_id p) uuid sid uid
    (address p) (googleMapsUrl p) (propertyType p) (floors p) (baths p)
    (bedrooms p) (sqft p) (yearBuilt p) (occupancy p) (pets p) (weather p)
    (temperatureOutside p) (temperatureInside p) (gasType p) (sewerType p)
    (waterType p) (electricPanel p) (generatorType p) (inspectorName p)
    (createdAt p) (sections p).

(** ** Truthiness *)

(** A string is truthy when it is not empty. *)
Definition truthy (s : string) : bool :=
  match s with EmptyString => false | String _ _ => true end.

(** An optional string is truthy when it is present and not empty. *)
Definition truthy_opt (o : option string) : bool :=
  match o with Some s => truthy s | None => false end.

(** [i.isHidden] used as a condition: [undefined] counts as [false]. *)
Definition hidden (i : InspectionChecklistItem) : bool :=
  match item_isHidden i with Some b => b | None => false end.

(** [a || b] on optional strings. *)
Definition or_else (a : option string) (b : string) : string :=
  match a with
  | Some s => if truthy s then s else b
  | None => b
  end.

(* ================================================================== *)
(** * Data mutators *)
(* ================================================================== *)

(** The state cell [inspection]; [None] is [null]. *)
Definition State : Type := option InspectionProfile.

(** [i => i.status === 'untouched']. *)
Definition is_untouched (i : InspectionChecklistItem) : bool :=
  ItemStatus_eqb (item_status i) untouched.

(** The rollup computed by [updateItemStatus] from a section's items. *)
Definition newStatus (updatedItems : list InspectionChecklistItem)
  : SectionStatus :=
  let total := Z.of_nat (length updatedItems) in
  let untouched_n := Z.of_nat (length (filter is_untouched updatedItems)) in
  let completed_n := total - untouched_n in
  if completed_n =? total then completed
  else if 0 <? completed_n then in_progress
  else pending.

Definition updateItemStatus (sectionId itemId : string) (status : ItemStatus)
    (inspection : State) : State :=
  match inspection with
  | None => None
  | Some prev =>
      Some (with_sections prev
        (map (fun sec =>
                if negb (sec_id sec =? sectionId)%string then sec
                else
                  let updatedItems :=
                    map (fun item =>
                           if (item_id item =? itemId)%string
                           then with_status item status else item)
                        (sec_items sec) in
                  with_items_status sec updatedItems (newStatus updatedItems))
             (sections prev)))
  end.

Definition updateItemOption (sectionId itemId selectedOption : string)
    (inspection : State) : State :=
  match inspection with
  | None => None
  | Some prev =>
      Some (with_sections prev
        (map (fun sec =>
                if negb (sec_id sec =? sectionId)%string then sec
                else with_items sec
                       (map (fun item =>
                               if (item_id item =? itemId)%string
                               then with_selectedOption item selectedOption
                               else item)
                            (sec_items sec)))
             (sections prev)))
  end.

Definition updateItemNote (sectionId itemId notes : string)
    (inspection : State) : State :=
  match inspection with
  | None => None
  | Some prev =>
      Some (with_sections prev
        (map (fun sec =>
                if negb (sec_id sec =? sectionId)%string then sec
                else with_items sec
                       (map (fun item =>
                               if (item_id item =? itemId)%string
                               then with_notes item notes else item)
                            (sec_items sec)))
             (sections prev)))
  end.

Definition toggleItemVisibility (sectionId itemId : string) (isHidden : bool)
    (inspection : State) : State :=
  match inspection with
  | None => None
  | Some prev =>
      Some (with_sections prev
        (map (fun sec =>
                if negb (sec_id sec =? sectionId)%string then sec
                else with_items sec
                       (map (fun item =>
                               if (item_id item =? itemId)%string
                               then with_isHidden item isHidden else item)
                            (sec_items sec)))
             (sections prev)))
  end.

(** The "show hidden items" button of the section view. *)
Definition showAllHidden (activeSectionId : option string)
    (inspection : State) : State :=
  match inspection with
  | None => None
  | Some prev =>
      Some (with_sections prev
        (map (fun s =>
                if negb (match activeSectionId with
                         | Some a => (sec_id s =? a)%string
                         | None => false
                         end)
                then s
                else with_items s
                       (map (fun i => with_isHidden i false) (sec_items s)))
             (sections prev)))
  end.

(** The camera target: a section, and an item of it when the photo is an
    item's evidence photo. *)
Record CameraTarget : Type := mkTarget {
  target_sectionId : string;
  target_itemId : option string
}.

Definition handleCapturePhoto (cameraTarget : option CameraTarget)
    (imageData : string) (inspection : State) : State :=
  match inspection, cameraTarget with
  | Some prev, Some target =>
      Some (with_sections prev
        (map (fun sec =>
                if negb (sec_id sec =? target_sectionId target)%string then sec
                else if truthy_opt (target_itemId target)
                then with_items sec
                       (map (fun item =>
                               if (match target_itemId target with
                                   | Some iid => (item_id item =? iid)%string
                                   | None => false
                                   end)
                               then with_photos item
                                      (item_photos item ++ [imageData])
                               else item)
                            (sec_items sec))
                else with_photoUrl sec imageData)
             (sections prev)))
  | _, _ => inspection
  end.

(** [photos.filter((_, idx) => idx !== photoIndex)]. *)
Fixpoint remove_at {A : Type} (idx : nat) (photoIndex : Z) (l : list A)
  : list A :=
  match l with
  | [] => []
  | x :: r =>
      if Z.of_nat idx =? photoIndex then remove_at (S idx) photoIndex r
      else x :: remove_at (S idx) photoIndex r
  end.

Definition deletePhoto (sectionId itemId : string) (photoIndex : Z)
    (inspection : State) : State :=
  match inspection with
  | None => None
  | Some prev =>
      Some (with_sections prev
        (map (fun sec =>
                if negb (sec_id sec =? sectionId)%string then sec
                else with_items sec
                       (map (fun item =>
                               if negb (item_id item =? itemId)%string
                               then item
                               else with_photos item
                                      (remove_at 0 photoIndex
                                         (item_photos item)))
                            (sec_items sec)))
             (sections prev)))
  end.

Definition newline : ascii := ascii_of_nat 10.

(** The note written by the image analysis: appended to a note that is not
    empty, on a line of its own. *)
Definition ai_note (prior description : string) : string :=
  if truthy prior
  then prior ++ String newline "AI Note: " ++ description
  else description.

(** [processImageAnalysis], after the analysis service has answered
    [description]: the patch is applied when the item is found in the first
    section bearing [sectionId].  (The handler looks the item up in the
    document it was created with; the document is taken here to be the one
    the patch applies to.) *)
Definition processImageAnalysis (sectionId itemId description : string)
    (inspection : State) : State :=
  match inspection with
  | None => None
  | Some prev =>
      let section :=
        find (fun s => (sec_id s =? sectionId)%string) (sections prev) in
      let item :=
        match section with
        | Some s => find (fun i => (item_id i =? itemId)%string) (sec_items s)
        | None => None
        end in
      match item with
      | None => inspection
      | Some _ =>
          Some (with_sections prev
            (map (fun sec =>
                    if negb (sec_id sec =? sectionId)%string then sec
                    else with_items sec
                           (map (fun i =>
                                   if (item_id i =? itemId)%string
                                   then with_notes i
                                          (ai_note (item_notes i) description)
                                   else i)
                                (sec_items sec)))
                 (sections prev)))
      end
  end.

(** [handleAddSection], after the generation service has answered. *)
Definition handleAddSection (newSection : option InspectionSection)
    (inspection : State) : State :=
  match inspection, newSection with
  | Some prev, Some s => Some (with_sections prev (sections prev ++ [s]))
  | _, _ => inspection
  end.

(** [handleAddItem], after the generation service has answered
    [newItems]. *)
Definition handleAddItem (activeSectionId : option string)
    (newItems : list InspectionChecklistItem) (inspection : State) : State :=
  match inspection with
  | None => None
  | Some prev =>
      if negb (truthy_opt activeSectionId) then inspection
      else
        let a := match activeSectionId with
                 | Some a => a
                 | None => EmptyString
                 end in
        match find (fun s => (sec_id s =? a)%string) (sections prev) with
        | None => inspection
        | Some _ =>
            match newItems with
            | [] => inspection
            | _ :: _ =>
                Some (with_sections prev
                  (map (fun s =>
                          if negb (sec_id s =? a)%string then s
                          else with_items s (sec_items s ++ newItems))
                       (sections prev)))
            end
        end
  end.

(** The patch applied by [handleSaveReport] once the keys are known. *)
Definition handleSaveReport_patch (uuid sid : string) (inspection : State)
  : State :=
  match inspection with
  | None => None
  | Some prev => Some (with_keys prev (Some uuid) (Some sid) (userId prev))
  end.

(** ** Progress *)

Definition calculateProgress (inspection : State) : number :=
  match inspection with
  | None => of_Z 0
  | Some insp =>
      let visibleItems :=
        filter (fun i => negb (hidden i))
               (flat_map sec_items (sections insp)) in
      let totalItems := length visibleItems in
      let completedItems :=
        length (filter (fun i => negb (is_untouched i)) visibleItems) in
      if (totalItems =? 0)%nat then of_Z 0
      else Math_round (mul (div (of_nat completedItems) (of_nat totalItems))
                           (of_Z 100))
  end.

(* ================================================================== *)
(** * Identifiers *)
(* ================================================================== *)

(** ** The pattern tested by the loader

    [/^[0-9a-f]{8}-[0-9a-f]{4}-[0-9a-f]{4}-[0-9a-f]{4}-[0-9a-f]{12}$/i] *)

Definition in_range (lo hi : nat) (c : ascii) : bool :=
  let n := nat_of_ascii c in (Nat.leb lo n && Nat.leb n hi)%bool.

(** The class [[0-9a-f]] under the flag [i]. *)
Definition is_hex (c : ascii) : bool :=
  (in_range 48 57 c || in_range 97 102 c || in_range 65 70 c)%bool.

Definition is_dash (c : ascii) : bool := Ascii.eqb c "-"%char.

(** [[0-9a-f]{n}]: consume exactly [n] characters of the class. *)
Fixpoint hex_run (n : nat) (s : string) : option string :=
  match n with
  | O => Some s
  | S k =>
      match s with
      | String c r => if is_hex c then hex_run k r else None
      | EmptyString => None
      end
  end.

(** A literal [-]. *)
Definition lit_dash (s : string) : option string :=
  match s with
  | String c r => if is_dash c then Some r else None
  | EmptyString => None
  end.

Definition and_then {A B : Type} (o : option A) (f : A -> option B)
  : option B :=
  match o with Some a => f a | None => None end.

(** [$]: the input has been consumed. *)
Definition at_end (s : string) : bool :=
  match s with EmptyString => true | String _ _ => false end.

Definition isUuid (idOrShortId : string) : bool :=
  match
    and_then (hex_run 8 idOrShortId) (fun s1 =>
    and_then (lit_dash s1) (fun s2 =>
    and_then (hex_run 4 s2) (fun s3 =>
    and_then (lit_dash s3) (fun s4 =>
    and_then (hex_run 4 s4) (fun s5 =>
    and_then (lit_dash s5) (fun s6 =>
    and_then (hex_run 4 s6) (fun s7 =>
    and_then (lit_dash s7) (fun s8 =>
    hex_run 12 s8))))))))
  with
  | Some rest => at_end rest
  | None => false
  end.

(** The key form in the words of the specification: 36 characters, a hyphen
    at offsets 8, 13, 18 and 23, a hexadecimal digit everywhere else. *)
Definition hyphen_offset (i : nat) : bool :=
  (Nat.eqb i 8 || Nat.eqb i 13 || Nat.eqb i 18 || Nat.eqb i 23)%bool.

Definition canonical_uuid (s : string) : Prop :=
  String.length s = 36%nat /\
  forall i c, String.get i s = Some c ->
    if hyphen_offset i then c = "-"%char else is_hex c = true.

(** ** Sources of randomness *)

(** The platform's generators: whether [crypto.randomUUID] exists, the bytes
    its secure source yields in the order they are drawn, and the values the
    successive calls of [Math.random] return. *)
Record Rng : Type := mkRng {
  secure : bool;
  entropy : nat -> Byte.byte;
  entropy_next : nat;
  random : nat -> number;
  random_next : nat
}.

Definition Math_random (g : Rng) : number * Rng :=
  (random g (random_next g),
   mkRng (secure g) (entropy g) (entropy_next g) (random g)
         (S (random_next g))).

(** [Math.random] returns a number at least 0 and less than 1. *)
Definition in_unit_interval (x : number) : bool :=
  (valid_binary prec emax x
   && SFleb (of_Z 0) x && SFltb x (of_Z 1))%bool.

Definition fair (g : Rng) : Prop :=
  forall i, in_unit_interval (random g i) = true.

(** One lowercase hexadecimal digit. *)
Definition hex_digit (d : N) : ascii :=
  if (d <? 10)%N then ascii_of_N (48 + d) else ascii_of_N (87 + d).

(** A byte as two lowercase hexadecimal digits. *)
Definition hex_byte (b : N) : string :=
  String (hex_digit (b / 16)) (String (hex_digit (b mod 16)) EmptyString).

Fixpoint hex_bytes (bs : list N) : string :=
  match bs with
  | [] => EmptyString
  | b :: r => hex_byte b ++ hex_bytes r
  end.

(** [crypto.randomUUID], as the Web Cryptography API defines it: sixteen
    random bytes, the version nibble of byte 6 set to 4 and the two high bits
    of byte 8 set to binary 10, written as lowercase hexadecimal in groups of
    4, 2, 2, 2 and 6 bytes joined by hyphens. *)
Definition crypto_randomUUID (g : Rng) : string * Rng :=
  let byte_at (k : nat) : N := Byte.to_N (entropy g (entropy_next g + k)) in
  let b6 := N.lor (N.land (byte_at 6%nat) 15) 64 in
  let b8 := N.lor (N.land (byte_at 8%nat) 63) 128 in
  (hex_bytes [byte_at 0%nat; byte_at 1%nat; byte_at 2%nat; byte_at 3%nat]
     ++ "-" ++ hex_bytes [byte_at 4%nat; byte_at 5%nat]
     ++ "-" ++ hex_bytes [b6; byte_at 7%nat]
     ++ "-" ++ hex_bytes [b8; byte_at 9%nat]
     ++ "-" ++ hex_bytes [byte_at 10%nat; byte_at 11%nat; byte_at 12%nat;
                          byte_at 13%nat; byte_at 14%nat; byte_at 15%nat],
   mkRng (secure g) (entropy g) (entropy_next g + 16) (random g)
         (random_next g)).

(** [v.toString(16)] for an integer [v]. *)
Definition toString16 (v : Z) : string :=
  HexadecimalString.NilZero.string_of_int (Z.to_hex_int v).

(** The callback of the fallback generator, for a template character [c]. *)
Definition uuid_digit (c : ascii) (x : number) : string :=
  let r := bor (ToInt32 (mul x (of_Z 16))) 0 in
  let v := if Ascii.eqb c "x"%char then r else bor (band r 3) 8 in
  toString16 v.

(** [template.replace(/[xy]/g, callback)]. *)
Fixpoint replace_xy (template : string) (g : Rng) : string * Rng :=
  match template with
  | EmptyString => (EmptyString, g)
  | String c rest =>
      if (Ascii.eqb c "x"%char || Ascii.eqb c "y"%char)%bool then
        let (x, g1) := Math_random g in
        let (out, g2) := replace_xy rest g1 in
        (uuid_digit c x ++ out, g2)
      else
        let (out, g2) := replace_xy rest g in
        (String c out, g2)
  end.

Definition uuid_template : string := "xxxxxxxx-xxxx-4xxx-yxxx-xxxxxxxxxxxx".

Definition generateUUID (g : Rng) : string * Rng :=
  if secure g then crypto_randomUUID g else replace_xy uuid_template g.

(** [s.charAt(pos)]: the character at the integer part of [pos], the empty
    string when there is none. *)
Definition charAt (s : string) (pos : number) : string :=
  let at_index (k : Z) :=
    if k <? 0 then EmptyString
    else match String.get (Z.to_nat k) s with
         | Some c => String c EmptyString
         | None => EmptyString
         end in
  match pos with
  | S754_nan | S754_zero _ => at_index 0
  | S754_infinity _ => EmptyString
  | S754_finite sg m e => at_index (trunc_Z sg m e)
  end.

Definition chars : string :=
  "abcdefghijklmnopqrstuvwxyzABCDEFGHIJKLMNOPQRSTUVWXYZ0123456789".

(** The loop of [generateShortId], with [n] iterations left. *)
Fixpoint shortId_loop (n : nat) (result : string) (g : Rng) : string * Rng :=
  match n with
  | O => (result, g)
  | S k =>
      let (x, g1) := Math_random g in
      shortId_loop k
        (result ++ charAt chars
                     (Math_floor (mul x (of_nat (String.length chars)))))
        g1
  end.

Definition generateShortId (g : Rng) : string * Rng :=
  shortId_loop 9 EmptyString g.

(* ================================================================== *)
(** * Persistence gateway *)
(* ================================================================== *)

(** ** Local fallback store *)

(** One backup record: [{ id, data, created_at }]; older records carry the
    document under [report_data]. *)
Record LocalRecord : Type := mkRecord {
  rec_id : string;
  rec_data : option InspectionProfile;
  rec_report_data : option InspectionProfile;
  rec_created_at : string
}.

(** What [JSON.parse] yields for the text kept under the storage key: the
    object mapping a primary key to its record, its entries in the order of
    [Object.values], or [null]. *)
Inductive JsonValue : Type :=
  | json_null
  | json_map (entries : list (string * LocalRecord)).

(** The text kept under the storage key: either text that parses, given by
    the value it parses to, or text that [JSON.parse] rejects. *)
Inductive StoredText : Type :=
  | unparseable (raw : string)
  | json_text (v : JsonValue).

Definition JSON_parse (t : StoredText) : option JsonValue :=
  match t with
  | unparseable _ => None
  | json_text v => Some v
  end.

(** What a numeric property reads as once it has been written by
    [JSON.stringify] and parsed again: NaN and the infinities are written as
    [null], a zero of either sign as [0], and any other number in a form
    that parses back to it. *)
Definition json_number (n : Numeric) : Numeric :=
  match n with
  | num (S754_zero _) => num (S754_zero false)
  | num (S754_finite s m e) => num (S754_finite s m e)
  | num (S754_infinity _) | num S754_nan => null_number
  | null_number => null_number
  end.

(** A document as its JSON text gives it back.  Strings, lists and missing
    properties come back as they were. *)
Definition json_profile (p : InspectionProfile) : InspectionProfile :=
  mkProfile (profile_id p) (savedReportId p) (shortId p) (userId p)
    (address p) (googleMapsUrl p) (propertyType p)
    (json_number (floors p)) (json_number (baths p))
    (json_number (bedrooms p)) (option_map json_number (sqft p))
    (yearBuilt p) (occupancy p) (pets p) (weather p)
    (temperatureOutside p) (temperatureInside p) (gasType p) (sewerType p)
    (waterType p) (electricPanel p) (generatorType p) (inspectorName p)
    (createdAt p) (sections p).

Definition json_record (r : LocalRecord) : LocalRecord :=
  mkRecord (rec_id r) (option_map json_profile (rec_data r))
           (option_map json_profile (rec_report_data r)) (rec_created_at r).

(** [JSON.stringify]: the text, given by the value it parses to. *)
Definition JSON_stringify (v : JsonValue) : StoredText :=
  json_text
    (match v with
     | json_null => json_null
     | json_map entries =>
         json_map (map (fun kr => (fst kr, json_record (snd kr))) entries)
     end).

Definition text_truthy (t : StoredText) : bool :=
  match t with
  | unparseable raw => truthy raw
  | json_text _ => true
  end.

(** [window.localStorage]: whether [window] exists, whether reading or
    writing throws (disabled storage, exceeded quota), and the text stored
    under [LOCAL_KEY]. *)
Record LocalStorage : Type := mkStorage {
  window_defined : bool;
  getItem_throws : bool;
  setItem_throws : bool;
  stored : option StoredText
}.

Definition safeGetLocalStorage (ls : LocalStorage) : option StoredText :=
  if negb (window_defined ls) then None
  else if getItem_throws ls then None
  else stored ls.

Definition safeSetLocalStorage (ls : LocalStorage) (value : StoredText)
  : LocalStorage :=
  if negb (window_defined ls) then ls
  else if setItem_throws ls then ls
  else mkStorage (window_defined ls) (getItem_throws ls) (setItem_throws ls)
                 (Some value).

(** [map[key]]. *)
Fixpoint lookup (key : string) (entries : list (string * LocalRecord))
  : option LocalRecord :=
  match entries with
  | [] => None
  | (k, r) :: rest => if (k =? key)%string then Some r else lookup key rest
  end.

(** A key that is an array index: the canonical decimal writing of an
    integer below 2^32 - 1.  An object lists such keys first, in ascending
    order, and its other keys behind them in the order they were added. *)
Definition array_index (key : string) : option N :=
  match DecimalString.NilEmpty.uint_of_string key with
  | Some d =>
      let n := N.of_uint d in
      if ((DecimalString.NilZero.string_of_uint (N.to_uint n) =? key)%string
          && (n <? 4294967295)%N)%bool
      then Some n else None
  | None => None
  end.

(** The record of an existing key is replaced where it stands. *)
Fixpoint replace_entry (key : string) (r : LocalRecord)
    (entries : list (string * LocalRecord)) : list (string * LocalRecord) :=
  match entries with
  | [] => []
  | (k, r0) :: rest =>
      if (k =? key)%string then (k, r) :: rest
      else (k, r0) :: replace_entry key r rest
  end.

(** A new array index goes behind the smaller array indices. *)
Fixpoint insert_index (n : N) (key : string) (r : LocalRecord)
    (entries : list (string * LocalRecord)) : list (string * LocalRecord) :=
  match entries with
  | [] => [(key, r)]
  | (k, r0) :: rest =>
      match array_index k with
      | Some m =>
          if (m <? n)%N then (k, r0) :: insert_index n key r rest
          else (key, r) :: entries
      | None => (key, r) :: entries
      end
  end.

(** [map[key] = r], the entries being listed in the order of
    [Object.values]: an existing key keeps its place; a new key goes among
    the array indices when it is one, and last otherwise. *)
Definition assign (key : string) (r : LocalRecord)
    (entries : list (string * LocalRecord)) : list (string * LocalRecord) :=
  match lookup key entries with
  | Some _ => replace_entry key r entries
  | None =>
      match array_index key with
      | Some n => insert_index n key r entries
      | None => (entries ++ [(key, r)])%list
      end
  end.

(** ** Remote store *)

Record PgError : Type := mkError {
  err_code : string;
  err_message : string
}.

(** The columns returned by [.select('id, short_id')]. *)
Record KeyRow : Type := mkKeyRow {
  krow_id : option string;
  krow_short_id : option string
}.

(** The row sent by the upsert. *)
Record DbPayload : Type := mkDbPayload {
  db_id : string;
  db_short_id : string;
  db_data : InspectionProfile;
  db_created_at : string;
  db_user_id : option string
}.

(** The outcome of awaiting the upsert: a [{ data, error }] pair, or an
    exception carrying an optional message. *)
Inductive UpsertReply : Type :=
  | upsert_answer (data : option KeyRow) (error : option PgError)
  | upsert_throws (message : option string).

Inductive Column : Type := col_id | col_short_id.

(** The columns returned by [.select('data, id, short_id, user_id')]. *)
Record Row : Type := mkRow {
  row_data : option InspectionProfile;
  row_id : string;
  row_short_id : option string;
  row_user_id : option string
}.

Inductive SelectReply : Type :=
  | select_answer (data : option Row) (error : option PgError)
  | select_throws.

(** ** The world the gateway runs in

    Whether the client of the remote store is configured, the user the
    authentication service reports, the answers of the remote store to an
    upsert and to a single-row query, the browser storage, the random
    sources, the successive readings of the clock ([now k] is the text of
    the [k]-th [new Date().toISOString()] of a call), and the warnings shown
    so far. *)

Record World : Type := mkWorld {
  supabase : bool;
  auth_user : option string;
  upsert : DbPayload -> UpsertReply;
  select_single : Column -> string -> SelectReply;
  localStorage : LocalStorage;
  rng : Rng;
  now : nat -> string;
  alerts : list string
}.

Definition set_localStorage (w : World) (ls : LocalStorage) : World :=
  mkWorld (supabase w) (auth_user w) (upsert w) (select_single w) ls (rng w)
          (now w) (alerts w).

Definition set_rng (w : World) (g : Rng) : World :=
  mkWorld (supabase w) (auth_user w) (upsert w) (select_single w)
          (localStorage w) g (now w) (alerts w).

Definition alert (w : World) (text : string) : World :=
  mkWorld (supabase w) (auth_user w) (upsert w) (select_single w)
          (localStorage w) (rng w) (now w) (alerts w ++ [text]).

(** A settled promise. *)
Inductive Promise (A : Type) : Type :=
  | resolved (value : A)
  | rejected (message : string).

Arguments resolved {A} value.
Arguments rejected {A} message.

Record Keys : Type := mkKeys { uuid : string; keys_shortId : string }.

(** ** Save *)

(** Step 1 of the save: the primary key and the short key, reused when the
    profile carries them and generated otherwise. *)
Definition resolve_keys (inspection : InspectionProfile) (g : Rng)
  : Keys * Rng :=
  let (u, g1) :=
    match savedReportId inspection with
    | Some k => if truthy k then (k, g) else generateUUID g
    | None => generateUUID g
    end in
  let (s, g2) :=
    match shortId inspection with
    | Some k => if truthy k then (k, g1) else generateShortId g1
    | None => generateShortId g1
    end in
  (mkKeys u s, g2).

(** The backup to [localStorage]; a failure is logged and swallowed. *)
Definition local_backup (u : string) (payload : InspectionProfile)
    (created_at : string) (ls : LocalStorage) : LocalStorage :=
  let record := mkRecord u (Some payload) None created_at in
  let existing := safeGetLocalStorage ls in
  let parsed :=
    match existing with
    | Some t => if text_truthy t then JSON_parse t else Some (json_map [])
    | None => Some (json_map [])
    end in
  match parsed with
  | Some (json_map entries) =>
      safeSetLocalStorage ls
        (JSON_stringify (json_map (assign u record entries)))
  | Some json_null => ls
  | None => ls
  end.

(** Whether the backup gets as far as reading the clock.  It does not when
    [JSON.parse] throws; it does when the text parses to [null], for the
    record is built before the assignment to [map[uuid]] fails. *)
Definition backup_reads_clock (ls : LocalStorage) : bool :=
  match safeGetLocalStorage ls with
  | Some t =>
      if text_truthy t
      then match JSON_parse t with Some _ => true | None => false end
      else true
  | None => true
  end.

Definition warn_permission : string :=
  "Warning: Permission denied. If you are not logged in, you can only save new reports. Log in to update existing ones. (Report saved locally)".

Definition warn_table : string :=
  "Warning: Table 'inspections' does not exist. Please run SQL setup. Report saved locally.".

Definition warn_schema : string :=
  "Warning: Schema mismatch (missing column). Please run SQL setup. Report saved locally.".

Definition saveReportToSupabase (inspection : InspectionProfile) (w : World)
  : Promise Keys * World :=
  let (keys, g) := resolve_keys inspection (rng w) in
  let w := set_rng w g in
  let user_id :=
    if supabase w
    then match auth_user w with
         | Some u => Some u
         | None => userId inspection
         end
    else userId inspection in
  let payload :=
    with_keys inspection (Some (uuid keys)) (Some (keys_shortId keys))
              user_id in
  let reads := backup_reads_clock (localStorage w) in
  let w :=
    set_localStorage w
      (local_backup (uuid keys) payload (now w 0%nat) (localStorage w)) in
  if negb (supabase w) then (resolved keys, w)
  else
    let dbPayload :=
      mkDbPayload (uuid keys) (keys_shortId keys) payload
                  (now w (if reads then 1%nat else 0%nat))
                  (if truthy_opt user_id then user_id else None) in
    match upsert w dbPayload with
    | upsert_throws message =>
        (rejected (or_else message "Failed to save inspection to cloud."), w)
    | upsert_answer data (Some error) =>
        if (err_code error =? "42501")%string
        then (resolved keys, alert w warn_permission)
        else if (err_code error =? "42P01")%string
        then (resolved keys, alert w warn_table)
        else if (err_code error =? "PGRST204")%string
        then (resolved keys, alert w warn_schema)
        else
          (rejected
             (or_else
                (Some ("Supabase Error " ++ err_code error ++ ": "
                         ++ err_message error))
                "Failed to save inspection to cloud."), w)
    | upsert_answer data None =>
        (resolved
           (mkKeys
              (or_else (and_then data krow_id) (uuid keys))
              (or_else (and_then data krow_short_id) (keys_shortId keys))), w)
    end.

(** ** Load *)

(** The fallback of the loader: the local store. *)
Definition load_local (idOrShortId : string) (ls : LocalStorage)
  : option InspectionProfile :=
  match safeGetLocalStorage ls with
  | None => None
  | Some existing =>
      if negb (text_truthy existing) then None
      else
        match JSON_parse existing with
        | None => None
        | Some json_null => None
        | Some (json_map entries) =>
            match (if isUuid idOrShortId then lookup idOrShortId entries
                   else None) with
            | Some record =>
                match (match rec_data record with
                       | Some p => Some p
                       | None => rec_report_data record
                       end) with
                | Some stored_profile =>
                    Some (with_keys stored_profile (Some idOrShortId)
                            (shortId stored_profile) (userId stored_profile))
                | None => None
                end
            | None =>
                if negb (isUuid idOrShortId) then
                  match find (fun kr =>
                                match rec_data (snd kr) with
                                | Some p =>
                                    match shortId p with
                                    | Some s => (s =? idOrShortId)%string
                                    | None => false
                                    end
                                | None => false
                                end) entries with
                  | Some found => rec_data (snd found)
                  | None => None
                  end
                else None
            end
        end
  end.

(** The query the loader sends to the remote store. *)
Definition remote_query (idOrShortId : string) : Column * string :=
  if isUuid idOrShortId then (col_id, idOrShortId)
  else (col_short_id, idOrShortId).

(** [loadReportFromSupabase]: the settled promise, and the queries sent to
    the remote store. *)
Definition loadReportFromSupabase (idOrShortId : string) (w : World)
  : Promise (option InspectionProfile) * list (Column * string) :=
  let fallback := resolved (load_local idOrShortId (localStorage w)) in
  if supabase w then
    let q := remote_query idOrShortId in
    match select_single w (fst q) (snd q) with
    | select_answer (Some row) None =>
        match row_data row with
        | Some profile =>
            (resolved
               (Some (with_keys profile (Some (row_id row))
                                (row_short_id row) (row_user_id row))), [q])
        | None => (fallback, [q])
        end
    | _ => (fallback, [q])
    end
  else (fallback, []).

(* ================================================================== *)
(** * Generated content *)
(* ================================================================== *)

(** What the generation service answers, once parsed. *)
Record RawItem : Type := mkRawItem {
  raw_label : string;
  raw_options : option (list string)
}.

Record RawSection : Type := mkRawSection {
  raw_title : string;
  raw_description : string;
  raw_iconName : string;
  raw_items : list RawItem
}.

Definition decimal (n : nat) : string :=
  DecimalString.NilZero.string_of_uint (Nat.to_uint n).

(** [l.map((x, i) => f x i)], counting from [i]. *)
Fixpoint mapi_from {A B : Type} (i : nat) (f : A -> nat -> B) (l : list A)
  : list B :=
  match l with
  | [] => []
  | x :: r => f x i :: mapi_from (S i) f r
  end.

(** The item literal shared by the three generators. *)
Definition generated_item (id : string) (raw : RawItem)
  : InspectionChecklistItem :=
  mkItem id (raw_label raw) untouched EmptyString [] (raw_options raw)
         None None.

(** In the three mappings below [clock k] is the value of the [k]-th
    evaluation of [Date.now()]. *)
Definition generateInspectionPlan_sections (clock : nat -> nat)
    (rawData : list RawSection) : list InspectionSection :=
  mapi_from 0
    (fun section index =>
       mkSection
         ("section-" ++ decimal index ++ "-" ++ decimal (clock index))
         (raw_title section) (raw_iconName section) (raw_description section)
         (mapi_from 0
            (fun item i =>
               generated_item
                 ("item-" ++ decimal index ++ "-" ++ decimal i) item)
            (raw_items section))
         None pending)
    rawData.

Definition fallback_item (id label : string) (options : option (list string))
  : InspectionChecklistItem :=
  mkItem id label untouched EmptyString [] options None None.

Definition fallback_section (id title iconName : string)
    (items : list InspectionChecklistItem) : InspectionSection :=
  mkSection id title iconName "InterNACHI Standard" items None pending.

(** The built-in plan returned when the generation fails. *)
Definition fallback_plan : list InspectionSection :=
  [ fallback_section "fb-1" "Roof" "sun"
      [ fallback_item "r1" "Roof-Covering Materials"
          (Some ["Asphalt Shingle"; "Wood Shake"; "Tile"; "Metal"; "Slate"]);
        fallback_item "r2" "Gutters & Downspouts" None;
        fallback_item "r3" "Vents, Flashing, Skylights & Chimney" None ];
    fallback_section "fb-2" "Exterior" "home"
      [ fallback_item "e1" "Wall-Covering / Siding"
          (Some ["Vinyl"; "Stucco"; "Brick Veneer"; "Fiber Cement"; "Wood"]);
        fallback_item "e2" "Grading & Surface Drainage" None;
        fallback_item "e3" "Walkways & Driveways" None ];
    fallback_section "fb-3" "Foundation" "box"
      [ fallback_item "f1" "Foundation Type"
          (Some ["Poured Concrete"; "Block"; "Slab"; "Stone"]);
        fallback_item "f2" "Structural Components" None ];
    fallback_section "fb-4" "Heating" "wind"
      [ fallback_item "h1" "Heating Method"
          (Some ["Forced Air"; "Hydronic"; "Heat Pump"; "Electric"]);
        fallback_item "h2" "Energy Source"
          (Some ["Gas"; "Oil"; "Electric"; "Propane"]) ];
    fallback_section "fb-5" "Electrical" "zap"
      [ fallback_item "el1" "Service Drop & Conductors" None;
        fallback_item "el2" "Main Service Disconnect" None;
        fallback_item "el3" "Wiring Methods"
          (Some ["Romex/NM"; "BX/Armored"; "Knob-and-Tube"; "Conduit"]) ];
    fallback_section "fb-6" "Plumbing" "droplet"
      [ fallback_item "p1" "Main Water Shut-off" None;
        fallback_item "p2" "Water Heater" None ] ].

Definition generateSingleSection_section (clock : nat -> nat)
    (data : RawSection) : InspectionSection :=
  mkSection ("section-custom-" ++ decimal (clock 0%nat))
    (raw_title data) (raw_iconName data) (raw_description data)
    (mapi_from 0
       (fun item i =>
          generated_item
            ("item-custom-" ++ decimal (clock (S i)) ++ "-" ++ decimal i) item)
       (raw_items data))
    None pending.

Definition generateSectionItems_items (clock : nat -> nat)
    (data : list RawItem) : list InspectionChecklistItem :=
  mapi_from 0
    (fun item i =>
       generated_item
         ("item-added-" ++ decimal (clock i) ++ "-" ++ decimal i) item)
    data.

(* ================================================================== *)
(** * Sessions: sequences of mutations *)
(* ================================================================== *)

(** The events that change the document once an inspection has started.
    The generation answers are carried by the events that consume them;
    [None] stands for a generation that failed. *)
Inductive Action : Type :=
  | SetItemStatus (sectionId itemId : string) (status : ItemStatus)
  | SetItemOption (sectionId itemId selectedOption : string)
  | SetItemNotes (sectionId itemId notes : string)
  | AnalysisNote (sectionId itemId description : string)
  | SetItemVisibility (sectionId itemId : string) (isHidden : bool)
  | ShowAllHidden (activeSectionId : option string)
  | AddPhoto (cameraTarget : option CameraTarget) (imageData : string)
  | RemovePhoto (sectionId itemId : string) (photoIndex : Z)
  | AppendSection (clock : nat -> nat) (answer : option RawSection)
  | AppendItems (activeSectionId : option string) (clock : nat -> nat)
                (answer : list RawItem)
  | KeysSaved (uuid shortId : string).

Definition step (a : Action) (st : State) : State :=
  match a with
  | SetItemStatus s i status => updateItemStatus s i status st
  | SetItemOption s i o => updateItemOption s i o st
  | SetItemNotes s i n => updateItemNote s i n st
  | AnalysisNote s i d => processImageAnalysis s i d st
  | SetItemVisibility s i h => toggleItemVisibility s i h st
  | ShowAllHidden a => showAllHidden a st
  | AddPhoto t img => handleCapturePhoto t img st
  | RemovePhoto s i k => deletePhoto s i k st
  | AppendSection clock answer =>
      handleAddSection
        (option_map (generateSingleSection_section clock) answer) st
  | AppendItems a clock answer =>
      handleAddItem a (generateSectionItems_items clock answer) st
  | KeysSaved u s => handleSaveReport_patch u s st
  end.

Definition run (acts : list Action) (st : State) : State :=
  fold_left (fun s a => step a s) acts st.

(** The documents an inspection starts from: the sections are the generated
    plan or the built-in one. *)
Definition initial (d : InspectionProfile) : Prop :=
  (exists clock rawData,
      sections d = generateInspectionPlan_sections clock rawData)
  \/ sections d = fallback_plan.

Definition reachable (d : InspectionProfile) : Prop :=
  exists d0 acts, initial d0 /\ run acts (Some d0) = Some d.

Definition grows_section (a : Action) : bool :=
  match a with AppendItems _ _ _ => true | _ => false end.

(** ** The status rule *)

Definition all_touched (its : list InspectionChecklistItem) : Prop :=
  Forall (fun i => item_status i <> untouched) its.

Definition all_untouched (its : list InspectionChecklistItem) : Prop :=
  Forall (fun i => item_status i = untouched) its.

(** The rule as the specification words it. *)
Definition status_rule (s : InspectionSection) : Prop :=
  (sec_status s = completed <-> all_touched (sec_items s)) /\
  (sec_status s = pending <-> all_untouched (sec_items s)) /\
  (sec_status s = in_progress <->
     ~ all_touched (sec_items s) /\ ~ all_untouched (sec_items s)).

(** The stored status agrees with the rollup of the items, or the section has
    no item and has never been rolled up. *)
Definition status_ok (s : InspectionSection) : Prop :=
  sec_status s = newStatus (sec_items s)
  \/ (sec_items s = [] /\ sec_status s = pending).

(** ** Positions in the document *)

Definition section_at (d : InspectionProfile) (k : nat)
  : option InspectionSection :=
  nth_error (sections d) k.

Definition item_at (d : InspectionProfile) (k j : nat)
  : option InspectionChecklistItem :=
  match section_at d k with
  | Some s => nth_error (sec_items s) j
  | None => None
  end.

(** The section [sectionId] holds an item [itemId]. *)
Definition has_item (d : InspectionProfile) (sectionId itemId : string)
  : Prop :=
  exists s i, In s (sections d) /\ sec_id s = sectionId /\
              In i (sec_items s) /\ item_id i = itemId.

Definition has_section (d : InspectionProfile) (sectionId : string) : Prop :=
  exists s, In s (sections d) /\ sec_id s = sectionId.

(** The common shape of the item mutators. *)
Definition patch_items (sectionId : string)
    (f : InspectionChecklistItem -> InspectionChecklistItem)
    (prev : InspectionProfile) : InspectionProfile :=
  with_sections prev
    (map (fun sec =>
            if negb (sec_id sec =? sectionId)%string then sec
            else with_items sec (map f (sec_items sec)))
         (sections prev)).

Definition on_item (itemId : string)
    (f : InspectionChecklistItem -> InspectionChecklistItem)
    (item : InspectionChecklistItem) : InspectionChecklistItem :=
  if (item_id item =? itemId)%string then f item else item.

(* ================================================================== *)
(** * Notions used in the statements *)
(* ================================================================== *)

(** ** Documents *)

(** The analysis note is written when the first section bearing the
    identifier holds the item, and only then. *)
Definition analysis_target (sid iid : string) (d : InspectionProfile) : bool :=
  match find (fun s => (sec_id s =? sid)%string) (sections d) with
  | Some s =>
      match find (fun i => (item_id i =? iid)%string) (sec_items s) with
      | Some _ => true
      | None => false
      end
  | None => false
  end.

(** The item [i'] is the item [i] but for its notes; but for its photos. *)
Definition same_but_notes (i i' : InspectionChecklistItem) : Prop :=
  item_id i' = item_id i /\ item_label i' = item_label i /\
  item_status i' = item_status i /\ item_photos i' = item_photos i /\
  item_options i' = item_options i /\
  item_selectedOption i' = item_selectedOption i /\
  item_isHidden i' = item_isHidden i.

Definition same_but_photos (i i' : InspectionChecklistItem) : Prop :=
  item_id i' = item_id i /\ item_label i' = item_label i /\
  item_status i' = item_status i /\ item_notes i' = item_notes i /\
  item_options i' = item_options i /\
  item_selectedOption i' = item_selectedOption i /\
  item_isHidden i' = item_isHidden i.

(** The section [s'] is the section [s] but for its items and its cover
    photo. *)
Definition same_header (s s' : InspectionSection) : Prop :=
  sec_id s' = sec_id s /\ sec_title s' = sec_title s /\
  sec_iconName s' = sec_iconName s /\
  sec_description s' = sec_description s /\
  sec_status s' = sec_status s.

(** The event is a status change naming the section [sid]. *)
Definition names_section (a : Action) (sid : string) : bool :=
  match a with
  | SetItemStatus s _ _ => (s =? sid)%string
  | _ => false
  end.

(** A status change of the session has named the section at index [k]: the
    session holds a status change whose section identifier is that of the
    section the document held at index [k] when the change was made. *)
Definition named_at (d0 : InspectionProfile) (acts : list Action) (k : nat)
  : Prop :=
  exists pre a post d1 s1,
    acts = (pre ++ a :: post)%list /\
    run pre (Some d0) = Some d1 /\
    section_at d1 k = Some s1 /\
    names_section a (sec_id s1) = true.

(** A mutation of a section that keeps its status and the statuses of its
    items. *)
Definition keeps_statuses (g : InspectionSection -> InspectionSection)
  : Prop :=
  forall sec,
    sec_status (g sec) = sec_status sec /\
    map item_status (sec_items (g sec)) = map item_status (sec_items sec).

(** A section as the generators build it. *)
Definition fresh_section (s : InspectionSection) : Prop :=
  sec_status s = pending /\ all_untouched (sec_items s).

(** The item [i] of the section [s] is the one a mutation names. *)
Definition targeted (sectionId itemId : string) (s : InspectionSection)
    (i : InspectionChecklistItem) : bool :=
  ((sec_id s =? sectionId)%string && (item_id i =? itemId)%string)%bool.

(** [updateItemStatus] when no item bears the identifier: the sections
    bearing [sectionId] are rolled up again. *)
Definition reroll (sectionId : string) (d : InspectionProfile)
  : InspectionProfile :=
  with_sections d
    (map (fun sec =>
            if (sec_id sec =? sectionId)%string
            then with_items_status sec (sec_items sec)
                                   (newStatus (sec_items sec))
            else sec)
         (sections d)).

(** ** Progress in the words of the specification *)

(** The items the progress counts. *)
Definition visible_items (d : InspectionProfile)
  : list InspectionChecklistItem :=
  filter (fun i => negb (hidden i)) (flat_map sec_items (sections d)).

Definition rated (i : InspectionChecklistItem) : bool :=
  negb (is_untouched i).

(** [round (100 * c / t)] over the rationals, a tie going up:
    [floor (100 c / t + 1/2)]. *)
Definition exact_percentage (c t : Z) : Z := (200 * c + t) / (2 * t).

(** ** Patterns as lists of character classes *)

Fixpoint matches (pat : list (ascii -> bool)) (s : string) : bool :=
  match pat, s with
  | [], EmptyString => true
  | p :: pat', String c r => (p c && matches pat' r)%bool
  | _, _ => false
  end.

Definition uuid_pattern : list (ascii -> bool) :=
  repeat is_hex 8 ++ [is_dash] ++ repeat is_hex 4 ++ [is_dash]
    ++ repeat is_hex 4 ++ [is_dash] ++ repeat is_hex 4 ++ [is_dash]
    ++ repeat is_hex 12.

(** The class of the characters the fallback generator may put in the place
    of a template character: a hexadecimal digit for [x] and [y], the
    character itself otherwise. *)
Definition template_class (c : ascii) : ascii -> bool :=
  if (Ascii.eqb c "x"%char || Ascii.eqb c "y"%char)%bool then is_hex
  else fun a => Ascii.eqb a c.

(** ** What the stores hold *)

(** The records of the local store that a reader can get at: none when the
    storage is missing, unreadable, empty, or does not parse to an object. *)
Definition local_entries (ls : LocalStorage) : list (string * LocalRecord) :=
  match safeGetLocalStorage ls with
  | Some t =>
      match JSON_parse t with
      | Some (json_map entries) => if text_truthy t then entries else []
      | _ => []
      end
  | None => []
  end.

(** The local store holds a record under the primary key [id], or a record
    whose document carries the short key [id]. *)
Definition local_has (ls : LocalStorage) (id : string) : Prop :=
  (exists r, In (id, r) (local_entries ls)) \/
  (exists k r p, In (k, r) (local_entries ls) /\ rec_data r = Some p /\
                 shortId p = Some id).

(** The remote store answers the query for [id] with a row. *)
Definition remote_has (w : World) (id : string) : Prop :=
  exists c row, select_single w c id = select_answer (Some row) None.

(** The codes of the failures the save recovers from: insufficient
    privilege, undefined table, and the column missing from the schema
    cache. *)
Definition recoverable (code : string) : bool :=
  ((code =? "42501")%string || (code =? "42P01")%string
   || (code =? "PGRST204")%string)%bool.

(** The keys a save settles on before it writes anything. *)
Definition local_keys (inspection : InspectionProfile) (w : World) : Keys :=
  fst (resolve_keys inspection (rng w)).

(** The row a save sends to the remote store. *)
Definition sent_row (inspection : InspectionProfile) (w : World)
  : DbPayload :=
  let keys := local_keys inspection w in
  let user_id :=
    match auth_user w with
    | Some u => Some u
    | None => userId inspection
    end in
  mkDbPayload (uuid keys) (keys_shortId keys)
    (with_keys inspection (Some (uuid keys)) (Some (keys_shortId keys))
               user_id)
    (now w (if backup_reads_clock (localStorage w) then 1%nat else 0%nat))
    (if truthy_opt user_id then user_id else None).

(* ================================================================== *)
(** * Sample documents, sessions and worlds *)
(* ================================================================== *)

Definition clock0 : nat -> nat := fun _ => 0%nat.

(** A profile around the given sections. *)
Definition profile_of (ss : list InspectionSection) : InspectionProfile :=
  mkProfile "1700000000000" None None None "12 Elm Street" None "Ranch"
    (num (of_Z 1)) (num (of_Z 1)) (num (of_Z 3)) None None None None None None None None None
    None None None "Guest Inspector" "2024-01-01T00:00:00.000Z" ss.

(** A plan of one section holding one item. *)
Definition roof_plan : list RawSection :=
  [ mkRawSection "Roof" "Roof covering and drainage" "sun"
      [ mkRawItem "Roof-Covering Materials" None ] ].

Definition roof_doc : InspectionProfile :=
  profile_of (generateInspectionPlan_sections clock0 roof_plan).

(** Its section and its item, as generated. *)
Definition roof_item : InspectionChecklistItem :=
  generated_item "item-0-0" (mkRawItem "Roof-Covering Materials" None).

Definition roof_section : InspectionSection :=
  mkSection "section-0-0" "Roof" "sun" "Roof covering and drainage"
            [roof_item] None pending.

(** The inspector rates the only item, then asks for one more item. *)
Definition grow_session : list Action :=
  [ SetItemStatus "section-0-0" "item-0-0" pass;
    AppendItems (Some "section-0-0") clock0 [ mkRawItem "Flashing" None ] ].

Definition grown_doc : InspectionProfile :=
  match run grow_session (Some roof_doc) with
  | Some d => d
  | None => roof_doc
  end.

(** A plan of two sections, the first holding two items and the second
    one. *)
Definition two_plan : list RawSection :=
  [ mkRawSection "Roof" "Roof covering and drainage" "sun"
      [ mkRawItem "Roof-Covering Materials" None;
        mkRawItem "Gutters & Downspouts" None ];
    mkRawSection "Exterior" "Walls, grading and drainage" "home"
      [ mkRawItem "Wall-Covering / Siding" None ] ].

Definition two_doc : InspectionProfile :=
  profile_of (generateInspectionPlan_sections clock0 two_plan).

(** The same document once the inspector has typed a note on its first
    item and taken a photo of it. *)
Definition noted_doc : InspectionProfile :=
  match run [ SetItemNotes "section-0-0" "item-0-0" "Two layers";
              AddPhoto (Some (mkTarget "section-0-0" (Some "item-0-0")))
                       "data:image/jpeg;base64,AAAA" ]
            (Some two_doc) with
  | Some d => d
  | None => two_doc
  end.

(** Its items and sections, as that session leaves them. *)
Definition noted_item : InspectionChecklistItem :=
  mkItem "item-0-0" "Roof-Covering Materials" untouched "Two layers"
         ["data:image/jpeg;base64,AAAA"] None None None.

Definition gutter_item : InspectionChecklistItem :=
  mkItem "item-0-1" "Gutters & Downspouts" untouched EmptyString [] None None
         None.

Definition siding_item : InspectionChecklistItem :=
  mkItem "item-1-0" "Wall-Covering / Siding" untouched EmptyString [] None
         None None.

Definition noted_roof : InspectionSection :=
  mkSection "section-0-0" "Roof" "sun" "Roof covering and drainage"
            [noted_item; gutter_item] None pending.

Definition exterior_section : InspectionSection :=
  mkSection "section-1-0" "Exterior" "home" "Walls, grading and drainage"
            [siding_item] None pending.

(** A plan of two sections, the second of which came back without items,
    and a session that rates the item of the first and then names the
    second in a status change. *)
Definition mixed_plan : list RawSection :=
  [ mkRawSection "Roof" "Roof covering and drainage" "sun"
      [ mkRawItem "Roof-Covering Materials" None ];
    mkRawSection "Attic" "No access" "home" [];
    mkRawSection "Crawl space" "No access" "box" [] ].

Definition mixed_doc : InspectionProfile :=
  profile_of (generateInspectionPlan_sections clock0 mixed_plan).

Definition mixed_session : list Action :=
  [ SetItemStatus "section-0-0" "item-0-0" pass;
    SetItemVisibility "section-0-0" "item-0-0" true;
    SetItemStatus "section-1-0" "item-1-0" info;
    AppendSection clock0 (Some (mkRawSection "Shed" "Outbuilding" "box" [])) ].

(** A plan whose only section came back without items. *)
Definition empty_plan : list RawSection :=
  [ mkRawSection "Attic" "No access" "home" [] ].

Definition empty_doc : InspectionProfile :=
  profile_of (generateInspectionPlan_sections clock0 empty_plan).

(** The roof document once its item has been hidden. *)
Definition hidden_doc : InspectionProfile :=
  match toggleItemVisibility "section-0-0" "item-0-0" true (Some roof_doc) with
  | Some d => d
  | None => roof_doc
  end.

(** A plan of one section holding forty items, of which the inspector rates
    the first twenty-three. *)
Definition forty_plan : list RawSection :=
  [ mkRawSection "Exterior" "Walls, grading and drainage" "home"
      (repeat (mkRawItem "Wall-Covering / Siding" None) 40) ].

Definition forty_doc : InspectionProfile :=
  profile_of (generateInspectionPlan_sections clock0 forty_plan).

Definition rate_23 : list Action :=
  map (fun i => SetItemStatus "section-0-0" ("item-0-" ++ decimal i) pass)
      (seq 0 23).

Definition progress_doc : InspectionProfile :=
  match run rate_23 (Some forty_doc) with
  | Some d => d
  | None => forty_doc
  end.

(** ** Worlds *)

(** [Math.random] always answering one half, no secure source. *)
Definition half : number := S754_finite false 4503599627370496 (-53).

Definition plain_rng : Rng :=
  mkRng false (fun _ => Byte.x00) 0 (fun _ => half) 0.

(** A platform with the secure generator. *)
Definition secure_rng : Rng :=
  mkRng true
    (fun k => match Byte.of_N (N.of_nat (17 * k + 3) mod 256) with
              | Some b => b
              | None => Byte.x00
              end)
    0 (fun _ => half) 0.

(** A configured remote store that refuses the write for lack of privilege
    and finds no row, and a working, empty local storage. *)
Definition denied_world : World :=
  mkWorld true None
    (fun _ => upsert_answer None
                (Some (mkError "42501"
                         "new row violates row-level security policy")))
    (fun _ _ => select_answer None
                  (Some (mkError "PGRST116" "The result contains 0 rows")))
    (mkStorage true false false None)
    plain_rng (fun _ => "2024-01-01T00:00:00.000Z") [].

(** A store with row-level security: the row of a guest (no owner) is
    refused for lack of privilege, the row of a signed-in user is
    accepted. *)
Definition row_level_world : World :=
  mkWorld true None
    (fun row =>
       match db_user_id row with
       | None =>
           upsert_answer None
             (Some (mkError "42501"
                      "new row violates row-level security policy"))
       | Some _ => upsert_answer None None
       end)
    (fun _ _ => select_answer None
                  (Some (mkError "PGRST116" "The result contains 0 rows")))
    (mkStorage true false false None)
    plain_rng (fun _ => "2024-01-01T00:00:00.000Z") [].

(** The same store failing for another reason. *)
Definition failing_world : World :=
  mkWorld true None
    (fun _ => upsert_answer None
                (Some (mkError "23505"
                         "duplicate key value violates unique constraint")))
    (fun _ _ => select_answer None
                  (Some (mkError "PGRST116" "The result contains 0 rows")))
    (mkStorage true false false None)
    plain_rng (fun _ => "2024-01-01T00:00:00.000Z") [].

Definition sample_uuid : string := "3f2504e0-4f89-41d3-9a0c-0305e82c3301".

Definition sample_shortId : string := "aZ3kQ9xLm".


From Stdlib Require Import DecimalNat.

(* ================================================================== *)
(** * The views: report summary, section cards, section header *)
(* ================================================================== *)

(** The counts below are read off the render code of the [App] component
    ([src/components/CameraView.tsx]): the summary of the report (l. 1610 to
    1631), the cards of the dashboard (l. 1794 to 1831), the header of the
    section view (l. 1914 to 1926) and its recovery button (l. 2106).  They
    are lengths of arrays, and sums and differences of such lengths, all
    well below 2^53: the numbers involved are integers and the arithmetic on
    them is exact, so they are kept as integers. *)

(** [i => !i.isHidden]. *)
Definition shown (i : InspectionChecklistItem) : bool := negb (hidden i).

(** [inspection.sections.map(s => ({...s, items: s.items.filter(i =>
    !i.isHidden)}))]. *)
Definition report_sections (inspection : InspectionProfile)
  : list InspectionSection :=
  map (fun s => with_items s (filter shown (sec_items s)))
      (sections inspection).

(** [.reduce((acc, s) => acc + f(s), 0)]. *)
Definition reduce_count (f : InspectionSection -> nat)
    (ss : list InspectionSection) : Z :=
  fold_left (fun acc s => acc + Z.of_nat (f s)) ss 0.

Definition is_pass (i : InspectionChecklistItem) : bool :=
  ItemStatus_eqb (item_status i) pass.

Definition is_info (i : InspectionChecklistItem) : bool :=
  ItemStatus_eqb (item_status i) info.

(** [['attention', 'moderate', 'dangerous'].includes(i.status)]. *)
Definition is_issue (i : InspectionChecklistItem) : bool :=
  existsb (fun st => ItemStatus_eqb st (item_status i))
          [attention; moderate; dangerous].

Definition summary_total (inspection : InspectionProfile) : Z :=
  reduce_count (fun s => length (sec_items s)) (report_sections inspection).

Definition summary_passed (inspection : InspectionProfile) : Z :=
  reduce_count (fun s => length (filter is_pass (sec_items s)))
               (report_sections inspection).

Definition summary_issues (inspection : InspectionProfile) : Z :=
  reduce_count (fun s => length (filter is_issue (sec_items s)))
               (report_sections inspection).

(** The fourth term of the "Remaining" figure. *)
Definition summary_info (inspection : InspectionProfile) : Z :=
  reduce_count (fun s => length (filter is_info (sec_items s)))
               (report_sections inspection).

Definition summary_remaining (inspection : InspectionProfile) : Z :=
  summary_total inspection - summary_passed inspection
  - summary_issues inspection - summary_info inspection.

(** ** The card of a section on the dashboard *)

Definition activeItems (section : InspectionSection)
  : list InspectionChecklistItem :=
  filter shown (sec_items section).

Definition doneCount (section : InspectionSection) : nat :=
  length (filter (fun i => negb (is_untouched i)) (activeItems section)).

(** ** The header of the section view *)

(** [inspection.sections.find(s => s.id === activeSectionId)];
    [activeSectionId] is a string or [null]. *)
Definition active_section (activeSectionId : option string)
    (inspection : InspectionProfile) : option InspectionSection :=
  find (fun s => match activeSectionId with
                 | Some a => (sec_id s =? a)%string
                 | None => false
                 end)
       (sections inspection).

(** The two counts of "x of y inspected"; [None] is [undefined]. *)
Definition header_inspected (activeSectionId : option string)
    (inspection : InspectionProfile) : option nat :=
  option_map
    (fun s => length (filter (fun i => (negb (hidden i)
                                        && negb (is_untouched i))%bool)
                             (sec_items s)))
    (active_section activeSectionId inspection).

Definition header_total (activeSectionId : option string)
    (inspection : InspectionProfile) : option nat :=
  option_map (fun s => length (filter shown (sec_items s)))
             (active_section activeSectionId inspection).

(** [count || dflt] on a count that may be [undefined]. *)
Definition count_or (count : option nat) (dflt : Z) : number :=
  match count with
  | Some O | None => of_Z dflt
  | Some n => of_nat n
  end.

(** The width of the progress bar, in percent. *)
Definition bar_width (activeSectionId : option string)
    (inspection : InspectionProfile) : number :=
  mul (div (count_or (header_inspected activeSectionId inspection) 0)
           (count_or (header_total activeSectionId inspection) 1))
      (of_Z 100).

(** The button that brings the hidden items back is offered when the active
    section holds a hidden item. *)
Definition recovery_offered (activeSectionId : option string)
    (inspection : InspectionProfile) : bool :=
  match option_map (fun s => length (filter hidden (sec_items s)))
                   (active_section activeSectionId inspection) with
  | Some n => (0 <? n)%nat
  | None => false
  end.

(* ================================================================== *)
(** * Saving from the application *)
(* ================================================================== *)

(** [window.location]. *)
Record Location : Type := mkLocation {
  loc_origin : string;
  loc_pathname : string
}.

(** [s.endsWith('/')]. *)
Fixpoint endsWith_slash (s : string) : bool :=
  match s with
  | EmptyString => false
  | String c r =>
      match r with
      | EmptyString => Ascii.eqb c "/"%char
      | String _ _ => endsWith_slash r
      end
  end.

(** [constructShareUrl] (CameraView.tsx, l. 865). *)
Definition constructShareUrl (loc : Location) (id : string) : string :=
  let separator :=
    if endsWith_slash (loc_pathname loc) then EmptyString else "/" in
  loc_origin loc ++ loc_pathname loc ++ separator ++ "?id=" ++ id.

(** [handleSaveReport] (l. 873): the document, the world, and the share
    link when one is set. *)
Definition handleSaveReport (loc : Location) (inspection : State) (w : World)
  : State * World * option string :=
  match inspection with
  | None => (None, w, None)
  | Some insp =>
      match saveReportToSupabase insp w with
      | (resolved keys, w1) =>
          let idToUse :=
            if truthy (keys_shortId keys) then keys_shortId keys
            else uuid keys in
          (handleSaveReport_patch (uuid keys) (keys_shortId keys) inspection,
           w1, Some (constructShareUrl loc idToUse))
      | (rejected msg, w1) =>
          (inspection, alert w1 ("Error: " ++ msg), None)
      end
  end.

(** [handleShareClick] (l. 917): the share link, when the document carries a
    key. *)
Definition handleShareClick (loc : Location) (inspection : State)
  : option string :=
  match inspection with
  | None => None
  | Some insp =>
      let id :=
        if truthy_opt (shortId insp) then shortId insp
        else savedReportId insp in
      if truthy_opt id
      then option_map (constructShareUrl loc) id
      else None
  end.

(** The name of the inspector set by [handleStartInspection] (l. 762):
    [user ? user.email?.split('@')[0] || "Inspector" : "Guest Inspector"].
    The user is absent, or present with an address that may be missing. *)
Fixpoint before_at (email : string) : string :=
  match email with
  | EmptyString => EmptyString
  | String c r =>
      if Ascii.eqb c "@"%char then EmptyString else String c (before_at r)
  end.

Definition inspector_name (user : option (option string)) : string :=
  match user with
  | Some email => or_else (option_map before_at email) "Inspector"
  | None => "Guest Inspector"
  end.

(* ================================================================== *)
(** * The answer of the generation service, cleaned *)
(* ================================================================== *)

(** [cleanJson] ([src/unnamed/part_000], l. 28) works on the text of the
    answer character by character; the text is taken here as the list of its
    UTF-16 code units.  An index that is not found is [-1], as in the
    code. *)
Definition Text : Type := list N.

(** The three backticks of a code fence, and the fence followed by
    [json]. *)
Definition fence : Text := [96; 96; 96]%N.
Definition fence_json : Text := [96; 96; 96; 106; 115; 111; 110]%N.

Definition curly_open : N := 123.
Definition curly_close : N := 125.
Definition square_open : N := 91.
Definition square_close : N := 93.

Fixpoint is_prefix (p l : Text) : bool :=
  match p, l with
  | [], _ => true
  | a :: p', b :: l' => ((a =? b)%N && is_prefix p' l')%bool
  | _ :: _, [] => false
  end.

(** [text.replace(/```json|```/g, '')]: at each place the first alternative
    is tried before the second; [skip] counts the characters of a match
    still to be dropped. *)
Fixpoint remove_fences_from (skip : nat) (l : Text) : Text :=
  match l with
  | [] => []
  | c :: r =>
      match skip with
      | S k => remove_fences_from k r
      | O =>
          if is_prefix fence_json l then remove_fences_from 6 r
          else if is_prefix fence l then remove_fences_from 2 r
          else c :: remove_fences_from 0 r
      end
  end.

Definition remove_fences (l : Text) : Text := remove_fences_from 0 l.

(** The white space and the line terminators removed by [trim]. *)
Definition is_space (c : N) : bool :=
  (existsb (N.eqb c)
     [9; 10; 11; 12; 13; 32; 160; 5760; 8232; 8233; 8239; 8287; 12288;
      65279]
   || ((8192 <=? c) && (c <=? 8202)))%N%bool.

Fixpoint trimStart (l : Text) : Text :=
  match l with
  | [] => []
  | c :: r => if is_space c then trimStart r else l
  end.

Definition trim (l : Text) : Text := rev (trimStart (rev (trimStart l))).

(** [l.indexOf(c)], counting from [i]. *)
Fixpoint indexOf_from (i : Z) (c : N) (l : Text) : Z :=
  match l with
  | [] => -1
  | x :: r => if (x =? c)%N then i else indexOf_from (i + 1) c r
  end.

Definition indexOf (c : N) (l : Text) : Z := indexOf_from 0 c l.

(** [l.lastIndexOf(c)], counting from [i], [found] being the last index seen
    so far. *)
Fixpoint lastIndexOf_from (i : Z) (c : N) (l : Text) (found : Z) : Z :=
  match l with
  | [] => found
  | x :: r => lastIndexOf_from (i + 1) c r (if (x =? c)%N then i else found)
  end.

Definition lastIndexOf (c : N) (l : Text) : Z := lastIndexOf_from 0 c l (-1).

(** [l.substring(a)] and [l.substring(0, b)] for indices that are not
    negative. *)
Definition substring_from (a : Z) (l : Text) : Text := skipn (Z.to_nat a) l.
Definition substring_to (b : Z) (l : Text) : Text := firstn (Z.to_nat b) l.

Definition cleanJson (text : option Text) : Text :=
  match text with
  | None | Some [] => [square_open; square_close]
  | Some text =>
      let cleaned := trim (remove_fences text) in
      let firstCurly := indexOf curly_open cleaned in
      let firstSquare := indexOf square_open cleaned in
      let startIndex :=
        if (negb (firstCurly =? -1) && negb (firstSquare =? -1))%bool
        then Z.min firstCurly firstSquare
        else if negb (firstCurly =? -1) then firstCurly
        else firstSquare in
      let cleaned :=
        if negb (startIndex =? -1) then substring_from startIndex cleaned
        else cleaned in
      let lastCurly := lastIndexOf curly_close cleaned in
      let lastSquare := lastIndexOf square_close cleaned in
      let endIndex := Z.max lastCurly lastSquare in
      if negb (endIndex =? -1) then substring_to (endIndex + 1) cleaned
      else cleaned
  end.

(** The index of the first character passing a test, counting from [i], and
    of the last one, [found] being the last index seen so far. *)
Fixpoint first_index_from (i : Z) (p : N -> bool) (l : Text) : Z :=
  match l with
  | [] => -1
  | x :: r => if p x then i else first_index_from (i + 1) p r
  end.

Fixpoint last_index_from (i : Z) (p : N -> bool) (l : Text) (found : Z) : Z :=
  match l with
  | [] => found
  | x :: r => last_index_from (i + 1) p r (if p x then i else found)
  end.

(** A text holds no code fence. *)
Definition fence_free (l : Text) : Prop :=
  forall k, is_prefix fence (skipn k l) = false.

Definition is_opening (c : N) : bool :=
  ((c =? curly_open) || (c =? square_open))%N%bool.

Definition is_closing (c : N) : bool :=
  ((c =? curly_close) || (c =? square_close))%N%bool.

(* ================================================================== *)
(** * Further notions used in the statements *)
(* ================================================================== *)

(** ** Shapes of the generated keys *)

(** The class [[a-zA-Z0-9]]. *)
Definition is_alnum (c : ascii) : bool :=
  (in_range 97 122 c || in_range 65 90 c || in_range 48 57 c)%bool.

Definition shortId_pattern : list (ascii -> bool) := repeat is_alnum 9.

(** The class [[0-9a-f]] without the flag [i]. *)
Definition is_lower_hex (c : ascii) : bool :=
  (in_range 48 57 c || in_range 97 102 c)%bool.

Definition is_four (c : ascii) : bool := Ascii.eqb c "4"%char.

(** The digits whose two high bits are binary 10. *)
Definition is_variant (c : ascii) : bool :=
  (Ascii.eqb c "8"%char || Ascii.eqb c "9"%char
   || Ascii.eqb c "a"%char || Ascii.eqb c "b"%char)%bool.

(** A version 4 key in lowercase: the version digit at offset 14, the
    variant digit at offset 19. *)
Definition uuid_v4_pattern : list (ascii -> bool) :=
  repeat is_lower_hex 8 ++ [is_dash] ++ repeat is_lower_hex 4 ++ [is_dash]
    ++ [is_four] ++ repeat is_lower_hex 3 ++ [is_dash]
    ++ [is_variant] ++ repeat is_lower_hex 3 ++ [is_dash]
    ++ repeat is_lower_hex 12.

(** What the fallback generator may put in the place of a template
    character. *)
Definition v4_class (c : ascii) : ascii -> bool :=
  if Ascii.eqb c "x"%char then is_lower_hex
  else if Ascii.eqb c "y"%char then is_variant
  else fun a => Ascii.eqb a c.

(** ** Mutations that touch neither a status nor a visibility flag *)

Definition content_only (a : Action) : bool :=
  match a with
  | SetItemOption _ _ _ | SetItemNotes _ _ _ | AnalysisNote _ _ _
  | AddPhoto _ _ | RemovePhoto _ _ _ | KeysSaved _ _ => true
  | _ => false
  end.

(** What a mutation never changes in an item, and in a section. *)
Definition same_item_identity (i i' : InspectionChecklistItem) : Prop :=
  item_id i' = item_id i /\ item_label i' = item_label i /\
  item_options i' = item_options i.

Definition same_section_identity (s s' : InspectionSection) : Prop :=
  sec_id s' = sec_id s /\ sec_title s' = sec_title s /\
  sec_iconName s' = sec_iconName s /\
  sec_description s' = sec_description s.

(** The statuses of the items a view counts, section by section. *)
Definition visible_statuses (d : InspectionProfile) : list (list ItemStatus) :=
  map (fun s => map item_status (activeItems s)) (sections d).

(** Every item of [l] is found at its place in [l'], with its identity. *)
Definition items_extend (l l' : list InspectionChecklistItem) : Prop :=
  forall j i, nth_error l j = Some i ->
    exists i', nth_error l' j = Some i' /\ same_item_identity i i'.

(** Every section of [d] is found at its place in [d'], with its identity
    and its items. *)
Definition extends (d d' : InspectionProfile) : Prop :=
  forall k s, section_at d k = Some s ->
    exists s', section_at d' k = Some s' /\ same_section_identity s s' /\
               items_extend (sec_items s) (sec_items s').

(** A path without the slash it may end with. *)
Fixpoint without_trailing_slash (s : string) : string :=
  match s with
  | EmptyString => EmptyString
  | String c r =>
      match r with
      | EmptyString =>
          if Ascii.eqb c "/"%char then EmptyString else String c EmptyString
      | String _ _ => String c (without_trailing_slash r)
      end
  end.

(** The part of a document that is set when the inspection starts: all of
    it but the sections and the two keys. *)
Definition header_of (d : InspectionProfile) : InspectionProfile :=
  with_keys (with_sections d []) None None (userId d).

Definition saves_keys (a : Action) : bool :=
  match a with KeysSaved _ _ => true | _ => false end.

(** ** Stores *)

(** Storage that can be read and written, holding nothing or an object. *)
Definition storage_works (ls : LocalStorage) : Prop :=
  window_defined ls = true /\ getItem_throws ls = false /\
  setItem_throws ls = false /\
  (stored ls = None \/
   exists entries, stored ls = Some (json_text (json_map entries))).

(** A numeric property that JSON text gives back as it is: a finite number
    other than the negative zero, or [null]. *)
Definition finite_numeric (n : Numeric) : bool :=
  match n with
  | num (S754_finite _ _ _) | num (S754_zero false) | null_number => true
  | _ => false
  end.

(** A document all of whose numbers are such. *)
Definition json_safe (p : InspectionProfile) : Prop :=
  finite_numeric (floors p) = true /\ finite_numeric (baths p) = true /\
  finite_numeric (bedrooms p) = true /\
  match sqft p with
  | Some n => finite_numeric n = true
  | None => True
  end.

(** The record [kr] holds a document carrying the short key [sid]. *)
Definition carries_shortId (sid : string) (kr : string * LocalRecord)
  : bool :=
  match rec_data (snd kr) with
  | Some p =>
      match shortId p with
      | Some s => (s =? sid)%string
      | None => false
      end
  | None => false
  end.

(** The document sent to the stores by a save. *)
Definition saved_payload (inspection : InspectionProfile) (w : World)
  : InspectionProfile :=
  with_keys inspection
    (Some (uuid (local_keys inspection w)))
    (Some (keys_shortId (local_keys inspection w)))
    (if supabase w
     then match auth_user w with
          | Some u => Some u
          | None => userId inspection
          end
     else userId inspection).

Definition set_now (w : World) (clock : nat -> string) : World :=
  mkWorld (supabase w) (auth_user w) (upsert w) (select_single w)
          (localStorage w) (rng w) clock (alerts w).

(** ** Further samples *)

(** No remote store, working and empty storage. *)
Definition offline_world : World :=
  mkWorld false None (upsert denied_world) (select_single denied_world)
    (mkStorage true false false None) plain_rng
    (fun _ => "2024-01-01T00:00:00.000Z") [].

(** No remote store, and storage whose content does not parse. *)
Definition corrupt_storage : LocalStorage :=
  mkStorage true false false (Some (unparseable "{oops")).

Definition corrupt_world : World :=
  mkWorld false None (upsert denied_world) (select_single denied_world)
    corrupt_storage plain_rng (fun _ => "2024-01-01T00:00:00.000Z") [].

(** A remote store that checks the creation time of the row it is sent
    against the second reading of the clock. *)
Definition clock_world : World :=
  mkWorld true None
    (fun row =>
       if (db_created_at row =? "2024-01-01T00:00:00.002Z")%string
       then upsert_answer None None
       else upsert_answer None
              (Some (mkError "23514" "created_at is in the past")))
    (select_single denied_world)
    (mkStorage true false false None) plain_rng
    (fun k => match k with
              | O => "2024-01-01T00:00:00.001Z"
              | S _ => "2024-01-01T00:00:00.002Z"
              end)
    [].

(** A remote store that holds the roof document under the sample keys. *)
Definition serving_world : World :=
  mkWorld true None (upsert denied_world)
    (fun _ _ =>
       select_answer
         (Some (mkRow (Some roof_doc) sample_uuid (Some sample_shortId)
                      (Some "user-7")))
         None)
    (mkStorage true false false None) plain_rng
    (fun _ => "2024-01-01T00:00:00.000Z") [].

(** The roof document once it has been saved under the sample keys. *)
Definition saved_doc : InspectionProfile :=
  with_keys roof_doc (Some sample_uuid) (Some sample_shortId) None.

(** The roof document with a number of floors that is not a number, as the
    setup form leaves it when the field is cleared. *)
Definition nan_doc : InspectionProfile :=
  mkProfile (profile_id roof_doc) None None None (address roof_doc) None
    (propertyType roof_doc) (num S754_nan) (baths roof_doc)
    (bedrooms roof_doc) None None None None None None None None None None
    None None (inspectorName roof_doc) (createdAt roof_doc)
    (sections roof_doc).

(** A local store that holds two reports: another one, and an earlier save
    of the roof document under the sample keys. *)
Definition other_uuid : string := "0b9c4f6e-1d2a-4c3b-8e7f-112233445566".

Definition other_doc : InspectionProfile :=
  with_keys (profile_of fallback_plan) (Some other_uuid) (Some "Qw8rT2yUi")
            None.

Definition busy_storage : LocalStorage :=
  mkStorage true false false
    (Some (json_text (json_map
       [ (other_uuid,
          mkRecord other_uuid (Some other_doc) None
                   "2023-12-30T09:00:00.000Z");
         (sample_uuid,
          mkRecord sample_uuid (Some saved_doc) None
                   "2023-12-31T09:00:00.000Z") ]))).

Definition busy_world : World :=
  mkWorld false None (upsert denied_world) (select_single denied_world)
    busy_storage plain_rng (fun _ => "2024-01-01T00:00:00.000Z") [].

(** A local store that holds another report carrying the short key the
    sample generator yields. *)
Definition clash_doc : InspectionProfile :=
  with_keys (profile_of fallback_plan) (Some other_uuid) (Some "FFFFFFFFF")
            None.

Definition clash_world : World :=
  mkWorld false None (upsert denied_world) (select_single denied_world)
    (mkStorage true false false
       (Some (json_text (json_map
          [ (other_uuid,
             mkRecord other_uuid (Some clash_doc) None
                      "2023-12-30T09:00:00.000Z") ]))))
    plain_rng (fun _ => "2024-01-01T00:00:00.000Z") [].

Definition sample_location : Location :=
  mkLocation "https://inspect.example" "/app".

(** The roof document with one photo on its item. *)
Definition photo_doc : InspectionProfile :=
  match handleCapturePhoto
          (Some (mkTarget "section-0-0" (Some "item-0-0")))
          "data:image/jpeg;base64,AAAA" (Some roof_doc) with
  | Some d => d
  | None => roof_doc
  end.

(* ================================================================== *)
(** * Properties of the numbers *)
(* ================================================================== *)

Lemma digits2_pos_bounds p :
  2 ^ (Z.pos (digits2_pos p) - 1) <= Z.pos p < 2 ^ Z.pos (digits2_pos p).
Proof.
  induction p as [p IH | p IH |]; simpl digits2_pos.
  - rewrite Pos2Z.inj_succ.
    replace (Z.succ (Z.pos (digits2_pos p)) - 1)
      with (Z.succ (Z.pos (digits2_pos p) - 1)) by lia.
    rewrite !Z.pow_succ_r by lia. lia.
  - rewrite Pos2Z.inj_succ.
    replace (Z.succ (Z.pos (digits2_pos p)) - 1)
      with (Z.succ (Z.pos (digits2_pos p) - 1)) by lia.
    rewrite !Z.pow_succ_r by lia. lia.
  - simpl. lia.
Qed.

Lemma digits2_pos_le p n :
  0 <= n -> Z.pos p < 2 ^ n -> Z.pos (digits2_pos p) <= n.
Proof.
  intros Hn H. destruct (digits2_pos_bounds p) as [L _].
  destruct (Z.le_gt_cases (Z.pos (digits2_pos p)) n) as [|G]; [assumption|].
  exfalso.
  assert (2 ^ n <= 2 ^ (Z.pos (digits2_pos p) - 1))
    by (apply Z.pow_le_mono_r; lia).
  lia.
Qed.

Lemma digits2_pos_iter_xO p k :
  digits2_pos (Pos.iter xO p k) = (digits2_pos p + k)%positive.
Proof.
  induction k as [|k IH] using Pos.peano_ind.
  - simpl. lia.
  - rewrite Pos.iter_succ. simpl. rewrite IH. lia.
Qed.

Lemma shr_fexp_canonical m e :
  Z.pos (digits2_pos m) = 53 -> -1074 <= e ->
  shr_fexp prec emax (Z.pos m) e loc_Exact
  = ({| shr_m := Z.pos m; shr_r := false; shr_s := false |}, e).
Proof.
  intros D He. unfold shr_fexp, fexp, emin, prec, emax.
  cbn [Zdigits2 shr_record_of_loc]. rewrite D.
  replace (Z.max (53 + e - 53) (3 - 1024 - 53) - e) with 0 by lia.
  reflexivity.
Qed.

Lemma binary_round_aux_canonical s m e :
  Z.pos (digits2_pos m) = 53 -> -1074 <= e <= 971 ->
  binary_round_aux prec emax s (Z.pos m) e loc_Exact = S754_finite s m e.
Proof.
  intros D He. unfold binary_round_aux.
  rewrite (shr_fexp_canonical m e D) by lia.
  cbn [shr_m loc_of_shr_record round_nearest_even].
  rewrite (shr_fexp_canonical m e D) by lia.
  cbn [shr_m]. unfold emax, prec.
  destruct (Z.leb_spec e (1024 - 53)); [reflexivity | lia].
Qed.

Lemma of_Z_finite p :
  Z.pos p < 2 ^ 53 -> exists m e, of_Z (Z.pos p) = S754_finite false m e.
Proof.
  intros H. pose proof (digits2_pos_le p 53 ltac:(lia) H) as D.
  unfold of_Z, binary_normalize, binary_round, shl_align, fexp, emin, prec,
    emax.
  assert (1 <= Z.pos (digits2_pos p)) by lia.
  replace (Z.max (Z.pos (digits2_pos p) + 0 - 53) (3 - 1024 - 53) - 0)
    with (Z.pos (digits2_pos p) - 53) by lia.
  destruct (Z.pos (digits2_pos p) - 53) as [|q|q] eqn:E; try lia.
  - do 2 eexists. apply binary_round_aux_canonical; lia.
  - replace (Z.max (Z.pos (digits2_pos p) + 0 - 53) (3 - 1024 - 53))
      with (Z.neg q) by lia.
    do 2 eexists. apply binary_round_aux_canonical.
    + rewrite digits2_pos_iter_xO. lia.
    + lia.
Qed.

Lemma div_self s m e :
  div (S754_finite s m e) (S754_finite s m e) = of_Z 1.
Proof.
  unfold div, SFdiv, SFdiv_core_binary.
  replace (Zdigits2 (Z.pos m) + e - (Zdigits2 (Z.pos m) + e)) with 0 by lia.
  replace (e - e) with 0 by lia.
  change (Z.min (fexp prec emax 0) 0) with (-53).
  change (0 - -53) with 53.
  cbv iota beta.
  rewrite Z.shiftl_mul_pow2 by lia.
  assert (Q : Z.div_eucl (Z.pos m * 2 ^ 53) (Z.pos m) = (2 ^ 53, 0)).
  { rewrite (Z.mul_comm (Z.pos m)).
    transitivity ((2 ^ 53 * Z.pos m) / Z.pos m, (2 ^ 53 * Z.pos m) mod Z.pos m).
    - unfold Z.div, Z.modulo.
      destruct (Z.div_eucl (2 ^ 53 * Z.pos m) (Z.pos m)); reflexivity.
    - rewrite Z.div_mul, Z.mod_mul by lia. reflexivity. }
  rewrite Q.
  assert (L : new_location (Z.pos m) 0 = loc_Exact).
  { unfold new_location. destruct (Z.even (Z.pos m)); reflexivity. }
  rewrite L. destruct s; reflexivity.
Qed.

(** ** Products that are exact *)

Lemma iter_pos_iter {A : Type} (f : A -> A) p : forall x,
  iter_pos f p x = Pos.iter f x p.
Proof.
  induction p as [p IH | p IH |]; intros x; simpl.
  - rewrite !IH, !Pos.iter_swap. reflexivity.
  - rewrite !IH. reflexivity.
  - reflexivity.
Qed.

Lemma shr_1_double q :
  0 < q ->
  shr_1 {| shr_m := 2 * q; shr_r := false; shr_s := false |}
  = {| shr_m := q; shr_r := false; shr_s := false |}.
Proof. destruct q as [|p|p]; try lia. reflexivity. Qed.

Lemma iter_shr_1_exact n : forall q,
  0 < q ->
  Pos.iter shr_1
    {| shr_m := q * 2 ^ Z.pos n; shr_r := false; shr_s := false |} n
  = {| shr_m := q; shr_r := false; shr_s := false |}.
Proof.
  induction n as [|n IH] using Pos.peano_ind; intros q Hq.
  - simpl. rewrite Z.mul_comm. apply shr_1_double. exact Hq.
  - rewrite Pos.iter_succ, Pos2Z.inj_succ, Z.pow_succ_r by lia.
    replace (q * (2 * 2 ^ Z.pos n)) with ((2 * q) * 2 ^ Z.pos n) by lia.
    rewrite IH by lia. apply shr_1_double. exact Hq.
Qed.

Lemma digits2_pos_unique p a :
  2 ^ (a - 1) <= Z.pos p < 2 ^ a -> 0 < a -> Z.pos (digits2_pos p) = a.
Proof.
  intros [L U] Ha. destruct (digits2_pos_bounds p) as [L' U'].
  set (d := Z.pos (digits2_pos p)) in *.
  assert (Hd : 0 < d) by (unfold d; lia).
  destruct (Z.lt_trichotomy d a) as [H | [H | H]]; [|exact H|].
  - assert (2 ^ d <= 2 ^ (a - 1)) by (apply Z.pow_le_mono_r; lia). lia.
  - assert (2 ^ a <= 2 ^ (d - 1)) by (apply Z.pow_le_mono_r; lia). lia.
Qed.

Lemma digits2_pos_shift M q n :
  0 <= n -> Z.pos M = Z.pos q * 2 ^ n ->
  Z.pos (digits2_pos M) = Z.pos (digits2_pos q) + n.
Proof.
  intros Hn E. apply digits2_pos_unique; [|lia].
  destruct (digits2_pos_bounds q) as [L U]. rewrite E.
  replace (Z.pos (digits2_pos q) + n - 1) with (Z.pos (digits2_pos q) - 1 + n)
    by lia.
  rewrite !Z.pow_add_r by lia.
  assert (0 < 2 ^ n) by (apply Z.pow_pos_nonneg; lia).
  split; nia.
Qed.

Lemma binary_round_aux_exact s M E q :
  let F := fexp prec emax (Z.pos (digits2_pos M) + E) in
  E <= F -> F <= 971 ->
  Z.pos M = Z.pos q * 2 ^ (F - E) ->
  binary_round_aux prec emax s (Z.pos M) E loc_Exact = S754_finite s q F.
Proof.
  intros F HE HF HM.
  assert (S1 : shr_fexp prec emax (Z.pos M) E loc_Exact
               = ({| shr_m := Z.pos q; shr_r := false; shr_s := false |}, F)).
  { unfold shr_fexp. cbn [Zdigits2 shr_record_of_loc]. fold F.
    destruct (F - E) as [|n|n] eqn:En; try lia.
    - simpl. rewrite HM, Z.mul_1_r. f_equal. lia.
    - unfold shr. rewrite iter_pos_iter, HM, iter_shr_1_exact by lia.
      f_equal. lia. }
  assert (S2 : shr_fexp prec emax (Z.pos q) F loc_Exact
               = ({| shr_m := Z.pos q; shr_r := false; shr_s := false |}, F)).
  { unfold shr_fexp. cbn [Zdigits2 shr_record_of_loc].
    pose proof (digits2_pos_shift M q (F - E) ltac:(lia) HM) as D.
    replace (Z.pos (digits2_pos q) + F) with (Z.pos (digits2_pos M) + E)
      by lia.
    fold F. rewrite Z.sub_diag. reflexivity. }
  unfold binary_round_aux. rewrite S1.
  cbn [shr_m loc_of_shr_record round_nearest_even]. rewrite S2.
  cbn [shr_m]. unfold emax, prec.
  destruct (Z.leb_spec F (1024 - 53)); [reflexivity | lia].
Qed.

(** A number at least 0 and less than 1 is a zero, or a finite positive
    number with exponent at most -53. *)
Lemma in_unit_interval_cases x :
  in_unit_interval x = true ->
  (exists s, x = S754_zero s) \/
  (exists m e, x = S754_finite false m e /\ e <= -53 /\
               Z.pos (digits2_pos m) <= 53 /\
               fexp prec emax (Z.pos (digits2_pos m) + e) = e).
Proof.
  unfold in_unit_interval. rewrite !andb_true_iff. intros [[V L] U].
  destruct x as [s | s | | s m e].
  - left. exists s. reflexivity.
  - destruct s; discriminate.
  - discriminate.
  - right. exists m, e. destruct s; [discriminate|].
    simpl in V. unfold bounded, canonical_mantissa in V.
    apply andb_true_iff in V as [C _]. apply Z.eqb_eq in C.
    split; [reflexivity|].
    assert (D : Z.pos (digits2_pos m) <= 53).
    { unfold fexp, prec in C. lia. }
    split; [|split; [exact D | exact C]].
    unfold SFltb, SFcompare in U.
    change (of_Z 1) with (S754_finite false 4503599627370496 (-52)) in U.
    cbv beta iota in U.
    revert U.
    destruct (Z.compare_spec e (-52)) as [E | E | E]; intros U;
      [|lia|discriminate].
    subst e. exfalso. unfold fexp, prec, emin, emax in C.
    assert (D53 : Z.pos (digits2_pos m) = 53) by lia.
    destruct (digits2_pos_bounds m) as [Lo _]. rewrite D53 in Lo.
    change (2 ^ (53 - 1)) with 4503599627370496 in Lo.
    remember 4503599627370496%positive as big eqn:Hbig.
    rewrite Pos.compare_cont_spec in U. revert U.
    destruct (Pos.compare_spec m big) as [Cm | Cm | Cm];
      intros U; [discriminate U | lia | discriminate U].
Qed.

Lemma mul_16_finite m e :
  e <= -53 -> Z.pos (digits2_pos m) <= 53 ->
  fexp prec emax (Z.pos (digits2_pos m) + e) = e ->
  exists q F,
    mul (S754_finite false m e) (of_Z 16) = S754_finite false q F /\
    F < 0 /\ Z.pos q < 16 * 2 ^ (- F).
Proof.
  intros He D C.
  change (of_Z 16) with (S754_finite false 4503599627370496 (-48)).
  unfold mul, SFmul. cbn [xorb].
  set (M := (m * 4503599627370496)%positive).
  set (E := e + -48).
  assert (HM : Z.pos M = Z.pos m * 2 ^ 52) by (unfold M; reflexivity).
  pose proof (digits2_pos_shift M m 52 ltac:(lia) HM) as DM.
  set (F := fexp prec emax (Z.pos (digits2_pos M) + E)).
  assert (HF : F = Z.max (Z.pos (digits2_pos m) + e - 49) (-1074)).
  { unfold F, fexp, prec, emin, emax, E. rewrite DM. lia. }
  assert (Hn : 48 <= F - E <= 52).
  { unfold fexp, prec, emin, emax in C. unfold E. lia. }
  assert (P : 0 < Z.pos m * 2 ^ (52 - (F - E))).
  { apply Z.mul_pos_pos; [lia|]. apply Z.pow_pos_nonneg; lia. }
  exists (Z.to_pos (Z.pos m * 2 ^ (52 - (F - E)))), F.
  split; [|split].
  - apply binary_round_aux_exact; fold F; try lia.
    rewrite Z2Pos.id by exact P. rewrite HM, <- Z.mul_assoc.
    rewrite <- Z.pow_add_r by lia. f_equal. f_equal. lia.
  - unfold E in Hn. lia.
  - rewrite Z2Pos.id by exact P.
    destruct (digits2_pos_bounds m) as [_ Um].
    assert (Z.pos m < 2 ^ 53).
    { eapply Z.lt_le_trans; [exact Um|]. apply Z.pow_le_mono_r; lia. }
    assert (2 ^ 53 <= 2 ^ (- e)) by (apply Z.pow_le_mono_r; lia).
    replace (16 * 2 ^ (- F)) with (2 ^ (- e) * 2 ^ (52 - (F - E))).
    + apply Z.mul_lt_mono_pos_r; [apply Z.pow_pos_nonneg; lia | lia].
    + change 16 with (2 ^ 4). rewrite <- !Z.pow_add_r by (unfold E in *; lia).
      f_equal. unfold E. lia.
Qed.

(** [(Math.random() * 16) | 0] is one of 0, ..., 15. *)
Lemma random_nibble x :
  in_unit_interval x = true -> 0 <= ToInt32 (mul x (of_Z 16)) <= 15.
Proof.
  intros H. destruct (in_unit_interval_cases x H)
    as [[s ->] | (m & e & -> & He & D & C)].
  - destruct s; vm_compute; split; discriminate.
  - destruct (mul_16_finite m e He D C) as (q & F & -> & HF & Hq).
    unfold ToInt32, trunc_Z, floor_Z, signed.
    destruct (Z.leb_spec 0 F); [lia|].
    rewrite Z.shiftr_div_pow2 by lia.
    assert (0 < 2 ^ (- F)) by (apply Z.pow_pos_nonneg; lia).
    assert (B : 0 <= Z.pos q / 2 ^ (- F) <= 15).
    { split; [apply Z.div_pos; lia|].
      apply Z.lt_succ_r. apply Z.div_lt_upper_bound; lia. }
    rewrite Z.mod_small by (change (2 ^ 32) with 4294967296; lia).
    destruct (Z.ltb_spec (Z.pos q / 2 ^ (- F)) (2 ^ 31)); [exact B|].
    change (2 ^ 31) with 2147483648 in *. lia.
Qed.

(* ================================================================== *)
(** * Properties of the document model *)
(* ================================================================== *)

Lemma ItemStatus_eqb_spec a b : reflect (a = b) (ItemStatus_eqb a b).
Proof. destruct a, b; constructor; congruence. Qed.

Lemma with_sections_same d : with_sections d (sections d) = d.
Proof. destruct d; reflexivity. Qed.

Lemma with_items_same s : with_items s (sec_items s) = s.
Proof. destruct s; reflexivity. Qed.

Lemma sections_with_sections d ss : sections (with_sections d ss) = ss.
Proof. reflexivity. Qed.

Lemma map_fixed {A : Type} (f : A -> A) (l : list A) :
  (forall x, In x l -> f x = x) -> map f l = l.
Proof.
  induction l as [|x l IH]; simpl; intros H; [reflexivity|].
  rewrite H by (left; reflexivity).
  rewrite IH; [reflexivity|]. intros y Hy. apply H. right. exact Hy.
Qed.

(** ** The rollup *)

Section Rollup.

Lemma count_untouched_le its :
  (length (filter is_untouched its) <= length its)%nat.
Proof.
  induction its as [|i its IH]; simpl; [lia|].
  destruct (is_untouched i); simpl; lia.
Qed.

Lemma count_untouched_zero its :
  length (filter is_untouched its) = 0%nat <-> all_touched its.
Proof.
  unfold all_touched. induction its as [|i its IH]; simpl.
  - split; [constructor | reflexivity].
  - unfold is_untouched at 1.
    destruct (ItemStatus_eqb_spec (item_status i) untouched) as [E|E]; simpl.
    + split; [discriminate|]. intros H. inversion H; subst. contradiction.
    + rewrite IH. split.
      * intros H. constructor; assumption.
      * intros H. inversion H; assumption.
Qed.

Lemma count_untouched_all its :
  length (filter is_untouched its) = length its <-> all_untouched its.
Proof.
  unfold all_untouched. induction its as [|i its IH]; simpl.
  - split; [constructor | reflexivity].
  - pose proof (count_untouched_le its) as Hle.
    unfold is_untouched at 1.
    destruct (ItemStatus_eqb_spec (item_status i) untouched) as [E|E]; simpl.
    + split.
      * intros H. constructor; [exact E|]. apply IH. lia.
      * intros H. inversion H; subst. f_equal. apply IH. assumption.
    + split; [lia|]. intros H. inversion H; subst. contradiction.
Qed.

Lemma newStatus_completed its :
  newStatus its = completed <-> all_touched its.
Proof.
  rewrite <- count_untouched_zero. unfold newStatus; cbv zeta.
  pose proof (count_untouched_le its) as Hle.
  destruct (Z.eqb_spec
              (Z.of_nat (length its)
               - Z.of_nat (length (filter is_untouched its)))
              (Z.of_nat (length its))) as [E|E].
  - split; [lia | reflexivity].
  - split.
    + destruct (0 <? _); discriminate.
    + lia.
Qed.

Lemma newStatus_pending its :
  newStatus its = pending <-> its <> [] /\ all_untouched its.
Proof.
  rewrite <- count_untouched_all. unfold newStatus; cbv zeta.
  pose proof (count_untouched_le its) as Hle.
  destruct (Z.eqb_spec
              (Z.of_nat (length its)
               - Z.of_nat (length (filter is_untouched its)))
              (Z.of_nat (length its))) as [E|E].
  - split; [discriminate|]. intros [Hne Hall].
    assert (length its <> 0)%nat by (destruct its; simpl; congruence). lia.
  - destruct (Z.ltb_spec 0
                (Z.of_nat (length its)
                 - Z.of_nat (length (filter is_untouched its)))) as [L|L].
    + split; [discriminate | lia].
    + split; [|reflexivity]. intros _. split; [|lia].
      intros ->. simpl in E. lia.
Qed.

Lemma newStatus_in_progress its :
  newStatus its = in_progress <-> ~ all_touched its /\ ~ all_untouched its.
Proof.
  rewrite <- count_untouched_all, <- count_untouched_zero.
  unfold newStatus; cbv zeta.
  pose proof (count_untouched_le its) as Hle.
  destruct (Z.eqb_spec
              (Z.of_nat (length its)
               - Z.of_nat (length (filter is_untouched its)))
              (Z.of_nat (length its))) as [E|E].
  - split; [discriminate | lia].
  - destruct (Z.ltb_spec 0
                (Z.of_nat (length its)
                 - Z.of_nat (length (filter is_untouched its)))) as [L|L].
    + split; [lia | reflexivity].
    + split; [discriminate | lia].
Qed.

End Rollup.

(** A section with an item and a rolled-up status obeys the rule of the
    specification. *)
Lemma status_ok_rule s :
  status_ok s -> sec_items s <> [] -> status_rule s.
Proof.
  intros [E | [E _]] Hne; [|contradiction].
  unfold status_rule. rewrite E.
  rewrite newStatus_completed, newStatus_pending, newStatus_in_progress.
  repeat split; tauto.
Qed.

(** ** The mutators as instances of [patch_items] *)

Lemma updateItemOption_patch sid iid o d :
  updateItemOption sid iid o (Some d)
  = Some (patch_items sid (on_item iid (fun i => with_selectedOption i o)) d).
Proof. reflexivity. Qed.

Lemma updateItemNote_patch sid iid n d :
  updateItemNote sid iid n (Some d)
  = Some (patch_items sid (on_item iid (fun i => with_notes i n)) d).
Proof. reflexivity. Qed.

Lemma toggleItemVisibility_patch sid iid h d :
  toggleItemVisibility sid iid h (Some d)
  = Some (patch_items sid (on_item iid (fun i => with_isHidden i h)) d).
Proof. reflexivity. Qed.

Lemma deletePhoto_patch sid iid k d :
  deletePhoto sid iid k (Some d)
  = Some (patch_items sid
            (on_item iid
               (fun i => with_photos i (remove_at 0 k (item_photos i)))) d).
Proof.
  unfold deletePhoto, patch_items. do 2 f_equal.
  apply map_ext. intros sec. destruct (negb _); [reflexivity|].
  f_equal. apply map_ext. intros i. unfold on_item.
  destruct (item_id i =? iid)%string; reflexivity.
Qed.

Lemma showAllHidden_patch a d :
  showAllHidden (Some a) (Some d)
  = Some (patch_items a (fun i => with_isHidden i false) d).
Proof. reflexivity. Qed.

Lemma showAllHidden_none d : showAllHidden None (Some d) = Some d.
Proof.
  unfold showAllHidden. simpl. rewrite map_id. rewrite with_sections_same.
  reflexivity.
Qed.

Lemma handleCapturePhoto_item sid iid img d :
  truthy iid = true ->
  handleCapturePhoto (Some (mkTarget sid (Some iid))) img (Some d)
  = Some (patch_items sid
            (on_item iid (fun i => with_photos i (item_photos i ++ [img]))) d).
Proof.
  intros T. unfold handleCapturePhoto, patch_items. simpl. rewrite T.
  reflexivity.
Qed.

Lemma processImageAnalysis_patch sid iid desc d :
  processImageAnalysis sid iid desc (Some d)
  = if analysis_target sid iid d
    then Some (patch_items sid
                 (on_item iid
                    (fun i => with_notes i (ai_note (item_notes i) desc))) d)
    else Some d.
Proof.
  unfold processImageAnalysis, analysis_target.
  destruct (find _ (sections d)) as [s|]; [|reflexivity].
  destruct (find _ (sec_items s)); reflexivity.
Qed.

(** ** Frame lemmas for [patch_items] *)

Lemma patch_items_fixed sid f d :
  (forall s i, In s (sections d) -> sec_id s = sid -> In i (sec_items s) ->
               f i = i) ->
  patch_items sid f d = d.
Proof.
  intros H. unfold patch_items.
  rewrite map_fixed; [apply with_sections_same|].
  intros s Hs. destruct (String.eqb_spec (sec_id s) sid) as [E|E]; simpl;
    [|reflexivity].
  rewrite map_fixed; [apply with_items_same|].
  intros i Hi. apply (H s i Hs E Hi).
Qed.

Lemma section_at_patch sid f d k :
  section_at (patch_items sid f d) k
  = option_map (fun sec =>
                  if negb (sec_id sec =? sid)%string then sec
                  else with_items sec (map f (sec_items sec)))
               (section_at d k).
Proof. unfold section_at, patch_items. simpl. apply nth_error_map. Qed.

Lemma item_at_patch sid f d k j :
  item_at (patch_items sid f d) k j
  = match section_at d k with
    | Some s =>
        if (sec_id s =? sid)%string
        then option_map f (nth_error (sec_items s) j)
        else nth_error (sec_items s) j
    | None => None
    end.
Proof.
  unfold item_at. rewrite section_at_patch.
  destruct (section_at d k) as [s|]; simpl; [|reflexivity].
  destruct (sec_id s =? sid)%string; simpl; [|reflexivity].
  apply nth_error_map.
Qed.

Lemma on_item_hit iid f i : item_id i = iid -> on_item iid f i = f i.
Proof. intros <-. unfold on_item. rewrite String.eqb_refl. reflexivity. Qed.

Lemma on_item_miss iid f i : item_id i <> iid -> on_item iid f i = i.
Proof.
  intros H. unfold on_item.
  destruct (String.eqb_spec (item_id i) iid); [contradiction | reflexivity].
Qed.

Lemma patch_items_missing sid iid f d :
  ~ has_item d sid iid -> patch_items sid (on_item iid f) d = d.
Proof.
  intros H. apply patch_items_fixed. intros s i Hs E Hi.
  apply on_item_miss. intros Ei. apply H. exists s, i. tauto.
Qed.

(** ** Mutators that keep the statuses *)

Lemma newStatus_statuses a b :
  map item_status a = map item_status b -> newStatus a = newStatus b.
Proof.
  intros H. unfold newStatus; cbv zeta.
  assert (L : length a = length b).
  { rewrite <- (length_map item_status a), H. apply length_map. }
  assert (F : length (filter is_untouched a)
              = length (filter is_untouched b)).
  { clear L. revert b H. induction a as [|x a IH]; intros [|y b] H;
      simpl in *; try discriminate; [reflexivity|].
    injection H as Hxy Hab.
    assert (Ex : is_untouched x = is_untouched y)
      by (unfold is_untouched; rewrite Hxy; reflexivity).
    rewrite Ex. destruct (is_untouched y); simpl; rewrite (IH b Hab);
      reflexivity. }
  rewrite L, F. reflexivity.
Qed.

Lemma keeps_statuses_ok g sec :
  keeps_statuses g -> status_ok sec -> status_ok (g sec).
Proof.
  intros K H. destruct (K sec) as [Hs Hi]. unfold status_ok in *.
  rewrite Hs, (newStatus_statuses _ _ Hi).
  destruct H as [H | [H1 H2]]; [left; exact H | right].
  split; [|exact H2]. rewrite H1 in Hi. simpl in Hi.
  destruct (sec_items (g sec)); [reflexivity | discriminate].
Qed.

Lemma keeps_statuses_items (c : InspectionSection -> bool) f :
  (forall i, item_status (f i) = item_status i) ->
  keeps_statuses
    (fun sec => if c sec then sec else with_items sec (map f (sec_items sec))).
Proof.
  intros Hf sec. destruct (c sec); [split; reflexivity|]. simpl.
  split; [reflexivity|]. rewrite map_map. apply map_ext. exact Hf.
Qed.

Lemma on_item_status iid f :
  (forall i, item_status (f i) = item_status i) ->
  forall i, item_status (on_item iid f i) = item_status i.
Proof. intros Hf i. unfold on_item. destruct (_ =? _)%string; auto. Qed.

Lemma patch_items_keeps sid f :
  (forall i, item_status (f i) = item_status i) ->
  keeps_statuses
    (fun sec => if negb (sec_id sec =? sid)%string then sec
                else with_items sec (map f (sec_items sec))).
Proof. intros Hf. apply (keeps_statuses_items _ f Hf). Qed.

Lemma keeps_statuses_id : keeps_statuses (fun sec => sec).
Proof. intros sec. split; reflexivity. Qed.

(** ** Sessions keep the rollup in step with the items *)

Lemma Forall_mapi_from {A B : Type} (P : B -> Prop) (f : A -> nat -> B) l :
  (forall x i, P (f x i)) -> forall i, Forall P (mapi_from i f l).
Proof.
  intros H. induction l as [|x l IH]; intros i; simpl; constructor; auto.
Qed.

Lemma fresh_status_ok s : fresh_section s -> status_ok s.
Proof.
  intros [Hs Hi]. unfold status_ok.
  destruct (sec_items s) as [|i its] eqn:E; [right; auto | left].
  rewrite Hs. symmetry. apply newStatus_pending. split; [discriminate|].
  exact Hi.
Qed.

Lemma generateInspectionPlan_fresh clock rawData :
  Forall fresh_section (generateInspectionPlan_sections clock rawData).
Proof.
  apply Forall_mapi_from. intros section index. split; [reflexivity|].
  apply Forall_mapi_from. reflexivity.
Qed.

Lemma fallback_plan_fresh : Forall fresh_section fallback_plan.
Proof.
  unfold fallback_plan.
  repeat (constructor; [split; [reflexivity | repeat constructor]|]).
  constructor.
Qed.

Lemma generateSingleSection_fresh clock data :
  fresh_section (generateSingleSection_section clock data).
Proof. split; [reflexivity|]. apply Forall_mapi_from. reflexivity. Qed.

Lemma initial_status_ok d : initial d -> Forall status_ok (sections d).
Proof.
  intros [(clock & raw & E) | E]; rewrite E;
    eapply Forall_impl; try (intros s; apply fresh_status_ok).
  - apply generateInspectionPlan_fresh.
  - apply fallback_plan_fresh.
Qed.

Lemma Forall_map_keeps g ss :
  keeps_statuses g -> Forall status_ok ss -> Forall status_ok (map g ss).
Proof.
  intros K H. apply Forall_map. eapply Forall_impl; [|exact H].
  intros s. apply keeps_statuses_ok. exact K.
Qed.

Lemma updateItemStatus_status_ok sid iid st d :
  exists d', updateItemStatus sid iid st (Some d) = Some d' /\
             (Forall status_ok (sections d) -> Forall status_ok (sections d')).
Proof.
  eexists. split; [reflexivity|]. intros H. simpl.
  apply Forall_map. eapply Forall_impl; [|exact H].
  intros s Hs. destruct (negb _); [exact Hs|]. left. reflexivity.
Qed.

(** A mutation that maps the items of one section by a function keeping the
    statuses keeps the rollups in step. *)
Ltac keeps_by_patch :=
  eexists; split; [reflexivity|];
  apply Forall_map_keeps; apply patch_items_keeps;
  try apply on_item_status; reflexivity.

Ltac unchanged := eexists; split; [reflexivity | tauto].

Lemma step_status_ok a d :
  grows_section a = false ->
  exists d', step a (Some d) = Some d' /\
             (Forall status_ok (sections d) -> Forall status_ok (sections d')).
Proof.
  intros G. destruct a; simpl in G; try discriminate; unfold step.
  - apply updateItemStatus_status_ok.
  - keeps_by_patch.
  - keeps_by_patch.
  - rewrite processImageAnalysis_patch.
    destruct (analysis_target _ _ _); [keeps_by_patch | unchanged].
  - keeps_by_patch.
  - destruct activeSectionId as [a|]; [keeps_by_patch|].
    rewrite showAllHidden_none. unchanged.
  - destruct cameraTarget as [t|]; [|unchanged].
    eexists. split; [reflexivity|]. apply Forall_map_keeps.
    intros sec. destruct (negb _); [split; reflexivity|].
    destruct (truthy_opt _); [|split; reflexivity].
    simpl. split; [reflexivity|]. rewrite map_map. apply map_ext.
    intros i. destruct (target_itemId t) as [iid|];
      [destruct (item_id i =? iid)%string|]; reflexivity.
  - rewrite deletePhoto_patch. keeps_by_patch.
  - destruct answer as [raw|]; simpl; [|unchanged].
    eexists. split; [reflexivity|]. intros H. simpl.
    apply Forall_app. split; [exact H|]. constructor; [|constructor].
    apply fresh_status_ok, generateSingleSection_fresh.
  - unchanged.
Qed.

Lemma run_status_ok acts : forall d,
  forallb (fun a => negb (grows_section a)) acts = true ->
  Forall status_ok (sections d) ->
  exists d', run acts (Some d) = Some d' /\ Forall status_ok (sections d').
Proof.
  induction acts as [|a acts IH]; intros d Hacts Hd; simpl in *.
  - exists d. split; [reflexivity | exact Hd].
  - apply andb_true_iff in Hacts as [Ha Hacts].
    apply negb_true_iff in Ha.
    destruct (step_status_ok a d Ha) as (d1 & E1 & H1).
    unfold run in *. rewrite E1. apply IH; auto.
Qed.

(** Every mutation of a document gives a document. *)
Lemma step_total a d : exists d', step a (Some d) = Some d'.
Proof.
  destruct a; unfold step; try (eexists; reflexivity).
  - rewrite processImageAnalysis_patch.
    destruct (analysis_target _ _ _); eexists; reflexivity.
  - destruct cameraTarget; eexists; reflexivity.
  - destruct answer; eexists; reflexivity.
  - unfold handleAddItem.
    destruct (negb _); [eexists; reflexivity|].
    destruct (find _ _); [|eexists; reflexivity].
    destruct (generateSectionItems_items _ _); eexists; reflexivity.
Qed.

(** ** Sections without items *)

Lemma initial_fresh d : initial d -> Forall fresh_section (sections d).
Proof.
  intros [(clock & raw & E) | E]; rewrite E.
  - apply generateInspectionPlan_fresh.
  - apply fallback_plan_fresh.
Qed.

Lemma run_snoc acts a st : run (acts ++ [a]) st = step a (run acts st).
Proof. unfold run. rewrite fold_left_app. reflexivity. Qed.

Ltac sections_mapped :=
  eexists; eexists; exists []; split; [reflexivity|];
  split; [simpl; rewrite app_nil_r; reflexivity|];
  split; [constructor|]; intros s; simpl;
  destruct (sec_id s =? _)%string; simpl;
  repeat split; try reflexivity; rewrite length_map; reflexivity.

Ltac sections_kept d :=
  exists d, (fun s => s), []; split; [reflexivity|];
  split; [rewrite map_id, app_nil_r; reflexivity|];
  split; [constructor|]; intros s; repeat split.

(** What a mutation that appends no item does to the list of sections: it
    maps the sections there are, keeping the identifier and the number of
    items of each, and it may append sections as the generators build them.
    The status of a section is rolled up again when a status change names
    the section, and kept otherwise. *)
Lemma step_sections a d1 :
  grows_section a = false ->
  exists d g extra,
    step a (Some d1) = Some d /\
    sections d = (map g (sections d1) ++ extra)%list /\
    Forall fresh_section extra /\
    forall s,
      sec_id (g s) = sec_id s /\
      length (sec_items (g s)) = length (sec_items s) /\
      sec_status (g s)
      = if names_section a (sec_id s) then newStatus (sec_items (g s))
        else sec_status s.
Proof.
  intros G. destruct a; simpl in G; try discriminate; unfold step.
  - eexists. eexists. exists []. split; [reflexivity|].
    split; [simpl; rewrite app_nil_r; reflexivity|].
    split; [constructor|]. intros s. simpl.
    rewrite (String.eqb_sym sectionId).
    destruct (sec_id s =? sectionId)%string; simpl;
      repeat split; try reflexivity. rewrite length_map. reflexivity.
  - sections_mapped.
  - sections_mapped.
  - rewrite processImageAnalysis_patch.
    destruct (analysis_target _ _ _); [sections_mapped | sections_kept d1].
  - sections_mapped.
  - destruct activeSectionId as [a|]; [sections_mapped|].
    rewrite showAllHidden_none. sections_kept d1.
  - destruct cameraTarget as [t|]; [|sections_kept d1].
    eexists. eexists. exists []. split; [reflexivity|].
    split; [simpl; rewrite app_nil_r; reflexivity|].
    split; [constructor|]. intros s. simpl.
    destruct (sec_id s =? _)%string; simpl; [|repeat split].
    destruct (truthy_opt _); simpl; repeat split.
    rewrite length_map. reflexivity.
  - rewrite deletePhoto_patch. sections_mapped.
  - destruct answer as [raw|]; simpl; [|sections_kept d1].
    eexists. exists (fun s => s). eexists. split; [reflexivity|].
    split; [simpl; rewrite map_id; reflexivity|].
    split; [|intros s; repeat split].
    constructor; [|constructor]. apply generateSingleSection_fresh.
  - eexists. exists (fun s => s), []. split; [reflexivity|].
    split; [simpl; rewrite map_id, app_nil_r; reflexivity|].
    split; [constructor|]. intros s. repeat split.
Qed.

(** The status changes that have named a section, one event later. *)
Lemma named_at_snoc d0 acts a d1 k :
  run acts (Some d0) = Some d1 ->
  named_at d0 (acts ++ [a]) k <->
  named_at d0 acts k \/
  exists s1, section_at d1 k = Some s1 /\ names_section a (sec_id s1) = true.
Proof.
  intros R. split.
  - intros (pre & b & post & d & s & E & Rp & Hs & N).
    destruct post as [|z post _] using rev_ind.
    + apply app_inj_tail in E as [E1 E2]. subst pre b.
      rewrite R in Rp. injection Rp as <-. right. exists s. split; assumption.
    + rewrite app_comm_cons, app_assoc in E.
      apply app_inj_tail in E as [E1 E2]. left.
      exists pre, b, post, d, s. repeat split; assumption.
  - intros [(pre & b & post & d & s & E & Rp & Hs & N) | (s1 & Hs & N)].
    + exists pre, b, (post ++ [a])%list, d, s. subst acts.
      rewrite <- app_assoc. repeat split; assumption.
    + exists acts, a, [], d1, s1. repeat split; assumption.
Qed.

Lemma named_at_nil d0 k : ~ named_at d0 [] k.
Proof.
  intros (pre & b & post & d & s & E & _). destruct pre; discriminate.
Qed.

(** In a session that appends no item, a section without item is
    [completed] when a status change of the session has named it and
    [pending] otherwise; and a status change can only have named a section
    the document still holds, under the same identifier. *)
Lemma run_empty_sections d0 acts :
  Forall fresh_section (sections d0) ->
  forallb (fun a => negb (grows_section a)) acts = true ->
  exists d,
    run acts (Some d0) = Some d /\
    (forall k, named_at d0 acts k ->
       exists s a, section_at d k = Some s /\ In a acts /\
                   names_section a (sec_id s) = true) /\
    (forall k s, section_at d k = Some s -> sec_items s = [] ->
       (sec_status s = completed <-> named_at d0 acts k) /\
       (sec_status s = pending \/ sec_status s = completed)).
Proof.
  intros F0. induction acts as [|a acts IH] using rev_ind; intros Hacts.
  - exists d0. split; [reflexivity|]. split.
    + intros k N. destruct (named_at_nil d0 k N).
    + intros k s Hs He.
      rewrite Forall_forall in F0.
      destruct (F0 s (nth_error_In _ _ Hs)) as [P _]. split; [|left; exact P].
      split; [rewrite P; discriminate|].
      intros N. destruct (named_at_nil d0 k N).
  - rewrite forallb_app in Hacts. apply andb_true_iff in Hacts as [Hacts Ha].
    simpl in Ha. rewrite andb_true_r in Ha. apply negb_true_iff in Ha.
    destruct (IH Hacts) as (d1 & R1 & N1 & S1).
    destruct (step_sections a d1 Ha) as (d & g & extra & E & Sd & Fx & Hg).
    exists d. split; [rewrite run_snoc, R1; exact E|].
    assert (At : forall k s1, section_at d1 k = Some s1 ->
                              section_at d k = Some (g s1)).
    { intros k s1 H1. unfold section_at in *. rewrite Sd.
      rewrite nth_error_app1.
      - rewrite nth_error_map, H1. reflexivity.
      - rewrite length_map. apply nth_error_Some. rewrite H1. discriminate. }
    split.
    + intros k N. apply (named_at_snoc d0 acts a d1 k R1) in N.
      destruct N as [N | (s1 & H1 & N)].
      * destruct (N1 k N) as (s1 & b & H1 & Hb & Nb).
        exists (g s1), b. split; [apply At; exact H1|].
        split; [apply in_or_app; left; exact Hb|].
        destruct (Hg s1) as (I & _). rewrite I. exact Nb.
      * exists (g s1), a. split; [apply At; exact H1|].
        split; [apply in_or_app; right; left; reflexivity|].
        destruct (Hg s1) as (I & _). rewrite I. exact N.
    + intros k s Hs He.
      rewrite (named_at_snoc d0 acts a d1 k R1).
      destruct (section_at d1 k) as [s1|] eqn:H1.
      * rewrite (At k s1 H1) in Hs. injection Hs as <-.
        destruct (Hg s1) as (I & L & St).
        assert (He1 : sec_items s1 = []).
        { apply length_zero_iff_nil. rewrite <- L, He. reflexivity. }
        destruct (S1 k s1 H1 He1) as (C1 & P1).
        destruct (names_section a (sec_id s1)) eqn:N.
        -- rewrite St, He. split; [|right; reflexivity].
           split; [|reflexivity]. intros _. right. exists s1.
           split; [reflexivity | exact N].
        -- rewrite St. split; [|exact P1]. rewrite C1. split; [tauto|].
           intros [Hn | (s2 & H2 & N2)]; [exact Hn|].
           injection H2 as <-. rewrite N in N2. discriminate.
      * assert (P : sec_status s = pending).
        { unfold section_at in *. rewrite Sd in Hs.
          apply nth_error_None in H1.
          rewrite nth_error_app2 in Hs by (rewrite length_map; exact H1).
          rewrite Forall_forall in Fx.
          destruct (Fx s (nth_error_In _ _ Hs)) as [P _]. exact P. }
        split; [|left; exact P]. rewrite P.
        split; [discriminate|].
        intros [Hn | (s2 & H2 & _)]; [|discriminate].
        destruct (N1 k Hn) as (s1 & b & H2 & _).
        rewrite H1 in H2. discriminate.
Qed.

(** C1 (as amended).  In a session started from a generated plan and made of
    status changes, option choices, notes (typed or written by the image
    analysis), hiding and showing, photos added and removed, new sections and
    saved keys, with no item appended to an existing section, the session
    yields a document, and in it every section that holds an item has status
    [completed] iff every item (hidden or not) is rated, [pending] iff every
    item is [untouched], and [in_progress] otherwise.  A section without
    item is [completed] exactly when a status change of the session has
    named it, that is when the session holds a status change whose section
    identifier was that of the section at the time, and [pending] exactly
    when none has; such a status change is an event of the session that
    bears the identifier of the section. *)
Theorem status_rule_sessions d0 acts :
  initial d0 ->
  forallb (fun a => negb (grows_section a)) acts = true ->
  exists d,
    run acts (Some d0) = Some d /\
    (forall s, In s (sections d) ->
       (sec_items s <> [] -> status_rule s) /\
       (sec_items s = [] ->
          sec_status s = pending \/ sec_status s = completed)) /\
    (forall k s, section_at d k = Some s -> sec_items s = [] ->
       (sec_status s = completed <-> named_at d0 acts k) /\
       (sec_status s = pending <-> ~ named_at d0 acts k) /\
       (sec_status s = completed ->
        exists a, In a acts /\ names_section a (sec_id s) = true)).
Proof.
  intros Hinit Hacts.
  destruct (run_status_ok acts d0 Hacts (initial_status_ok d0 Hinit))
    as (d & E & Hd).
  destruct (run_empty_sections d0 acts (initial_fresh d0 Hinit) Hacts)
    as (d' & E' & N & S).
  rewrite E in E'. injection E' as <-.
  exists d. split; [exact E|]. split.
  - intros s Hs.
    rewrite Forall_forall in Hd. specialize (Hd s Hs). split.
    + intros Hne. apply status_ok_rule; assumption.
    + intros He. destruct Hd as [Hd | [_ Hd]]; [right | left; exact Hd].
      rewrite Hd, He. reflexivity.
  - intros k s Hs He. destruct (S k s Hs He) as (C & P).
    split; [exact C|]. split.
    + split.
      * intros Hp Hn. apply C in Hn. rewrite Hp in Hn. discriminate.
      * intros Hn. destruct P as [P | P]; [exact P|].
        destruct (Hn (proj1 C P)).
    + intros Hc. destruct (N k (proj1 C Hc)) as (s' & a & Hs' & Ha & Na).
      rewrite Hs in Hs'. injection Hs' as <-. exists a. split; assumption.
Qed.

Lemma status_rule_sessions_witness :
  exists d,
    run mixed_session (Some mixed_doc) = Some d /\
    (forall s, In s (sections d) ->
       (sec_items s <> [] -> status_rule s) /\
       (sec_items s = [] ->
          sec_status s = pending \/ sec_status s = completed)) /\
    (forall k s, section_at d k = Some s -> sec_items s = [] ->
       (sec_status s = completed <-> named_at mixed_doc mixed_session k) /\
       (sec_status s = pending <-> ~ named_at mixed_doc mixed_session k) /\
       (sec_status s = completed ->
        exists a, In a mixed_session /\ names_section a (sec_id s) = true)).
Proof.
  apply (status_rule_sessions mixed_doc mixed_session).
  - left. exists clock0, mixed_plan. reflexivity.
  - reflexivity.
Defined.

(** On the sample session: the section that holds an item is [completed]
    once its item is rated, the section without item that a status change
    has named is [completed], and the two that none has named, one of the
    plan and one appended by the session, are [pending]. *)
Example status_rule_samples :
  option_map (fun d => map (fun s => (sec_id s, length (sec_items s),
                                      sec_status s))
                           (sections d))
             (run mixed_session (Some mixed_doc))
  = Some [ ("section-0-0", 1%nat, completed);
           ("section-1-0", 0%nat, completed);
           ("section-2-0", 0%nat, pending);
           ("section-custom-0", 0%nat, pending) ] /\
  named_at mixed_doc mixed_session 1.
Proof.
  split; [vm_compute; reflexivity|].
  exists [ SetItemStatus "section-0-0" "item-0-0" pass;
           SetItemVisibility "section-0-0" "item-0-0" true ],
         (SetItemStatus "section-1-0" "item-1-0" info),
         [ AppendSection clock0
             (Some (mkRawSection "Shed" "Outbuilding" "box" [])) ].
  eexists. eexists.
  split; [reflexivity|]. split; [vm_compute; reflexivity|].
  split; reflexivity.
Qed.

(** C1 (as stated) fails in two ways.  Appending an item to a section whose
    items are all rated leaves the section [completed] although it now holds
    an [untouched] item; and for a section without item the rule asks for
    [completed] and for [pending] at once. *)
Lemma status_rule_violated :
  (reachable grown_doc /\
   exists s, In s (sections grown_doc) /\ sec_items s <> [] /\
             sec_status s = completed /\ ~ all_touched (sec_items s) /\
             ~ status_rule s)
  /\
  (reachable empty_doc /\
   exists s, In s (sections empty_doc) /\ ~ status_rule s).
Proof.
  split.
  - split.
    + exists roof_doc, grow_session. split; [|reflexivity].
      left. exists clock0, roof_plan. reflexivity.
    + eexists. split; [left; reflexivity|].
      split; [discriminate|]. split; [reflexivity|].
      assert (N : ~ all_touched
                    [with_status roof_item pass;
                     generated_item "item-added-0-0"
                       (mkRawItem "Flashing" None)]).
      { intros H. inversion H as [|? ? _ H2]; subst.
        inversion H2 as [|? ? H3 _]; subst. apply H3. reflexivity. }
      split; [exact N|].
      intros (R & _ & _). apply N. apply R. reflexivity.
  - split.
    + exists empty_doc, []. split; [|reflexivity].
      left. exists clock0, empty_plan. reflexivity.
    + eexists. split; [left; reflexivity|].
      intros (R & _ & _). simpl in R.
      assert (C : pending = completed) by (apply R; constructor).
      discriminate.
Qed.

(** ** Notes *)

Lemma item_at_section d k j s i :
  section_at d k = Some s -> nth_error (sec_items s) j = Some i ->
  item_at d k j = Some i.
Proof. intros Hs Hi. unfold item_at. rewrite Hs. exact Hi. Qed.

Lemma item_at_patch_targeted sid iid f d k j s i :
  section_at d k = Some s -> nth_error (sec_items s) j = Some i ->
  item_at (patch_items sid (on_item iid f) d) k j
  = Some (if targeted sid iid s i then f i else i).
Proof.
  intros Hs Hi. rewrite item_at_patch, Hs, Hi. unfold targeted, on_item.
  destruct (sec_id s =? sid)%string; simpl; [|reflexivity].
  destruct (item_id i =? iid)%string; reflexivity.
Qed.

Lemma targeted_true sid iid s i :
  sec_id s = sid -> item_id i = iid -> targeted sid iid s i = true.
Proof.
  intros <- <-. unfold targeted. rewrite !String.eqb_refl. reflexivity.
Qed.

(** C5.  The two write modes of the notes.  A note typed by the user
    replaces the notes of the item named by the text, whatever they were.
    The note of the image analysis, written when the analysis finds its item,
    is the text itself when the notes were empty and otherwise the former
    notes, a line break, [AI Note: ] and the text; when the analysis does
    not find its item the document stays as it is.  Nothing else in the item
    changes, and every other item keeps its notes too. *)
Theorem notes_write_modes sid iid text d k j s i :
  section_at d k = Some s ->
  nth_error (sec_items s) j = Some i ->
  (exists d' i',
      updateItemNote sid iid text (Some d) = Some d' /\
      item_at d' k j = Some i' /\
      same_but_notes i i' /\
      item_notes i' = if targeted sid iid s i then text else item_notes i)
  /\
  (analysis_target sid iid d = true ->
   exists d' i',
      processImageAnalysis sid iid text (Some d) = Some d' /\
      item_at d' k j = Some i' /\
      same_but_notes i i' /\
      item_notes i'
      = if targeted sid iid s i
        then match item_notes i with
             | EmptyString => text
             | String _ _ =>
                 item_notes i ++ String newline "AI Note: " ++ text
             end
        else item_notes i)
  /\
  (analysis_target sid iid d = false ->
   processImageAnalysis sid iid text (Some d) = Some d).
Proof.
  intros Hs Hi. split; [|split].
  - eexists. eexists. split; [apply updateItemNote_patch|]. split.
    + apply (item_at_patch_targeted sid iid (fun i => with_notes i text)
               d k j s i Hs Hi).
    + destruct (targeted sid iid s i); repeat split.
  - intros T. rewrite processImageAnalysis_patch, T.
    eexists. eexists. split; [reflexivity|]. split.
    + apply (item_at_patch_targeted sid iid
               (fun i => with_notes i (ai_note (item_notes i) text))
               d k j s i Hs Hi).
    + destruct (targeted sid iid s i); [|repeat split].
      split; [repeat split|]. simpl. unfold ai_note, truthy.
      destruct (item_notes i); reflexivity.
  - intros T. rewrite processImageAnalysis_patch, T. reflexivity.
Qed.

Lemma notes_write_modes_witness :
  ((exists d' i',
       updateItemNote "section-0-0" "item-0-0" "Moss on north slope."
         (Some noted_doc) = Some d' /\
       item_at d' 0 0 = Some i' /\
       same_but_notes noted_item i' /\
       item_notes i' = "Moss on north slope.")
   /\
   (analysis_target "section-0-0" "item-0-0" noted_doc = true ->
    exists d' i',
       processImageAnalysis "section-0-0" "item-0-0" "Moss on north slope."
         (Some noted_doc) = Some d' /\
       item_at d' 0 0 = Some i' /\
       same_but_notes noted_item i' /\
       item_notes i'
       = "Two layers" ++ String newline "AI Note: Moss on north slope.")
   /\
   (analysis_target "section-0-0" "item-0-0" noted_doc = false ->
    processImageAnalysis "section-0-0" "item-0-0" "Moss on north slope."
      (Some noted_doc) = Some noted_doc))
  /\
  ((exists d' i',
       updateItemNote "section-0-0" "item-0-1" "Seamless aluminium."
         (Some noted_doc) = Some d' /\
       item_at d' 0 0 = Some i' /\
       same_but_notes noted_item i' /\
       item_notes i' = "Two layers")
   /\
   (analysis_target "section-0-0" "item-0-1" noted_doc = true ->
    exists d' i',
       processImageAnalysis "section-0-0" "item-0-1" "Seamless aluminium."
         (Some noted_doc) = Some d' /\
       item_at d' 0 0 = Some i' /\
       same_but_notes noted_item i' /\
       item_notes i' = "Two layers")
   /\
   (analysis_target "section-0-0" "item-0-1" noted_doc = false ->
    processImageAnalysis "section-0-0" "item-0-1" "Seamless aluminium."
      (Some noted_doc) = Some noted_doc))
  /\
  ((exists d' i',
       updateItemNote "section-0-0" "item-0-1" "Seamless aluminium."
         (Some noted_doc) = Some d' /\
       item_at d' 0 1 = Some i' /\
       same_but_notes gutter_item i' /\
       item_notes i' = "Seamless aluminium.")
   /\
   (analysis_target "section-0-0" "item-0-1" noted_doc = true ->
    exists d' i',
       processImageAnalysis "section-0-0" "item-0-1" "Seamless aluminium."
         (Some noted_doc) = Some d' /\
       item_at d' 0 1 = Some i' /\
       same_but_notes gutter_item i' /\
       item_notes i' = "Seamless aluminium.")
   /\
   (analysis_target "section-0-0" "item-0-1" noted_doc = false ->
    processImageAnalysis "section-0-0" "item-0-1" "Seamless aluminium."
      (Some noted_doc) = Some noted_doc))
  /\
  ((exists d' i',
       updateItemNote "section-0-0" "item-1-0" "Vinyl"
         (Some noted_doc) = Some d' /\
       item_at d' 1 0 = Some i' /\
       same_but_notes siding_item i' /\
       item_notes i' = EmptyString)
   /\
   (analysis_target "section-0-0" "item-1-0" noted_doc = true ->
    exists d' i',
       processImageAnalysis "section-0-0" "item-1-0" "Vinyl"
         (Some noted_doc) = Some d' /\
       item_at d' 1 0 = Some i' /\
       same_but_notes siding_item i' /\
       item_notes i' = EmptyString)
   /\
   (analysis_target "section-0-0" "item-1-0" noted_doc = false ->
    processImageAnalysis "section-0-0" "item-1-0" "Vinyl"
      (Some noted_doc) = Some noted_doc)).
Proof.
  split; [|split; [|split]].
  - exact (notes_write_modes "section-0-0" "item-0-0" "Moss on north slope."
             noted_doc 0 0 noted_roof noted_item eq_refl eq_refl).
  - exact (notes_write_modes "section-0-0" "item-0-1" "Seamless aluminium."
             noted_doc 0 0 noted_roof noted_item eq_refl eq_refl).
  - exact (notes_write_modes "section-0-0" "item-0-1" "Seamless aluminium."
             noted_doc 0 1 noted_roof gutter_item eq_refl eq_refl).
  - exact (notes_write_modes "section-0-0" "item-1-0" "Vinyl"
             noted_doc 1 0 exterior_section siding_item eq_refl eq_refl).
Defined.

(** On the sample document: the typed note replaces the former one, the
    note of the analysis is appended to it after a line break, and an
    analysis naming an item its section does not hold changes nothing. *)
Example notes_write_modes_samples :
  option_map (fun i => item_notes i)
    (match updateItemNote "section-0-0" "item-0-0" "Three layers"
             (Some noted_doc) with
     | Some d' => item_at d' 0 0
     | None => None
     end) = Some "Three layers" /\
  option_map (fun i => item_notes i)
    (match processImageAnalysis "section-0-0" "item-0-0"
             "Moss on north slope." (Some noted_doc) with
     | Some d' => item_at d' 0 0
     | None => None
     end)
  = Some ("Two layers" ++ String newline "AI Note: Moss on north slope.") /\
  analysis_target "section-0-0" "item-1-0" noted_doc = false /\
  processImageAnalysis "section-0-0" "item-1-0" "Vinyl" (Some noted_doc)
  = Some noted_doc.
Proof.
  refine (conj _ (conj _ (conj _ _))); vm_compute; reflexivity.
Qed.

(** ** Missing identifiers *)

Lemma updateItemStatus_missing sid iid st d :
  ~ has_item d sid iid ->
  updateItemStatus sid iid st (Some d) = Some (reroll sid d).
Proof.
  intros H. unfold updateItemStatus, reroll. do 2 f_equal.
  apply map_ext_in. intros s Hs.
  destruct (String.eqb_spec (sec_id s) sid) as [E|E]; simpl; [|reflexivity].
  rewrite map_fixed; [reflexivity|].
  intros i Hi. destruct (String.eqb_spec (item_id i) iid) as [Ei|Ei];
    [|reflexivity].
  exfalso. apply H. exists s, i. tauto.
Qed.

Lemma reroll_fixed sid d :
  (forall s, In s (sections d) -> sec_id s = sid ->
             sec_status s = newStatus (sec_items s)) ->
  reroll sid d = d.
Proof.
  intros H. unfold reroll. rewrite map_fixed; [apply with_sections_same|].
  intros s Hs. destruct (String.eqb_spec (sec_id s) sid) as [E|E];
    [|reflexivity].
  rewrite <- (H s Hs E). destruct s; reflexivity.
Qed.

(** C6 (as amended).  When no item [itemId] exists in a section [sectionId]
    (the section itself may be missing), choosing an option, writing notes,
    hiding or showing, and removing a photo return the document unchanged.
    A status change then leaves every item unchanged and rolls up again the
    status of the sections bearing [sectionId]; it returns the document
    unchanged when no section bears [sectionId], and more generally when the
    stored status of each such section already is the rollup of its items.
    None of the mutators fails. *)
Theorem missing_ids_noop sid iid d :
  ~ has_item d sid iid ->
  (forall o, updateItemOption sid iid o (Some d) = Some d) /\
  (forall n, updateItemNote sid iid n (Some d) = Some d) /\
  (forall h, toggleItemVisibility sid iid h (Some d) = Some d) /\
  (forall k, deletePhoto sid iid k (Some d) = Some d) /\
  (forall st, updateItemStatus sid iid st (Some d) = Some (reroll sid d)) /\
  (forall st, ~ has_section d sid ->
              updateItemStatus sid iid st (Some d) = Some d) /\
  (forall st,
      (forall s, In s (sections d) -> sec_id s = sid ->
                 sec_status s = newStatus (sec_items s)) ->
      updateItemStatus sid iid st (Some d) = Some d).
Proof.
  intros H. repeat split.
  - intros o. rewrite updateItemOption_patch, patch_items_missing; auto.
  - intros n. rewrite updateItemNote_patch, patch_items_missing; auto.
  - intros h. rewrite toggleItemVisibility_patch, patch_items_missing; auto.
  - intros k. rewrite deletePhoto_patch, patch_items_missing; auto.
  - intros st. apply updateItemStatus_missing. exact H.
  - intros st Hsec. rewrite updateItemStatus_missing by exact H.
    rewrite reroll_fixed; [reflexivity|].
    intros s Hs E. exfalso. apply Hsec. exists s. tauto.
  - intros st Hst. rewrite updateItemStatus_missing by exact H.
    rewrite reroll_fixed; auto.
Qed.

Lemma missing_ids_noop_witness :
  (forall o, updateItemOption "section-0-0" "item-0-7" o (Some roof_doc)
             = Some roof_doc) /\
  (forall n, updateItemNote "section-0-0" "item-0-7" n (Some roof_doc)
             = Some roof_doc) /\
  (forall h, toggleItemVisibility "section-0-0" "item-0-7" h (Some roof_doc)
             = Some roof_doc) /\
  (forall k, deletePhoto "section-0-0" "item-0-7" k (Some roof_doc)
             = Some roof_doc) /\
  (forall st, updateItemStatus "section-0-0" "item-0-7" st (Some roof_doc)
              = Some (reroll "section-0-0" roof_doc)) /\
  (forall st, ~ has_section roof_doc "section-0-0" ->
              updateItemStatus "section-0-0" "item-0-7" st (Some roof_doc)
              = Some roof_doc) /\
  (forall st,
      (forall s, In s (sections roof_doc) -> sec_id s = "section-0-0" ->
                 sec_status s = newStatus (sec_items s)) ->
      updateItemStatus "section-0-0" "item-0-7" st (Some roof_doc)
      = Some roof_doc).
Proof.
  apply (missing_ids_noop "section-0-0" "item-0-7" roof_doc).
  intros (s & i & Hs & _ & Hi & E).
  destruct Hs as [<- | []]. destruct Hi as [<- | []]. discriminate.
Defined.

(** C6 (as stated) fails for the status change: in the plan whose section
    came back without items no item bears the identifier, and yet the call
    turns the section from [pending] to [completed]. *)
Lemma missing_item_status_change :
  ~ has_item empty_doc "section-0-0" "item-0-0" /\
  updateItemStatus "section-0-0" "item-0-0" pass (Some empty_doc)
  <> Some empty_doc /\
  option_map sec_status (section_at empty_doc 0) = Some pending /\
  option_map sec_status
    (section_at
       (match updateItemStatus "section-0-0" "item-0-0" pass (Some empty_doc)
        with Some d => d | None => empty_doc end) 0) = Some completed.
Proof.
  split; [|split; [|split; reflexivity]].
  - intros (s & i & Hs & _ & Hi & _). destruct Hs as [<- | []]. destruct Hi.
  - discriminate.
Qed.

(** ** Hiding and showing *)

Lemma with_isHidden_same i h :
  item_isHidden i = Some h -> with_isHidden i h = i.
Proof. destruct i; simpl. intros ->. reflexivity. Qed.

Lemma with_sections_twice d a b :
  with_sections (with_sections d a) b = with_sections d b.
Proof. reflexivity. Qed.

Lemma hide_show_patch sid iid d :
  patch_items sid (on_item iid (fun i => with_isHidden i false))
    (patch_items sid (on_item iid (fun i => with_isHidden i true)) d)
  = patch_items sid (on_item iid (fun i => with_isHidden i false)) d.
Proof.
  unfold patch_items.
  rewrite sections_with_sections, with_sections_twice. f_equal.
  rewrite map_map. apply map_ext.
  intros s. destruct (String.eqb_spec (sec_id s) sid) as [E|E]; simpl.
  - apply String.eqb_eq in E. rewrite E. unfold with_items; simpl. f_equal.
    rewrite map_map. apply map_ext. intros i. unfold on_item.
    destruct (String.eqb_spec (item_id i) iid) as [Ei|Ei]; simpl.
    + apply String.eqb_eq in Ei. rewrite Ei. reflexivity.
    + apply String.eqb_neq in Ei. rewrite Ei. reflexivity.
  - apply String.eqb_neq in E. rewrite E. reflexivity.
Qed.

(** C8 (as amended).  Hiding an item and then showing it changes nothing in
    the document but the visibility flag of the items named: after the first
    call they are hidden, with status, notes and photos as before, and after
    the second call they carry the flag [false], every other field being as
    it was at the start; the items not named are untouched by both calls.
    An item named that carried the flag [false] is given back unchanged, and
    so is the whole document when every item named did. *)
Theorem hide_then_show sid iid d k j s i :
  section_at d k = Some s ->
  nth_error (sec_items s) j = Some i ->
  exists d1 d2,
    toggleItemVisibility sid iid true (Some d) = Some d1 /\
    toggleItemVisibility sid iid false (Some d1) = Some d2 /\
    item_at d1 k j
    = Some (if targeted sid iid s i then with_isHidden i true else i) /\
    (forall i1, item_at d1 k j = Some i1 ->
                item_status i1 = item_status i /\
                item_notes i1 = item_notes i /\
                item_photos i1 = item_photos i) /\
    item_at d2 k j
    = Some (if targeted sid iid s i then with_isHidden i false else i) /\
    (item_isHidden i = Some false -> item_at d2 k j = Some i) /\
    ((forall s' i', In s' (sections d) -> In i' (sec_items s') ->
                    targeted sid iid s' i' = true ->
                    item_isHidden i' = Some false) ->
     d2 = d).
Proof.
  intros Hs Hi. do 2 eexists.
  split; [apply toggleItemVisibility_patch|].
  split; [apply toggleItemVisibility_patch|].
  rewrite hide_show_patch.
  rewrite (item_at_patch_targeted sid iid (fun i => with_isHidden i true)
             d k j s i Hs Hi).
  rewrite (item_at_patch_targeted sid iid (fun i => with_isHidden i false)
             d k j s i Hs Hi).
  split; [reflexivity|]. split; [|split; [reflexivity|split]].
  - intros i1 H. injection H as <-.
    destruct (targeted sid iid s i); repeat split; reflexivity.
  - intros Eh. destruct (targeted sid iid s i); [|reflexivity].
    rewrite (with_isHidden_same i false Eh). reflexivity.
  - intros Hall. apply patch_items_fixed. intros s' i' Hs' E Hi'.
    unfold on_item. destruct (String.eqb_spec (item_id i') iid) as [Ei|Ei];
      [|reflexivity].
    apply with_isHidden_same. apply (Hall s' i' Hs' Hi').
    apply targeted_true; assumption.
Qed.

Lemma hide_then_show_witness :
  exists d1 d2,
    toggleItemVisibility "section-0-0" "item-0-0" true (Some roof_doc)
    = Some d1 /\
    toggleItemVisibility "section-0-0" "item-0-0" false (Some d1) = Some d2 /\
    item_at d1 0 0 = Some (with_isHidden roof_item true) /\
    (forall i1, item_at d1 0 0 = Some i1 ->
                item_status i1 = untouched /\
                item_notes i1 = EmptyString /\
                item_photos i1 = []) /\
    item_at d2 0 0 = Some (with_isHidden roof_item false) /\
    (item_isHidden roof_item = Some false ->
     item_at d2 0 0 = Some roof_item) /\
    ((forall s' i', In s' (sections roof_doc) -> In i' (sec_items s') ->
                    targeted "section-0-0" "item-0-0" s' i' = true ->
                    item_isHidden i' = Some false) ->
     d2 = roof_doc).
Proof.
  apply (hide_then_show "section-0-0" "item-0-0" roof_doc 0 0
           roof_section roof_item);
    reflexivity.
Defined.

(** C8 (as stated) fails.  An item that is hidden is not given back by
    hiding it and showing it: it comes back shown.  And an item as the
    generators build it, which carries no flag, comes back with the flag
    [false]. *)
Lemma hide_then_show_not_identity :
  (item_at hidden_doc 0 0 = Some (with_isHidden roof_item true)
   /\
   toggleItemVisibility "section-0-0" "item-0-0" false
     (toggleItemVisibility "section-0-0" "item-0-0" true (Some hidden_doc))
   <> Some hidden_doc)
  /\
  toggleItemVisibility "section-0-0" "item-0-0" false
    (toggleItemVisibility "section-0-0" "item-0-0" true (Some roof_doc))
  <> Some roof_doc.
Proof.
  split; [split; [reflexivity|]|]; discriminate.
Qed.

(** ** Photos *)

Lemma handleCapturePhoto_cover sid oid img d :
  truthy_opt oid = false ->
  handleCapturePhoto (Some (mkTarget sid oid)) img (Some d)
  = Some (with_sections d
            (map (fun sec =>
                    if (sec_id sec =? sid)%string then with_photoUrl sec img
                    else sec)
                 (sections d))).
Proof.
  intros T. unfold handleCapturePhoto. simpl. rewrite T. do 2 f_equal.
  apply map_ext. intros sec. destruct (sec_id sec =? sid)%string; reflexivity.
Qed.

(** C9.  A photo taken for an item is appended to the photo list of the
    items named and changes nothing else: the item keeps its other fields,
    every other item, in the same section and in the others, is as it was,
    and so are the cover photo, the title, the identifier and the status of
    every section.  A photo taken for a section (no item identifier)
    replaces the cover photo of the section, whatever it was, and leaves
    the items and the other fields of every section as they were. *)
Theorem addPhoto_frame sid iid oid img d k s :
  truthy iid = true ->
  truthy_opt oid = false ->
  section_at d k = Some s ->
  (exists d',
      handleCapturePhoto (Some (mkTarget sid (Some iid))) img (Some d)
      = Some d' /\
      (exists s', section_at d' k = Some s' /\
                  sec_photoUrl s' = sec_photoUrl s /\
                  same_header s s' /\
                  length (sec_items s') = length (sec_items s)) /\
      (forall j i, nth_error (sec_items s) j = Some i ->
         exists i',
           item_at d' k j = Some i' /\
           same_but_photos i i' /\
           item_photos i'
           = if targeted sid iid s i then (item_photos i ++ [img])%list
             else item_photos i))
  /\
  (exists d' s',
      handleCapturePhoto (Some (mkTarget sid oid)) img (Some d) = Some d' /\
      section_at d' k = Some s' /\
      same_header s s' /\
      sec_items s' = sec_items s /\
      sec_photoUrl s'
      = if (sec_id s =? sid)%string then Some img else sec_photoUrl s).
Proof.
  intros Ti To Hs. split.
  - eexists. split; [apply (handleCapturePhoto_item sid iid img d Ti)|]. split.
    + rewrite section_at_patch, Hs. simpl. eexists. split; [reflexivity|].
      destruct (negb _); simpl; repeat split; try reflexivity.
      rewrite length_map. reflexivity.
    + intros j i Hi. eexists. split.
      * apply (item_at_patch_targeted sid iid
                 (fun i => with_photos i (item_photos i ++ [img]))
                 d k j s i Hs Hi).
      * destruct (targeted sid iid s i); repeat split.
  - eexists. eexists.
    split; [apply (handleCapturePhoto_cover sid oid img d To)|].
    unfold section_at in *. rewrite sections_with_sections.
    rewrite nth_error_map, Hs. simpl. split; [reflexivity|].
    destruct (sec_id s =? sid)%string; repeat split.
Qed.

Lemma addPhoto_frame_witness :
  ((exists d',
       handleCapturePhoto (Some (mkTarget "section-0-0" (Some "item-0-0")))
         "data:image/jpeg;base64,BBBB" (Some noted_doc) = Some d' /\
       (exists s', section_at d' 0 = Some s' /\
                   sec_photoUrl s' = None /\
                   same_header noted_roof s' /\
                   length (sec_items s') = 2%nat) /\
       (forall j i,
          nth_error [noted_item; gutter_item] j = Some i ->
          exists i',
            item_at d' 0 j = Some i' /\
            same_but_photos i i' /\
            item_photos i'
            = if targeted "section-0-0" "item-0-0" noted_roof i
              then (item_photos i ++ ["data:image/jpeg;base64,BBBB"])%list
              else item_photos i))
   /\
   (exists d' s',
       handleCapturePhoto (Some (mkTarget "section-0-0" None))
         "data:image/jpeg;base64,BBBB" (Some noted_doc) = Some d' /\
       section_at d' 0 = Some s' /\
       same_header noted_roof s' /\
       sec_items s' = [noted_item; gutter_item] /\
       sec_photoUrl s' = Some "data:image/jpeg;base64,BBBB"))
  /\
  ((exists d',
       handleCapturePhoto (Some (mkTarget "section-0-0" (Some "item-0-0")))
         "data:image/jpeg;base64,BBBB" (Some noted_doc) = Some d' /\
       (exists s', section_at d' 1 = Some s' /\
                   sec_photoUrl s' = None /\
                   same_header exterior_section s' /\
                   length (sec_items s') = 1%nat) /\
       (forall j i,
          nth_error [siding_item] j = Some i ->
          exists i',
            item_at d' 1 j = Some i' /\
            same_but_photos i i' /\
            item_photos i'
            = if targeted "section-0-0" "item-0-0" exterior_section i
              then (item_photos i ++ ["data:image/jpeg;base64,BBBB"])%list
              else item_photos i))
   /\
   (exists d' s',
       handleCapturePhoto (Some (mkTarget "section-0-0" None))
         "data:image/jpeg;base64,BBBB" (Some noted_doc) = Some d' /\
       section_at d' 1 = Some s' /\
       same_header exterior_section s' /\
       sec_items s' = [siding_item] /\
       sec_photoUrl s' = None)).
Proof.
  split.
  - exact (addPhoto_frame "section-0-0" "item-0-0" None
             "data:image/jpeg;base64,BBBB" noted_doc 0 noted_roof
             eq_refl eq_refl eq_refl).
  - exact (addPhoto_frame "section-0-0" "item-0-0" None
             "data:image/jpeg;base64,BBBB" noted_doc 1 exterior_section
             eq_refl eq_refl eq_refl).
Defined.

(** On the sample document: the photo of the item comes after the one it
    had, its sibling and the item of the other section keep their empty
    lists, and no section gets a cover photo; the photo of the section
    becomes the cover of that section only. *)
Example addPhoto_frame_samples :
  match handleCapturePhoto (Some (mkTarget "section-0-0" (Some "item-0-0")))
          "data:image/jpeg;base64,BBBB" (Some noted_doc) with
  | Some d' =>
      option_map (fun i => item_photos i) (item_at d' 0 0)
      = Some ["data:image/jpeg;base64,AAAA"; "data:image/jpeg;base64,BBBB"]
      /\ item_at d' 0 1 = Some gutter_item
      /\ section_at d' 1 = Some exterior_section
      /\ option_map (fun s => sec_photoUrl s) (section_at d' 0) = Some None
  | None => False
  end /\
  match handleCapturePhoto (Some (mkTarget "section-0-0" None))
          "data:image/jpeg;base64,BBBB" (Some noted_doc) with
  | Some d' =>
      section_at d' 0
      = Some (mkSection "section-0-0" "Roof" "sun"
                "Roof covering and drainage" [noted_item; gutter_item]
                (Some "data:image/jpeg;base64,BBBB") pending)
      /\ section_at d' 1 = Some exterior_section
  | None => False
  end.
Proof.
  split; vm_compute; [refine (conj _ (conj _ (conj _ _)))|split];
    reflexivity.
Qed.

(** ** Progress *)

Lemma calculateProgress_unfold d :
  calculateProgress (Some d)
  = if (length (visible_items d) =? 0)%nat then of_Z 0
    else Math_round
           (mul (div (of_nat (length (filter rated (visible_items d))))
                     (of_nat (length (visible_items d))))
                (of_Z 100)).
Proof. reflexivity. Qed.

Lemma of_nat_finite n :
  (0 < n)%nat -> Z.of_nat n < 2 ^ 53 ->
  exists m e, of_nat n = S754_finite false m e.
Proof.
  intros Hn Hb. unfold of_nat.
  destruct (Z.of_nat n) as [|p|p] eqn:E; try lia.
  apply of_Z_finite. exact Hb.
Qed.

Lemma filter_rated_none its :
  Forall (fun i => item_status i = untouched) its -> filter rated its = [].
Proof.
  induction 1 as [|i its Hi _ IH]; simpl; [reflexivity|].
  unfold rated at 1, is_untouched. rewrite Hi. simpl. exact IH.
Qed.

Lemma filter_rated_all its :
  Forall (fun i => item_status i <> untouched) its -> filter rated its = its.
Proof.
  induction 1 as [|i its Hi _ IH]; simpl; [reflexivity|].
  unfold rated at 1, is_untouched.
  destruct (ItemStatus_eqb_spec (item_status i) untouched); [contradiction|].
  simpl. rewrite IH. reflexivity.
Qed.

(** The parts of C2 that hold: the progress is exactly 0 when no item is
    visible and when no visible item is rated, and exactly 100 when every
    visible item is rated (there being at least one). *)
Lemma calculateProgress_edges d :
  Z.of_nat (length (visible_items d)) < 2 ^ 53 ->
  (visible_items d = [] -> calculateProgress (Some d) = of_Z 0) /\
  (Forall (fun i => item_status i = untouched) (visible_items d) ->
   calculateProgress (Some d) = of_Z 0) /\
  (visible_items d <> [] ->
   Forall (fun i => item_status i <> untouched) (visible_items d) ->
   calculateProgress (Some d) = of_Z 100).
Proof.
  intros Hb. rewrite calculateProgress_unfold.
  split; [intros ->; reflexivity|].
  destruct (visible_items d) as [|i0 its] eqn:Ev; [repeat split; congruence|].
  destruct (of_nat_finite (length (i0 :: its)) ltac:(simpl; lia) Hb)
    as (m & e & Ef).
  change ((length (i0 :: its) =? 0)%nat) with false. cbv iota.
  split.
  - intros Hall. rewrite (filter_rated_none _ Hall), Ef. reflexivity.
  - intros _ Hall. rewrite (filter_rated_all _ Hall), Ef, div_self.
    reflexivity.
Qed.

(** C2, at a document the application reaches: forty visible items, of which
    twenty-three are rated.  The quotient 23/40 is not a binary fraction; the
    nearest number lies below it, its product by 100 is the number just below
    57.5, and [Math.round] gives 57, whereas 100 * 23 / 40 is 57.5, which
    rounds to 58. *)
Theorem progress_23_of_40 :
  reachable progress_doc /\
  length (visible_items progress_doc) = 40%nat /\
  length (filter rated (visible_items progress_doc)) = 23%nat /\
  mul (div (of_Z 23) (of_Z 40)) (of_Z 100)
  = S754_finite false 8092405580431359 (-47) /\
  calculateProgress (Some progress_doc) = of_Z 57 /\
  to_integer (calculateProgress (Some progress_doc)) = Some 57 /\
  exact_percentage 23 40 = 58.
Proof.
  split.
  - exists forty_doc, rate_23. split; [|vm_compute; reflexivity].
    left. exists clock0, forty_plan. reflexivity.
  - repeat split; vm_compute; reflexivity.
Qed.

(* ================================================================== *)
(** * Properties of the identifiers *)
(* ================================================================== *)

(** ** The pattern *)

Lemma matches_hex_run n pat s :
  matches (repeat is_hex n ++ pat) s
  = match hex_run n s with
    | Some r => matches pat r
    | None => false
    end.
Proof.
  revert s. induction n as [|n IH]; intros s; simpl; [reflexivity|].
  destruct s as [|c r]; [reflexivity|].
  destruct (is_hex c); simpl; [apply IH | reflexivity].
Qed.

Lemma matches_dash pat s :
  matches (is_dash :: pat) s
  = match lit_dash s with
    | Some r => matches pat r
    | None => false
    end.
Proof.
  destruct s as [|c r]; simpl; [reflexivity|].
  destruct (is_dash c); reflexivity.
Qed.

Lemma matches_nil s : matches [] s = at_end s.
Proof. destruct s; reflexivity. Qed.

Lemma isUuid_matches s : isUuid s = matches uuid_pattern s.
Proof.
  unfold isUuid, uuid_pattern, and_then. cbn [app].
  repeat (rewrite matches_hex_run;
          match goal with
          | |- context [hex_run ?n ?x] => destruct (hex_run n x)
          end; [|reflexivity];
          rewrite matches_dash;
          match goal with
          | |- context [lit_dash ?x] => destruct (lit_dash x)
          end; [|reflexivity]).
  rewrite <- (app_nil_r (repeat is_hex 12)), matches_hex_run.
  destruct (hex_run 12 _); [|reflexivity].
  symmetry. apply matches_nil.
Qed.

Lemma matches_spec pat : forall s,
  matches pat s = true <->
  String.length s = length pat /\
  forall i c, String.get i s = Some c ->
              exists p, nth_error pat i = Some p /\ p c = true.
Proof.
  induction pat as [|p pat IH]; intros [|c r]; simpl.
  - split; [|reflexivity]. intros _. split; [reflexivity|]. discriminate.
  - split; [discriminate|]. intros [H _]. discriminate.
  - split; [discriminate|]. intros [H _]. discriminate.
  - rewrite andb_true_iff, IH. split.
    + intros [Hp [Hl Hr]]. split; [f_equal; exact Hl|].
      intros [|i] c' Hc; simpl in *.
      * injection Hc as <-. exists p. split; [reflexivity | exact Hp].
      * apply Hr. exact Hc.
    + intros [Hl Hr]. split; [|split].
      * destruct (Hr 0%nat c eq_refl) as (p' & E & Hp). simpl in E.
        injection E as <-. exact Hp.
      * injection Hl as Hl. exact Hl.
      * intros i c' Hc. apply (Hr (S i) c' Hc).
Qed.

Lemma uuid_pattern_nth i :
  (i < 36)%nat ->
  nth_error uuid_pattern i
  = Some (if hyphen_offset i then is_dash else is_hex).
Proof.
  intros H.
  do 36 (destruct i as [|i]; [reflexivity|]). lia.
Qed.

Lemma get_length i s c : String.get i s = Some c -> (i < String.length s)%nat.
Proof.
  revert i. induction s as [|a s IH]; intros [|i]; simpl; try discriminate.
  - lia.
  - intros H. apply IH in H. lia.
Qed.

(** The test of the loader is the key form of the specification. *)
Lemma isUuid_canonical s : isUuid s = true <-> canonical_uuid s.
Proof.
  rewrite isUuid_matches, matches_spec. unfold canonical_uuid.
  change (length uuid_pattern) with 36%nat.
  split; intros [Hl H]; (split; [exact Hl|]); intros i c Hc.
  - destruct (H i c Hc) as (p & Hp & Hpc).
    rewrite uuid_pattern_nth in Hp by (apply get_length in Hc; lia).
    injection Hp as <-. destruct (hyphen_offset i); [|exact Hpc].
    unfold is_dash in Hpc. apply Ascii.eqb_eq in Hpc. exact Hpc.
  - eexists. split; [apply uuid_pattern_nth; apply get_length in Hc; lia|].
    specialize (H i c Hc). destruct (hyphen_offset i); [|exact H].
    subst c. reflexivity.
Qed.

Lemma isUuid_length s : isUuid s = true -> String.length s = 36%nat.
Proof. intros H. apply isUuid_canonical in H. apply H. Qed.

(* ================================================================== *)
(** * Properties of the persistence gateway *)
(* ================================================================== *)

(** ** Load: which column is queried *)

Lemma load_queries id w :
  snd (loadReportFromSupabase id w)
  = if supabase w then [remote_query id] else [].
Proof.
  unfold loadReportFromSupabase. destruct (supabase w); [|reflexivity].
  destruct (select_single w _ _) as [[row|] [err|] |]; try reflexivity.
  destruct (row_data row); reflexivity.
Qed.

(** C4.  The loader takes the identifier alone and, when the remote store is
    configured, sends it one query, on the primary-key column when the
    identifier has the canonical form (36 characters, hyphens at offsets 8,
    13, 18 and 23, hexadecimal digits elsewhere) and on the short-key column
    when it has not, whatever the state of the stores. *)
Theorem load_column_by_pattern id w :
  supabase w = true ->
  (canonical_uuid id ->
   snd (loadReportFromSupabase id w) = [(col_id, id)]) /\
  (~ canonical_uuid id ->
   snd (loadReportFromSupabase id w) = [(col_short_id, id)]).
Proof.
  intros S. rewrite load_queries, S. unfold remote_query.
  split; intros H.
  - apply isUuid_canonical in H. rewrite H. reflexivity.
  - destruct (isUuid id) eqn:E; [|reflexivity].
    exfalso. apply H, isUuid_canonical, E.
Qed.

Lemma load_column_by_pattern_witness :
  snd (loadReportFromSupabase sample_uuid denied_world)
  = [(col_id, sample_uuid)] /\
  snd (loadReportFromSupabase sample_shortId denied_world)
  = [(col_short_id, sample_shortId)].
Proof.
  split.
  - apply (proj1 (load_column_by_pattern sample_uuid denied_world eq_refl)).
    apply isUuid_canonical. reflexivity.
  - apply (proj2 (load_column_by_pattern sample_shortId denied_world eq_refl)).
    intros C. apply isUuid_canonical in C. discriminate C.
Defined.

(** ** Load: not found *)

Lemma lookup_In key entries r :
  lookup key entries = Some r -> In (key, r) entries.
Proof.
  induction entries as [|[k r0] rest IH]; simpl; [discriminate|].
  destruct (String.eqb_spec k key) as [E|E].
  - intros H. injection H as <-. left. subst. reflexivity.
  - intros H. right. apply IH. exact H.
Qed.

(** The loader always settles with a value. *)
Lemma load_resolves id w :
  exists r, fst (loadReportFromSupabase id w) = resolved r.
Proof.
  unfold loadReportFromSupabase. destruct (supabase w); [|eexists; reflexivity].
  destruct (select_single w _ _) as [[row|] [err|] |];
    try (eexists; reflexivity).
  destruct (row_data row); eexists; reflexivity.
Qed.

Lemma load_local_none id ls :
  ~ local_has ls id -> load_local id ls = None.
Proof.
  intros H. unfold load_local. unfold local_has, local_entries in H.
  destruct (safeGetLocalStorage ls) as [t|]; [|reflexivity].
  destruct (text_truthy t); [|reflexivity]. simpl.
  destruct (JSON_parse t) as [[|entries]|]; try reflexivity.
  destruct (isUuid id).
  - destruct (lookup id entries) as [r|] eqn:L; [|reflexivity].
    exfalso. apply H. left. exists r. apply lookup_In. exact L.
  - simpl.
    destruct (find _ entries) as [[k r]|] eqn:F; [|reflexivity].
    exfalso. apply find_some in F as [Hin Hp]. simpl in Hp.
    destruct (rec_data r) as [p|] eqn:Ed; [|discriminate].
    destruct (shortId p) as [s|] eqn:Es; [|discriminate].
    apply String.eqb_eq in Hp. subst s.
    apply H. right. exists k, r, p. tauto.
Qed.

(** Storage that is missing, throws, is empty or does not parse holds no
    record. *)
Lemma local_has_unreadable ls id :
  (window_defined ls = false \/ getItem_throws ls = true \/ stored ls = None
   \/ exists t, stored ls = Some t /\ JSON_parse t = None) ->
  ~ local_has ls id.
Proof.
  intros H.
  assert (E : local_entries ls = []).
  { unfold local_entries, safeGetLocalStorage.
    destruct H as [-> | [H | [H | (t & H & P)]]]; [reflexivity| | |].
    - rewrite H. destruct (negb _); reflexivity.
    - rewrite H. destruct (negb _); [|destruct (getItem_throws ls)];
        reflexivity.
    - rewrite H. destruct (negb _); [reflexivity|].
      destruct (getItem_throws ls); [reflexivity|]. rewrite P. reflexivity. }
  unfold local_has. rewrite E. intros [(r & [])|(k & r & p & [] & _)].
Qed.

(** C7.  When the remote store (if one is configured) answers the query with
    no row, and the local store holds no record under the identifier, be it
    because the storage is missing, unreadable or empty, the loader settles
    with [null]; it does not reject. *)
Theorem load_not_found id w :
  (supabase w = true -> ~ remote_has w id) ->
  ~ local_has (localStorage w) id ->
  fst (loadReportFromSupabase id w) = resolved None.
Proof.
  intros Hr Hl. unfold loadReportFromSupabase.
  rewrite (load_local_none id (localStorage w) Hl).
  destruct (supabase w); [|reflexivity].
  specialize (Hr eq_refl).
  destruct (select_single w (fst (remote_query id)) (snd (remote_query id)))
    as [[row|] [err|] |] eqn:E; try reflexivity.
  exfalso. apply Hr. exists (fst (remote_query id)), row.
  replace id with (snd (remote_query id)) at 2; [exact E|].
  unfold remote_query. destruct (isUuid id); reflexivity.
Qed.

Lemma load_not_found_witness :
  fst (loadReportFromSupabase sample_shortId denied_world) = resolved None.
Proof.
  apply (load_not_found sample_shortId denied_world).
  - intros _ (c & row & H). discriminate H.
  - apply local_has_unreadable. right. right. left. reflexivity.
Defined.

(** ** Save: remote failures *)

Lemma save_unfold inspection w :
  saveReportToSupabase inspection w
  = let keys := local_keys inspection w in
    let g := snd (resolve_keys inspection (rng w)) in
    let w1 := set_rng w g in
    let user_id :=
      if supabase w1
      then match auth_user w1 with
           | Some u => Some u
           | None => userId inspection
           end
      else userId inspection in
    let payload :=
      with_keys inspection (Some (uuid keys)) (Some (keys_shortId keys))
                user_id in
    let w2 :=
      set_localStorage w1
        (local_backup (uuid keys) payload (now w1 0%nat) (localStorage w1)) in
    if negb (supabase w2) then (resolved keys, w2)
    else
      match upsert w2
              (mkDbPayload (uuid keys) (keys_shortId keys) payload
                 (now w2 (if backup_reads_clock (localStorage w1)
                          then 1%nat else 0%nat))
                 (if truthy_opt user_id then user_id else None)) with
      | upsert_throws message =>
          (rejected (or_else message "Failed to save inspection to cloud."),
           w2)
      | upsert_answer data (Some error) =>
          if (err_code error =? "42501")%string
          then (resolved keys, alert w2 warn_permission)
          else if (err_code error =? "42P01")%string
          then (resolved keys, alert w2 warn_table)
          else if (err_code error =? "PGRST204")%string
          then (resolved keys, alert w2 warn_schema)
          else
            (rejected
               (or_else
                  (Some ("Supabase Error " ++ err_code error ++ ": "
                           ++ err_message error))
                  "Failed to save inspection to cloud."), w2)
      | upsert_answer data None =>
          (resolved
             (mkKeys
                (or_else (and_then data krow_id) (uuid keys))
                (or_else (and_then data krow_short_id) (keys_shortId keys))),
           w2)
      end.
Proof.
  unfold saveReportToSupabase, local_keys.
  destruct (resolve_keys inspection (rng w)) as [keys g]. reflexivity.
Qed.

(** With a remote store, the save is settled by the answer to the row it
    sends. *)
Lemma save_with_remote inspection w :
  supabase w = true ->
  saveReportToSupabase inspection w
  = let keys := local_keys inspection w in
    let w2 :=
      set_localStorage
        (set_rng w (snd (resolve_keys inspection (rng w))))
        (local_backup (uuid keys) (db_data (sent_row inspection w))
           (now w 0%nat) (localStorage w)) in
    match upsert w (sent_row inspection w) with
    | upsert_throws message =>
        (rejected (or_else message "Failed to save inspection to cloud."),
         w2)
    | upsert_answer data (Some error) =>
        if (err_code error =? "42501")%string
        then (resolved keys, alert w2 warn_permission)
        else if (err_code error =? "42P01")%string
        then (resolved keys, alert w2 warn_table)
        else if (err_code error =? "PGRST204")%string
        then (resolved keys, alert w2 warn_schema)
        else
          (rejected
             (or_else
                (Some ("Supabase Error " ++ err_code error ++ ": "
                         ++ err_message error))
                "Failed to save inspection to cloud."), w2)
    | upsert_answer data None =>
        (resolved
           (mkKeys
              (or_else (and_then data krow_id) (uuid keys))
              (or_else (and_then data krow_short_id) (keys_shortId keys))),
         w2)
    end.
Proof.
  intros S. rewrite save_unfold. cbv zeta.
  change (supabase (set_localStorage _ _)) with (supabase w).
  change (supabase (set_rng _ _)) with (supabase w).
  rewrite S. reflexivity.
Qed.

(** C3.  When the remote store is configured and answers the row the save
    sends with an error, the save resolves with the keys it settled on
    locally, and raises exactly one warning, if the error code is that of a
    denied permission (42501), of a missing table (42P01) or of a column
    missing from the schema (PGRST204); for every other error code, and when
    the upsert throws, it rejects, and so returns no keys, and raises no
    warning.  Only the answer to the row sent matters: the store may answer
    other rows as it likes. *)
Theorem save_remote_failure inspection w :
  supabase w = true ->
  (forall data error,
     upsert w (sent_row inspection w) = upsert_answer data (Some error) ->
     (recoverable (err_code error) = true ->
      fst (saveReportToSupabase inspection w)
      = resolved (local_keys inspection w) /\
      exists warning,
        alerts (snd (saveReportToSupabase inspection w))
        = (alerts w ++ [warning])%list)
     /\
     (recoverable (err_code error) = false ->
      (exists message,
         fst (saveReportToSupabase inspection w) = rejected message) /\
      alerts (snd (saveReportToSupabase inspection w)) = alerts w))
  /\
  (forall thrown,
     upsert w (sent_row inspection w) = upsert_throws thrown ->
     (exists message,
        fst (saveReportToSupabase inspection w) = rejected message) /\
     alerts (snd (saveReportToSupabase inspection w)) = alerts w).
Proof.
  intros S. split.
  - intros data error U. rewrite (save_with_remote inspection w S).
    cbv zeta. rewrite U. unfold recoverable.
    destruct (err_code error =? "42501")%string;
      [|destruct (err_code error =? "42P01")%string;
        [|destruct (err_code error =? "PGRST204")%string]];
      simpl; (split; [intros R | intros R]); try discriminate R;
      try (split; [reflexivity | eexists; reflexivity]).
    split; [eexists; reflexivity | reflexivity].
  - intros thrown U. rewrite (save_with_remote inspection w S).
    cbv zeta. rewrite U.
    split; [eexists; reflexivity | reflexivity].
Qed.

Lemma save_remote_failure_witness :
  (forall data error,
     upsert row_level_world (sent_row roof_doc row_level_world)
     = upsert_answer data (Some error) ->
     (recoverable (err_code error) = true ->
      fst (saveReportToSupabase roof_doc row_level_world)
      = resolved (local_keys roof_doc row_level_world) /\
      exists warning,
        alerts (snd (saveReportToSupabase roof_doc row_level_world))
        = (alerts row_level_world ++ [warning])%list)
     /\
     (recoverable (err_code error) = false ->
      (exists message,
         fst (saveReportToSupabase roof_doc row_level_world)
         = rejected message) /\
      alerts (snd (saveReportToSupabase roof_doc row_level_world))
      = alerts row_level_world))
  /\
  (forall thrown,
     upsert row_level_world (sent_row roof_doc row_level_world)
     = upsert_throws thrown ->
     (exists message,
        fst (saveReportToSupabase roof_doc row_level_world)
        = rejected message) /\
     alerts (snd (saveReportToSupabase roof_doc row_level_world))
     = alerts row_level_world).
Proof.
  apply (save_remote_failure roof_doc row_level_world). reflexivity.
Defined.

(** A store that answers by the row: the row of a guest is refused for lack
    of privilege, and the save resolves with one warning; the row of a
    signed-in user is accepted. *)
Example save_row_level :
  upsert row_level_world (sent_row roof_doc row_level_world)
  = upsert_answer None
      (Some (mkError "42501" "new row violates row-level security policy"))
  /\
  fst (saveReportToSupabase roof_doc row_level_world)
  = resolved (local_keys roof_doc row_level_world) /\
  alerts (snd (saveReportToSupabase roof_doc row_level_world))
  = [warn_permission] /\
  upsert row_level_world
    (sent_row (with_keys roof_doc None None (Some "user-7")) row_level_world)
  = upsert_answer None None.
Proof.
  refine (conj _ (conj _ (conj _ _))); vm_compute; reflexivity.
Qed.

(** The three outcomes on sample worlds: a denied permission, another
    database error, and no remote store at all. *)
Example save_denied :
  saveReportToSupabase roof_doc denied_world
  = (resolved (mkKeys "88888888-8888-4888-8888-888888888888" "FFFFFFFFF"),
     snd (saveReportToSupabase roof_doc denied_world))
  /\ alerts (snd (saveReportToSupabase roof_doc denied_world))
     = [warn_permission].
Proof. split; vm_compute; reflexivity. Qed.

Example save_failing :
  fst (saveReportToSupabase roof_doc failing_world)
  = rejected
      "Supabase Error 23505: duplicate key value violates unique constraint".
Proof. vm_compute. reflexivity. Qed.

(** ** Save: the local backup *)

Lemma lookup_replace_entry key r entries :
  lookup key entries <> None ->
  lookup key (replace_entry key r entries) = Some r.
Proof.
  induction entries as [|[k r0] rest IH]; simpl; [congruence|].
  destruct (k =? key)%string eqn:E; simpl; rewrite E; [reflexivity|].
  exact IH.
Qed.

Lemma lookup_insert_index n key r entries :
  lookup key entries = None ->
  lookup key (insert_index n key r entries) = Some r.
Proof.
  induction entries as [|[k r0] rest IH]; simpl.
  - rewrite String.eqb_refl. reflexivity.
  - destruct (k =? key)%string eqn:E; [discriminate|]. intros L.
    destruct (array_index k) as [m|];
      [destruct (m <? n)%N|]; simpl; rewrite ?E, ?String.eqb_refl;
      try reflexivity.
    exact (IH L).
Qed.

Lemma lookup_append key r entries :
  lookup key entries = None ->
  lookup key (entries ++ [(key, r)]) = Some r.
Proof.
  induction entries as [|[k r0] rest IH]; simpl.
  - rewrite String.eqb_refl. reflexivity.
  - destruct (k =? key)%string; [discriminate | exact IH].
Qed.

Lemma lookup_assign key r entries :
  lookup key (assign key r entries) = Some r.
Proof.
  unfold assign. destruct (lookup key entries) as [r0|] eqn:L.
  - apply lookup_replace_entry. congruence.
  - destruct (array_index key);
      [apply lookup_insert_index | apply lookup_append]; exact L.
Qed.

Lemma lookup_json key entries :
  lookup key (map (fun kr => (fst kr, json_record (snd kr))) entries)
  = option_map json_record (lookup key entries).
Proof.
  induction entries as [|[k r0] rest IH]; simpl; [reflexivity|].
  destruct (k =? key)%string; [reflexivity | exact IH].
Qed.

(** When the storage works and holds nothing, or an object, the backup
    leaves under the primary key a record holding the payload as its JSON
    text gives it back. *)
Lemma local_backup_stored u payload created_at ls :
  window_defined ls = true -> getItem_throws ls = false ->
  setItem_throws ls = false ->
  (stored ls = None \/
   exists entries, stored ls = Some (json_text (json_map entries))) ->
  lookup u (local_entries (local_backup u payload created_at ls))
  = Some (mkRecord u (Some (json_profile payload)) None created_at).
Proof.
  intros W G S H. destruct ls as [wd gt st sd]. simpl in W, G, S, H.
  subst wd gt st.
  destruct H as [-> | (entries & ->)];
    unfold local_backup, local_entries, safeGetLocalStorage,
      safeSetLocalStorage;
    cbn -[assign lookup]; rewrite lookup_json, lookup_assign; reflexivity.
Qed.

(** Without a remote store, a saved report is read back under either key. *)
Example save_then_load_locally :
  let w := mkWorld false None (upsert denied_world)
             (select_single denied_world) (localStorage denied_world)
             plain_rng (now denied_world) [] in
  let saved := saveReportToSupabase roof_doc w in
  fst saved
  = resolved (mkKeys "88888888-8888-4888-8888-888888888888" "FFFFFFFFF") /\
  fst (loadReportFromSupabase "88888888-8888-4888-8888-888888888888"
         (snd saved))
  = resolved
      (Some (with_keys roof_doc
               (Some "88888888-8888-4888-8888-888888888888")
               (Some "FFFFFFFFF") None)) /\
  fst (loadReportFromSupabase "FFFFFFFFF" (snd saved))
  = resolved
      (Some (with_keys roof_doc
               (Some "88888888-8888-4888-8888-888888888888")
               (Some "FFFFFFFFF") None)).
Proof. repeat split; vm_compute; reflexivity. Qed.

(* ================================================================== *)
(** * Properties of the generated keys *)
(* ================================================================== *)

(** ** Strings that match a pattern *)

Lemma matches_app p1 p2 s1 s2 :
  matches p1 s1 = true -> matches p2 s2 = true ->
  matches (p1 ++ p2) (s1 ++ s2) = true.
Proof.
  revert s1. induction p1 as [|p p1 IH]; intros [|c s1]; simpl;
    try discriminate.
  - intros _ H. exact H.
  - intros H1 H2. apply andb_true_iff in H1 as [Hp H1].
    rewrite Hp. simpl. apply IH; assumption.
Qed.

Lemma matches_weaken p1 p2 s :
  Forall2 (fun a b => forall c, a c = true -> b c = true) p1 p2 ->
  matches p1 s = true -> matches p2 s = true.
Proof.
  intros F. revert s. induction F as [|a b p1 p2 Hab _ IH]; intros [|c s];
    simpl; try discriminate; [reflexivity|].
  intros H. apply andb_true_iff in H as [Ha H].
  rewrite (Hab c Ha). simpl. apply IH. exact H.
Qed.

Lemma toString16_nibble v :
  0 <= v <= 15 -> matches [is_hex] (toString16 v) = true.
Proof.
  intros H.
  assert (C : v = 0 \/ v = 1 \/ v = 2 \/ v = 3 \/ v = 4 \/ v = 5 \/ v = 6
              \/ v = 7 \/ v = 8 \/ v = 9 \/ v = 10 \/ v = 11 \/ v = 12
              \/ v = 13 \/ v = 14 \/ v = 15) by lia.
  repeat (destruct C as [-> | C]; [reflexivity|]). subst v. reflexivity.
Qed.

Lemma variant_nibble r : 0 <= r <= 15 -> 0 <= bor (band r 3) 8 <= 15.
Proof.
  intros H.
  assert (C : r = 0 \/ r = 1 \/ r = 2 \/ r = 3 \/ r = 4 \/ r = 5 \/ r = 6
              \/ r = 7 \/ r = 8 \/ r = 9 \/ r = 10 \/ r = 11 \/ r = 12
              \/ r = 13 \/ r = 14 \/ r = 15) by lia.
  repeat (destruct C as [-> | C]; [vm_compute; split; discriminate|]).
  subst r. vm_compute; split; discriminate.
Qed.

(** The callback of the fallback generator yields one hexadecimal digit. *)
Lemma uuid_digit_hex c x :
  in_unit_interval x = true -> matches [is_hex] (uuid_digit c x) = true.
Proof.
  intros H. unfold uuid_digit. pose proof (random_nibble x H) as R.
  assert (E : bor (ToInt32 (mul x (of_Z 16))) 0 = ToInt32 (mul x (of_Z 16)))
    by apply Z.lor_0_r.
  cbv zeta. rewrite E. apply toString16_nibble.
  destruct (Ascii.eqb c "x"); [exact R | apply variant_nibble; exact R].
Qed.

Lemma fair_Math_random g : fair g -> fair (snd (Math_random g)).
Proof. intros H i. apply H. Qed.

Lemma Math_random_fair g :
  fair g -> in_unit_interval (fst (Math_random g)) = true.
Proof. intros H. apply H. Qed.

Lemma replace_xy_matches template : forall g,
  fair g ->
  matches (map template_class (list_ascii_of_string template))
          (fst (replace_xy template g)) = true.
Proof.
  induction template as [|c rest IH]; intros g Hg; [reflexivity|].
  cbn [replace_xy list_ascii_of_string map]. unfold template_class at 1.
  destruct (Ascii.eqb c "x" || Ascii.eqb c "y")%bool.
  - pose proof (Math_random_fair g Hg) as Hx.
    pose proof (fair_Math_random g Hg) as Hg1.
    destruct (Math_random g) as [x g1]. cbn [fst snd] in *.
    specialize (IH g1 Hg1).
    destruct (replace_xy rest g1) as [out g2]. cbn [fst] in *.
    apply (matches_app [is_hex] _ (uuid_digit c x) out);
      [apply uuid_digit_hex; exact Hx | exact IH].
  - specialize (IH g Hg).
    destruct (replace_xy rest g) as [out g2]. cbn [fst matches] in *.
    rewrite Ascii.eqb_refl. exact IH.
Qed.

Lemma template_refines_pattern :
  Forall2 (fun a b : ascii -> bool => forall c, a c = true -> b c = true)
    (map template_class (list_ascii_of_string uuid_template)) uuid_pattern.
Proof.
  repeat (constructor;
          [intros c H; try exact H;
           apply Ascii.eqb_eq in H; subst c; reflexivity|]).
  constructor.
Qed.

Lemma fallback_uuid_matches g :
  fair g -> isUuid (fst (replace_xy uuid_template g)) = true.
Proof.
  intros Hg. rewrite isUuid_matches.
  apply (matches_weaken _ _ _ template_refines_pattern).
  apply replace_xy_matches. exact Hg.
Qed.

Lemma hex_byte_hex (b : Byte.byte) :
  matches [is_hex; is_hex] (hex_byte (Byte.to_N b)) = true.
Proof. destruct b; reflexivity. Qed.

Lemma hex_byte_version (b : Byte.byte) :
  matches [is_hex; is_hex] (hex_byte (N.lor (N.land (Byte.to_N b) 15) 64))
  = true.
Proof. destruct b; reflexivity. Qed.

Lemma hex_byte_variant (b : Byte.byte) :
  matches [is_hex; is_hex] (hex_byte (N.lor (N.land (Byte.to_N b) 63) 128))
  = true.
Proof. destruct b; reflexivity. Qed.

Lemma matches_dash_string : matches [is_dash] "-" = true.
Proof. reflexivity. Qed.

Lemma secure_uuid_matches g : isUuid (fst (crypto_randomUUID g)) = true.
Proof.
  rewrite isUuid_matches. unfold crypto_randomUUID. cbn [fst hex_bytes].
  change uuid_pattern with
    ((([is_hex; is_hex] ++ [is_hex; is_hex] ++ [is_hex; is_hex]
         ++ [is_hex; is_hex] ++ [])
        ++ [is_dash] ++ ([is_hex; is_hex] ++ [is_hex; is_hex] ++ [])
        ++ [is_dash] ++ ([is_hex; is_hex] ++ [is_hex; is_hex] ++ [])
        ++ [is_dash] ++ ([is_hex; is_hex] ++ [is_hex; is_hex] ++ [])
        ++ [is_dash]
        ++ ([is_hex; is_hex] ++ [is_hex; is_hex] ++ [is_hex; is_hex]
              ++ [is_hex; is_hex] ++ [is_hex; is_hex] ++ [is_hex; is_hex]
              ++ []))%list).
  repeat first
    [ apply matches_app
    | apply hex_byte_hex
    | apply hex_byte_version
    | apply hex_byte_variant
    | apply matches_dash_string
    | reflexivity ].
Qed.

(** The generators on sample sources: [Math.random] answering one half
    throughout, and a secure source answering the bytes 3, 20, 37, ... *)
Example generators_samples :
  fst (generateUUID plain_rng) = "88888888-8888-4888-8888-888888888888" /\
  fst (generateUUID secure_rng) = "03142536-4758-497a-8b9c-adbecfe0f102" /\
  fst (generateShortId plain_rng) = "FFFFFFFFF".
Proof. repeat split; vm_compute; reflexivity. Qed.

(** The primary-key generator yields a key of the canonical form. *)
Lemma generateUUID_isUuid g :
  fair g -> isUuid (fst (generateUUID g)) = true.
Proof.
  intros Hg. unfold generateUUID. destruct (secure g).
  - apply secure_uuid_matches.
  - apply fallback_uuid_matches. exact Hg.
Qed.

Lemma length_append a b :
  String.length (a ++ b) = (String.length a + String.length b)%nat.
Proof.
  induction a as [|c a IH]; simpl; [reflexivity | rewrite IH; reflexivity].
Qed.

Lemma charAt_length s pos : (String.length (charAt s pos) <= 1)%nat.
Proof.
  unfold charAt.
  assert (A : forall k : Z,
             (String.length
                (if (k <? 0)%Z then EmptyString
                 else match String.get (Z.to_nat k) s with
                      | Some c => String c EmptyString
                      | None => EmptyString
                      end) <= 1)%nat).
  { intros k. destruct (k <? 0)%Z; [simpl; lia|].
    destruct (String.get _ s); simpl; lia. }
  destruct pos; try apply A. simpl. lia.
Qed.

Lemma shortId_loop_length n : forall result g,
  (String.length (fst (shortId_loop n result g))
   <= String.length result + n)%nat.
Proof.
  induction n as [|n IH]; intros result g; [simpl; lia|].
  cbn [shortId_loop]. unfold Math_random.
  eapply Nat.le_trans; [apply IH|].
  rewrite length_append.
  match goal with
  | |- context [charAt chars ?p] => pose proof (charAt_length chars p) as L
  end.
  lia.
Qed.

(** The short-key generator yields at most nine characters, hence never a
    key of the canonical form. *)
Lemma generateShortId_not_uuid g : isUuid (fst (generateShortId g)) = false.
Proof.
  destruct (isUuid (fst (generateShortId g))) eqn:E; [|reflexivity].
  apply isUuid_length in E.
  pose proof (shortId_loop_length 9 EmptyString g) as L.
  unfold generateShortId in E.
  change (String.length EmptyString) with 0%nat in L.
  lia.
Qed.

(** C10.  Whatever the random draws, the primary-key generator yields a key
    of the canonical form, on the path of the secure generator and on the
    path of [Math.random] alike, and the short-key generator yields a key
    that has not this form; so the loader sends a fresh primary key to the
    primary-key column and a fresh short key to the short-key column. *)
Theorem generated_keys_routing g w :
  fair g ->
  isUuid (fst (generateUUID g)) = true /\
  canonical_uuid (fst (generateUUID g)) /\
  isUuid (fst (generateShortId g)) = false /\
  ~ canonical_uuid (fst (generateShortId g)) /\
  (supabase w = true ->
   snd (loadReportFromSupabase (fst (generateUUID g)) w)
   = [(col_id, fst (generateUUID g))] /\
   snd (loadReportFromSupabase (fst (generateShortId g)) w)
   = [(col_short_id, fst (generateShortId g))]).
Proof.
  intros Hg.
  pose proof (generateUUID_isUuid g Hg) as U.
  pose proof (generateShortId_not_uuid g) as S.
  split; [exact U|]. split; [apply isUuid_canonical; exact U|].
  split; [exact S|]. split.
  - intros C. apply isUuid_canonical in C. congruence.
  - intros Hs. rewrite !load_queries, Hs. unfold remote_query.
    rewrite U, S. split; reflexivity.
Qed.

Lemma generated_keys_routing_witness :
  isUuid (fst (generateUUID plain_rng)) = true /\
  canonical_uuid (fst (generateUUID plain_rng)) /\
  isUuid (fst (generateShortId plain_rng)) = false /\
  ~ canonical_uuid (fst (generateShortId plain_rng)) /\
  (supabase denied_world = true ->
   snd (loadReportFromSupabase (fst (generateUUID plain_rng)) denied_world)
   = [(col_id, fst (generateUUID plain_rng))] /\
   snd (loadReportFromSupabase (fst (generateShortId plain_rng)) denied_world)
   = [(col_short_id, fst (generateShortId plain_rng))]).
Proof.
  apply (generated_keys_routing plain_rng denied_world).
  intros i. reflexivity.
Defined.

(* ================================================================== *)
(** * Products that are rounded *)
(* ================================================================== *)

(** The product of a random number by the length of the alphabet is not
    exact in general.  The lemmas below bound what rounding to nearest can
    add: half a unit in the last place. *)

Lemma shr_1_spec m r s :
  0 <= m ->
  shr_m (shr_1 {| shr_m := m; shr_r := r; shr_s := s |}) = m / 2 /\
  shr_r (shr_1 {| shr_m := m; shr_r := r; shr_s := s |}) = Z.odd m.
Proof.
  intros Hm. rewrite <- Z.div2_div.
  destruct m as [|[p|p|]|]; try lia; split; reflexivity.
Qed.

Lemma iter_shr_1_spec M n :
  let rec := Pos.iter shr_1
               {| shr_m := Z.pos M; shr_r := false; shr_s := false |} n in
  shr_m rec = Z.pos M / 2 ^ Z.pos n /\
  shr_r rec = Z.odd (Z.pos M / 2 ^ (Z.pos n - 1)).
Proof.
  induction n as [|n IH] using Pos.peano_ind.
  - cbn zeta. change (Pos.iter shr_1 ?x 1) with (shr_1 x).
    destruct (shr_1_spec (Z.pos M) false false ltac:(lia)) as [A B].
    rewrite A, B. change (2 ^ (1 - 1)) with 1. rewrite Z.div_1_r.
    split; reflexivity.
  - cbn zeta in *. rewrite Pos.iter_succ.
    destruct (Pos.iter shr_1 _ n) as [m r s]. cbn [shr_m shr_r] in IH.
    destruct IH as [A B].
    assert (P : 0 < 2 ^ Z.pos n) by (apply Z.pow_pos_nonneg; lia).
    assert (Hm : 0 <= m) by (rewrite A; apply Z.div_pos; lia).
    destruct (shr_1_spec m r s Hm) as [A' B']. rewrite A', B', A.
    rewrite Pos2Z.inj_succ, Z.pow_succ_r by lia.
    replace (Z.succ (Z.pos n) - 1) with (Z.pos n) by lia.
    split; [|reflexivity].
    rewrite Z.div_div by lia. f_equal. lia.
Qed.

Lemma round_after_shift M n :
  let rec := Pos.iter shr_1
               {| shr_m := Z.pos M; shr_r := false; shr_s := false |} n in
  let m1 := round_nearest_even (shr_m rec) (loc_of_shr_record rec) in
  Z.pos M / 2 ^ Z.pos n <= m1 <= Z.pos M / 2 ^ Z.pos n + 1 /\
  m1 * 2 ^ Z.pos n <= Z.pos M + 2 ^ (Z.pos n - 1).
Proof.
  cbn zeta. destruct (iter_shr_1_spec M n) as [A B]. cbn zeta in A, B.
  destruct (Pos.iter shr_1 _ n) as [m r s]. cbn [shr_m shr_r] in *.
  assert (P : 0 < 2 ^ (Z.pos n - 1)) by (apply Z.pow_pos_nonneg; lia).
  assert (Q : 2 ^ Z.pos n = 2 * 2 ^ (Z.pos n - 1)).
  { rewrite <- Z.pow_succ_r by lia. f_equal. lia. }
  assert (Lo : m * 2 ^ Z.pos n <= Z.pos M).
  { rewrite A, Z.mul_comm. apply Z.mul_div_le. lia. }
  destruct r.
  - assert (Up : (m + 1) * 2 ^ Z.pos n <= Z.pos M + 2 ^ (Z.pos n - 1)).
    { set (a := Z.pos M / 2 ^ (Z.pos n - 1)) in *.
      assert (Ha : 2 ^ (Z.pos n - 1) * a <= Z.pos M)
        by (apply Z.mul_div_le; lia).
      assert (Hm : m = a / 2).
      { rewrite A, Q. unfold a. rewrite Z.mul_comm, Z.div_div by lia.
        reflexivity. }
      symmetry in B. rewrite Z.odd_spec in B. destruct B as [k Hk].
      assert (m = k) by (rewrite Hm, Hk; symmetry;
                         apply (Z.div_unique _ 2 k 1); lia).
      subst k. rewrite Q. nia. }
    destruct s; cbn [loc_of_shr_record round_nearest_even].
    + rewrite <- A. split; [lia | exact Up].
    + rewrite <- A. destruct (Z.even m); split; try lia; nia.
  - rewrite <- A.
    destruct s; cbn [loc_of_shr_record round_nearest_even]; split; lia.
Qed.

Lemma shr_nonpos mrs e n : n <= 0 -> shr mrs e n = (mrs, e).
Proof. destruct n; try lia; reflexivity. Qed.

Lemma binary_round_aux_upper M E :
  let e1 := fexp prec emax (Z.pos (digits2_pos M) + E) in
  E <= e1 -> e1 <= 970 ->
  binary_round_aux prec emax false (Z.pos M) E loc_Exact = S754_zero false \/
  exists q F,
    binary_round_aux prec emax false (Z.pos M) E loc_Exact
    = S754_finite false q F /\
    e1 <= F <= e1 + 1 /\
    Z.pos q * 2 ^ (F - E) <= Z.pos M + 2 ^ (e1 - E - 1).
Proof.
  intros e1 HE He1.
  assert (Hmin : -1074 <= e1) by (unfold e1, fexp, emin, prec, emax; lia).
  destruct (e1 - E) as [|p|p] eqn:En; try lia.
  - right. exists M, e1. split; [|split; [lia|]].
    + apply binary_round_aux_exact; fold e1; try lia.
      rewrite En. simpl. lia.
    + rewrite En. simpl. lia.
  - destruct (round_after_shift M p) as [[L U] B]. cbn zeta in L, U, B.
    set (m1 := round_nearest_even _ _) in *.
    assert (HR : binary_round_aux prec emax false (Z.pos M) E loc_Exact
                 = let '(mrs, e) := shr_fexp prec emax m1 e1 loc_Exact in
                   match shr_m mrs with
                   | 0 => S754_zero false
                   | Z.pos m =>
                       if e <=? emax - prec then S754_finite false m e
                       else S754_infinity false
                   | Z.neg _ => S754_nan
                   end).
    { unfold binary_round_aux, shr_fexp at 1.
      cbn [Zdigits2 shr_record_of_loc]. fold e1. rewrite En.
      unfold shr at 1. rewrite iter_pos_iter.
      replace (E + Z.pos p) with e1 by lia. reflexivity. }
    rewrite HR. clear HR.
    assert (P : 0 < 2 ^ Z.pos p) by (apply Z.pow_pos_nonneg; lia).
    assert (Hm : Z.pos M / 2 ^ Z.pos p < 2 ^ 53).
    { apply Z.div_lt_upper_bound; [lia|].
      destruct (digits2_pos_bounds M) as [_ UM].
      eapply Z.lt_le_trans; [exact UM|].
      rewrite <- Z.pow_add_r by lia. apply Z.pow_le_mono_r; [lia|].
      unfold e1, fexp, emin, prec, emax in En. lia. }
    assert (H0 : 0 <= Z.pos M / 2 ^ Z.pos p) by (apply Z.div_pos; lia).
    remember (2 ^ 53) as big eqn:Hbig.
    destruct m1 as [|q1|q1] eqn:Em1; [| |lia].
    + left. unfold shr_fexp. cbn [Zdigits2 shr_record_of_loc].
      rewrite shr_nonpos
        by (unfold fexp, emin, prec, emax; lia).
      reflexivity.
    + right. destruct (Z.eq_dec (Z.pos q1) big) as [Eq | Ne].
      * exists 4503599627370496%positive, (e1 + 1).
        assert (Q : q1 = 9007199254740992%positive).
        { apply Pos2Z.inj. rewrite Eq, Hbig. reflexivity. }
        subst q1. split; [|split; [lia|]].
        -- unfold shr_fexp. cbn [Zdigits2 shr_record_of_loc].
           change (Z.pos (digits2_pos 9007199254740992)) with 54.
           replace (fexp prec emax (54 + e1) - e1) with 1
             by (unfold fexp, emin, prec, emax; lia).
           cbn [shr iter_pos shr_1 shr_m].
           unfold emax, prec.
           destruct (Z.leb_spec (e1 + 1) (1024 - 53)); [reflexivity | lia].
        -- replace (e1 + 1 - E) with (Z.succ (Z.pos p)) by lia.
           rewrite Z.pow_succ_r by lia.
           replace (e1 - E - 1) with (Z.pos p - 1) by lia.
           change (Z.pos 9007199254740992) with (2 * 4503599627370496) in B.
           lia.
      * exists q1, e1. split; [|split; [lia|]].
        -- assert (D : Z.pos (digits2_pos q1) <= 53).
           { apply digits2_pos_le; [lia|]. rewrite <- Hbig. lia. }
           unfold shr_fexp. cbn [Zdigits2 shr_record_of_loc].
           rewrite shr_nonpos
             by (unfold fexp, emin, prec, emax; lia).
           cbn [shr_m]. unfold emax, prec.
           destruct (Z.leb_spec e1 (1024 - 53)); [reflexivity | lia].
        -- rewrite En. replace (e1 - E - 1) with (Z.pos p - 1) by lia.
           exact B.
Qed.

Lemma mul_62_below m e :
  e <= -53 -> Z.pos (digits2_pos m) <= 53 ->
  fexp prec emax (Z.pos (digits2_pos m) + e) = e ->
  mul (S754_finite false m e) (of_nat (String.length chars))
  = S754_zero false \/
  exists q F,
    mul (S754_finite false m e) (of_nat (String.length chars))
    = S754_finite false q F /\
    F < 0 /\ Z.pos q < 62 * 2 ^ (- F).
Proof.
  intros He D C.
  change (of_nat (String.length chars))
    with (S754_finite false 8725724278030336 (-47)).
  unfold mul, SFmul. cbn [xorb].
  set (M := (m * 8725724278030336)%positive).
  set (E := e + -47).
  assert (HM : Z.pos M = Z.pos m * (62 * 2 ^ 47)) by (unfold M; reflexivity).
  remember (2 ^ 47) as t47 eqn:H47.
  assert (T47 : 0 < t47) by (subst t47; apply Z.pow_pos_nonneg; lia).
  set (d0 := Z.pos (digits2_pos m)) in *.
  assert (Hd0 : 1 <= d0) by (unfold d0; lia).
  destruct (digits2_pos_bounds m) as [Lm Um]. fold d0 in Lm, Um.
  assert (Emin : -1074 <= e) by (unfold fexp, emin, prec, emax in C; lia).
  assert (DU : Z.pos (digits2_pos M) <= d0 + 53).
  { apply digits2_pos_le; [lia|]. rewrite HM, Z.pow_add_r by lia.
    assert (62 * t47 < 2 ^ 53).
    { subst t47. change (2 ^ 53) with (64 * 2 ^ 47).
      assert (0 < 2 ^ 47) by (apply Z.pow_pos_nonneg; lia). lia. }
    assert (0 < 2 ^ d0) by (apply Z.pow_pos_nonneg; lia). nia. }
  assert (DL : d0 + 52 <= Z.pos (digits2_pos M)).
  { destruct (digits2_pos_bounds M) as [_ UM].
    destruct (Z.le_gt_cases (d0 + 52) (Z.pos (digits2_pos M))) as [|G];
      [assumption|exfalso].
    assert (2 ^ Z.pos (digits2_pos M) <= 2 ^ (d0 - 1 + 52))
      by (apply Z.pow_le_mono_r; lia).
    rewrite Z.pow_add_r in H by lia.
    assert (2 ^ 52 <= 62 * t47).
    { subst t47. change (2 ^ 52) with (32 * 2 ^ 47).
      assert (0 < 2 ^ 47) by (apply Z.pow_pos_nonneg; lia). lia. }
    assert (0 < 2 ^ (d0 - 1)) by (apply Z.pow_pos_nonneg; lia). nia. }
  pose proof (binary_round_aux_upper M E) as R. cbn zeta in R.
  set (e1 := fexp prec emax (Z.pos (digits2_pos M) + E)) in *.
  assert (He1 : E <= e1 <= -47 /\ e1 - E <= 53).
  { unfold e1, fexp, emin, prec, emax, E. lia. }
  destruct R as [R | (q & F & R & HF & B)]; [lia | lia | left; exact R |].
  right. exists q, F. split; [exact R|]. split; [lia|].
  assert (Pw : 2 ^ (e1 - E - 1) <= 32 * t47).
  { destruct (Z.eq_dec (e1 - E) 0) as [Z0 | NZ].
    - replace (e1 - E - 1) with (-1) by lia. change (2 ^ (-1)) with 0. lia.
    - subst t47. change (32 * 2 ^ 47) with (2 ^ 52).
      apply Z.pow_le_mono_r; lia. }
  assert (Hme : Z.pos m + 1 <= 2 ^ (- e)).
  { assert (2 ^ d0 <= 2 ^ (- e)) by (apply Z.pow_le_mono_r; lia). lia. }
  assert (S : 62 * 2 ^ (- F) * 2 ^ (F - E) = 62 * t47 * 2 ^ (- e)).
  { rewrite <- Z.mul_assoc, <- Z.pow_add_r by lia.
    replace (- F + (F - E)) with (47 + - e) by (unfold E; lia).
    rewrite Z.pow_add_r by lia. subst t47. lia. }
  assert (PF : 0 < 2 ^ (F - E)) by (apply Z.pow_pos_nonneg; lia).
  apply (Z.mul_lt_mono_pos_r (2 ^ (F - E))); [exact PF|].
  rewrite S. eapply Z.le_lt_trans; [exact B|]. rewrite HM. nia.
Qed.

Lemma charAt_index k :
  0 <= k <= 61 -> matches [is_alnum] (charAt chars (of_Z k)) = true.
Proof.
  intros H.
  assert (A : forallb (fun n => matches [is_alnum]
                                  (charAt chars (of_Z (Z.of_nat n))))
                      (seq 0 62) = true) by (vm_compute; reflexivity).
  rewrite forallb_forall in A.
  rewrite <- (Z2Nat.id k) by lia. apply A. apply in_seq. lia.
Qed.

Lemma random_char x :
  in_unit_interval x = true ->
  matches [is_alnum]
    (charAt chars (Math_floor (mul x (of_nat (String.length chars))))) = true.
Proof.
  intros H. destruct (in_unit_interval_cases x H)
    as [[s ->] | (m & e & -> & He & D & C)].
  - destruct s; vm_compute; reflexivity.
  - destruct (mul_62_below m e He D C) as [-> | (q & F & -> & HF & Hq)];
      [vm_compute; reflexivity|].
    unfold Math_floor, floor_Z, signed.
    destruct (Z.leb_spec 0 F); [lia|].
    rewrite Z.shiftr_div_pow2 by lia.
    assert (0 < 2 ^ (- F)) by (apply Z.pow_pos_nonneg; lia).
    apply charAt_index. split; [apply Z.div_pos; lia|].
    apply Z.lt_succ_r. apply Z.div_lt_upper_bound; lia.
Qed.

Lemma shortId_loop_matches n : forall pat result g,
  fair g -> matches pat result = true ->
  matches (pat ++ repeat is_alnum n) (fst (shortId_loop n result g)) = true.
Proof.
  induction n as [|n IH]; intros pat result g Hg Hr.
  - simpl. rewrite app_nil_r. exact Hr.
  - cbn [shortId_loop]. unfold Math_random.
    change (repeat is_alnum (S n)) with ([is_alnum] ++ repeat is_alnum n)%list.
    rewrite app_assoc. apply IH.
    + intros i. apply Hg.
    + apply matches_app; [exact Hr | apply random_char; apply Hg].
Qed.

Lemma generateShortId_matches g :
  fair g -> matches shortId_pattern (fst (generateShortId g)) = true.
Proof.
  intros Hg. apply (shortId_loop_matches 9 [] EmptyString g Hg). reflexivity.
Qed.

Lemma matches_length pat : forall s,
  matches pat s = true -> String.length s = length pat.
Proof.
  induction pat as [|p pat IH]; intros [|c s]; simpl; try discriminate;
    [reflexivity|].
  intros H. apply andb_true_iff in H as [_ H]. rewrite (IH s H). reflexivity.
Qed.

Lemma shortId_loop_draws n : forall result g,
  random_next (snd (shortId_loop n result g)) = (random_next g + n)%nat /\
  entropy_next (snd (shortId_loop n result g)) = entropy_next g.
Proof.
  induction n as [|n IH]; intros result g; [simpl; split; lia|].
  cbn [shortId_loop]. unfold Math_random.
  match goal with
  | |- context [shortId_loop n ?r ?g1] => destruct (IH r g1) as [A B]
  end.
  rewrite A, B. simpl. split; lia.
Qed.

(* ================================================================== *)
(** * Shapes of the generated keys *)
(* ================================================================== *)

(** X1.  [generateShortId]: when [Math.random] answers numbers at least 0
    and less than 1, the index [Math.floor(Math.random() * chars.length)]
    always falls inside the alphabet, also after the product has been
    rounded: the short key is made of exactly nine characters, each a letter
    or a digit, and costs nine draws of [Math.random] and none of the secure
    source. *)
Theorem short_key_shape g :
  fair g ->
  matches shortId_pattern (fst (generateShortId g)) = true /\
  String.length (fst (generateShortId g)) = 9%nat /\
  random_next (snd (generateShortId g)) = (random_next g + 9)%nat /\
  entropy_next (snd (generateShortId g)) = entropy_next g.
Proof.
  intros Hg. pose proof (generateShortId_matches g Hg) as M.
  split; [exact M|]. split; [apply (matches_length _ _ M)|].
  apply shortId_loop_draws.
Qed.

Lemma short_key_shape_witness :
  matches shortId_pattern (fst (generateShortId plain_rng)) = true /\
  String.length (fst (generateShortId plain_rng)) = 9%nat /\
  random_next (snd (generateShortId plain_rng))
  = (random_next plain_rng + 9)%nat /\
  entropy_next (snd (generateShortId plain_rng)) = entropy_next plain_rng.
Proof.
  apply (short_key_shape plain_rng). intros i. reflexivity.
Defined.

(** ** Version and variant of the primary key *)

Lemma toString16_lower v :
  0 <= v <= 15 -> matches [is_lower_hex] (toString16 v) = true.
Proof.
  intros H.
  assert (C : v = 0 \/ v = 1 \/ v = 2 \/ v = 3 \/ v = 4 \/ v = 5 \/ v = 6
              \/ v = 7 \/ v = 8 \/ v = 9 \/ v = 10 \/ v = 11 \/ v = 12
              \/ v = 13 \/ v = 14 \/ v = 15) by lia.
  repeat (destruct C as [-> | C]; [reflexivity|]). subst v. reflexivity.
Qed.

Lemma toString16_variant r :
  0 <= r <= 15 -> matches [is_variant] (toString16 (bor (band r 3) 8)) = true.
Proof.
  intros H.
  assert (C : r = 0 \/ r = 1 \/ r = 2 \/ r = 3 \/ r = 4 \/ r = 5 \/ r = 6
              \/ r = 7 \/ r = 8 \/ r = 9 \/ r = 10 \/ r = 11 \/ r = 12
              \/ r = 13 \/ r = 14 \/ r = 15) by lia.
  repeat (destruct C as [-> | C]; [reflexivity|]). subst r. reflexivity.
Qed.

Lemma uuid_digit_x x :
  in_unit_interval x = true ->
  matches [is_lower_hex] (uuid_digit "x" x) = true.
Proof.
  intros H. unfold uuid_digit. pose proof (random_nibble x H) as R.
  cbv zeta. change (Ascii.eqb "x" "x") with true. cbv iota.
  unfold bor. rewrite Z.lor_0_r. apply toString16_lower. exact R.
Qed.

Lemma uuid_digit_y x :
  in_unit_interval x = true ->
  matches [is_variant] (uuid_digit "y" x) = true.
Proof.
  intros H. unfold uuid_digit. pose proof (random_nibble x H) as R.
  cbv zeta. change (Ascii.eqb "y" "x") with false. cbv iota.
  replace (bor (ToInt32 (mul x (of_Z 16))) 0)
    with (ToInt32 (mul x (of_Z 16))) by (unfold bor; rewrite Z.lor_0_r;
                                         reflexivity).
  apply toString16_variant. exact R.
Qed.

Lemma replace_xy_v4 template : forall g,
  fair g ->
  matches (map v4_class (list_ascii_of_string template))
          (fst (replace_xy template g)) = true.
Proof.
  induction template as [|c rest IH]; intros g Hg; [reflexivity|].
  cbn [replace_xy list_ascii_of_string map]. unfold v4_class at 1.
  destruct (Ascii.eqb_spec c "x") as [-> | Nx].
  - cbn [orb].
    pose proof (Math_random_fair g Hg) as Hx.
    pose proof (fair_Math_random g Hg) as Hg1.
    destruct (Math_random g) as [x g1]. cbn [fst snd] in *.
    specialize (IH g1 Hg1).
    destruct (replace_xy rest g1) as [out g2]. cbn [fst] in *.
    apply (matches_app [is_lower_hex] _ (uuid_digit "x" x) out);
      [apply uuid_digit_x; exact Hx | exact IH].
  - cbn [orb]. destruct (Ascii.eqb_spec c "y") as [-> | Ny].
    + pose proof (Math_random_fair g Hg) as Hx.
      pose proof (fair_Math_random g Hg) as Hg1.
      destruct (Math_random g) as [x g1]. cbn [fst snd] in *.
      specialize (IH g1 Hg1).
      destruct (replace_xy rest g1) as [out g2]. cbn [fst] in *.
      apply (matches_app [is_variant] _ (uuid_digit "y" x) out);
        [apply uuid_digit_y; exact Hx | exact IH].
    + specialize (IH g Hg).
      destruct (replace_xy rest g) as [out g2]. cbn [fst matches] in *.
      rewrite Ascii.eqb_refl. exact IH.
Qed.

Lemma template_refines_v4 :
  Forall2 (fun a b : ascii -> bool => forall c, a c = true -> b c = true)
    (map v4_class (list_ascii_of_string uuid_template)) uuid_v4_pattern.
Proof.
  repeat (constructor;
          [intros c H; try exact H;
           apply Ascii.eqb_eq in H; subst c; reflexivity|]).
  constructor.
Qed.

Lemma hex_byte_lower (b : Byte.byte) :
  matches [is_lower_hex; is_lower_hex] (hex_byte (Byte.to_N b)) = true.
Proof. destruct b; reflexivity. Qed.

Lemma hex_byte_four (b : Byte.byte) :
  matches [is_four; is_lower_hex]
    (hex_byte (N.lor (N.land (Byte.to_N b) 15) 64)) = true.
Proof. destruct b; reflexivity. Qed.

Lemma hex_byte_10 (b : Byte.byte) :
  matches [is_variant; is_lower_hex]
    (hex_byte (N.lor (N.land (Byte.to_N b) 63) 128)) = true.
Proof. destruct b; reflexivity. Qed.

Lemma secure_uuid_v4 g :
  matches uuid_v4_pattern (fst (crypto_randomUUID g)) = true.
Proof.
  unfold crypto_randomUUID. cbn [fst hex_bytes].
  change uuid_v4_pattern with
    ((([is_lower_hex; is_lower_hex] ++ [is_lower_hex; is_lower_hex]
         ++ [is_lower_hex; is_lower_hex] ++ [is_lower_hex; is_lower_hex]
         ++ [])
        ++ [is_dash]
        ++ ([is_lower_hex; is_lower_hex] ++ [is_lower_hex; is_lower_hex]
              ++ [])
        ++ [is_dash]
        ++ ([is_four; is_lower_hex] ++ [is_lower_hex; is_lower_hex] ++ [])
        ++ [is_dash]
        ++ ([is_variant; is_lower_hex] ++ [is_lower_hex; is_lower_hex]
              ++ [])
        ++ [is_dash]
        ++ ([is_lower_hex; is_lower_hex] ++ [is_lower_hex; is_lower_hex]
              ++ [is_lower_hex; is_lower_hex] ++ [is_lower_hex; is_lower_hex]
              ++ [is_lower_hex; is_lower_hex] ++ [is_lower_hex; is_lower_hex]
              ++ []))%list).
  repeat first
    [ apply matches_app
    | apply hex_byte_lower
    | apply hex_byte_four
    | apply hex_byte_10
    | apply matches_dash_string
    | reflexivity ].
Qed.

Lemma matches_get pat : forall s i p,
  matches pat s = true -> nth_error pat i = Some p ->
  exists c, String.get i s = Some c /\ p c = true.
Proof.
  induction pat as [|q pat IH]; intros [|c s] [|i] p M N; simpl in *;
    try discriminate.
  - apply andb_true_iff in M as [Hq _]. injection N as <-.
    exists c. split; [reflexivity | exact Hq].
  - apply andb_true_iff in M as [_ M]. exact (IH s i p M N).
Qed.

(** X2.  [generateUUID]: on the path of the secure generator and on the path
    of [Math.random] alike, the primary key is a version 4 key written in
    lowercase: 36 characters, the digit 4 at offset 14 and one of the digits
    8, 9, a, b at offset 19. *)
Theorem uuid_v4_shape g :
  fair g ->
  matches uuid_v4_pattern (fst (generateUUID g)) = true /\
  String.get 14 (fst (generateUUID g)) = Some "4"%char /\
  (exists c, String.get 19 (fst (generateUUID g)) = Some c /\
             is_variant c = true).
Proof.
  intros Hg.
  assert (M : matches uuid_v4_pattern (fst (generateUUID g)) = true).
  { unfold generateUUID. destruct (secure g).
    - apply secure_uuid_v4.
    - apply (matches_weaken _ _ _ template_refines_v4).
      apply replace_xy_v4. exact Hg. }
  split; [exact M|]. split.
  - destruct (matches_get _ _ 14%nat is_four M eq_refl) as (c & G & Hc).
    apply Ascii.eqb_eq in Hc. subst c. exact G.
  - exact (matches_get _ _ 19%nat is_variant M eq_refl).
Qed.

Lemma uuid_v4_shape_witness :
  matches uuid_v4_pattern (fst (generateUUID secure_rng)) = true /\
  String.get 14 (fst (generateUUID secure_rng)) = Some "4"%char /\
  (exists c, String.get 19 (fst (generateUUID secure_rng)) = Some c /\
             is_variant c = true).
Proof.
  apply (uuid_v4_shape secure_rng). intros i. reflexivity.
Defined.

(* ================================================================== *)
(** * Further properties of the mutators *)
(* ================================================================== *)

(** ** The rollup after a status change *)

(** X3.  [updateItemStatus] computes the status of every section bearing
    [sectionId] afresh from the items it leaves there, whatever the status
    stored before (a stale one included, as [handleAddItem] leaves behind):
    [completed] iff no item is [untouched], [pending] iff there is an item
    and every item is [untouched], [in_progress] otherwise.  Hidden items
    count like the others. *)
Theorem status_update_rollup sid iid st d :
  exists d',
    updateItemStatus sid iid st (Some d) = Some d' /\
    forall s', In s' (sections d') -> sec_id s' = sid ->
      (sec_status s' = completed <-> all_touched (sec_items s')) /\
      (sec_status s' = pending <->
         sec_items s' <> [] /\ all_untouched (sec_items s')) /\
      (sec_status s' = in_progress <->
         ~ all_touched (sec_items s') /\ ~ all_untouched (sec_items s')).
Proof.
  eexists. split; [reflexivity|]. intros s' Hin Hid. simpl in Hin.
  apply in_map_iff in Hin as (s & <- & _).
  destruct (String.eqb_spec (sec_id s) sid) as [E|E]; simpl in *.
  - rewrite newStatus_completed, newStatus_pending, newStatus_in_progress.
    repeat split; tauto.
  - contradiction.
Qed.

(** X4.  Setting the same status twice is the same as setting it once. *)
Theorem status_update_idempotent sid iid st inspection :
  updateItemStatus sid iid st (updateItemStatus sid iid st inspection)
  = updateItemStatus sid iid st inspection.
Proof.
  destruct inspection as [d|]; [|reflexivity]. simpl. f_equal.
  unfold with_sections. simpl. f_equal. rewrite map_map. apply map_ext.
  intros s. destruct (String.eqb_spec (sec_id s) sid) as [E|E]; simpl.
  - destruct (String.eqb_spec (sec_id s) sid); [|contradiction]. simpl.
    assert (M : map (fun item => if (item_id item =? iid)%string
                                 then with_status item st else item)
                    (map (fun item => if (item_id item =? iid)%string
                                      then with_status item st else item)
                         (sec_items s))
                = map (fun item => if (item_id item =? iid)%string
                                   then with_status item st else item)
                      (sec_items s)).
    { rewrite map_map. apply map_ext. intros i.
      destruct (item_id i =? iid)%string eqn:Ei; simpl; rewrite Ei;
        reflexivity. }
    unfold with_items_status. simpl. rewrite M. reflexivity.
  - destruct (String.eqb_spec (sec_id s) sid); [contradiction|]. reflexivity.
Qed.

(* ================================================================== *)
(** * The views *)
(* ================================================================== *)

Lemma filter_flat_map {A B : Type} (p : B -> bool) (f : A -> list B) l :
  filter p (flat_map f l) = flat_map (fun x => filter p (f x)) l.
Proof.
  induction l as [|x l IH]; simpl; [reflexivity|].
  rewrite filter_app, IH. reflexivity.
Qed.

Lemma visible_items_sections d :
  visible_items d = flat_map activeItems (sections d).
Proof. unfold visible_items. apply filter_flat_map. Qed.

Lemma length_flat_map {A B : Type} (f : A -> list B) l :
  length (flat_map f l) = list_sum (map (fun x => length (f x)) l).
Proof.
  induction l as [|x l IH]; simpl; [reflexivity|].
  rewrite length_app, IH. reflexivity.
Qed.

Lemma fold_left_count {A : Type} (f : A -> nat) l : forall acc,
  fold_left (fun a x => a + Z.of_nat (f x)) l acc
  = acc + Z.of_nat (list_sum (map f l)).
Proof.
  induction l as [|x l IH]; intros acc; simpl; [lia|].
  rewrite IH. lia.
Qed.

(** A figure of the summary is the number of visible items that satisfy its
    test. *)
Lemma reduce_count_filter p d :
  reduce_count (fun s => length (filter p (sec_items s))) (report_sections d)
  = Z.of_nat (length (filter p (visible_items d))).
Proof.
  unfold reduce_count, report_sections. rewrite fold_left_count, map_map.
  simpl. f_equal. rewrite visible_items_sections, filter_flat_map.
  rewrite length_flat_map. reflexivity.
Qed.

Lemma summary_total_visible d :
  summary_total d = Z.of_nat (length (visible_items d)).
Proof.
  unfold summary_total, reduce_count, report_sections.
  rewrite fold_left_count, map_map. simpl. f_equal.
  rewrite visible_items_sections, length_flat_map. reflexivity.
Qed.

(** Every status falls under exactly one of the four tests. *)
Lemma status_partition its :
  length its
  = (length (filter is_pass its) + length (filter is_issue its)
     + length (filter is_info its) + length (filter is_untouched its))%nat.
Proof.
  induction its as [|i its IH]; simpl; [reflexivity|].
  unfold is_pass at 1, is_issue at 1, is_info at 1, is_untouched at 1.
  destruct (item_status i); simpl; lia.
Qed.

Lemma rated_count its :
  (length (filter rated its) + length (filter is_untouched its))%nat
  = length its.
Proof.
  induction its as [|i its IH]; simpl; [reflexivity|].
  unfold rated at 1. destruct (is_untouched i); simpl; lia.
Qed.

Lemma summary_remaining_count d :
  summary_remaining d
  = Z.of_nat (length (filter is_untouched (visible_items d))).
Proof.
  unfold summary_remaining, summary_passed, summary_issues, summary_info.
  rewrite summary_total_visible, !reduce_count_filter.
  pose proof (status_partition (visible_items d)). lia.
Qed.

(** X5.  The report summary: "Total Items" is the number of visible items
    and "Remaining" is the number of visible items still [untouched]; so
    "Remaining" is never negative and never exceeds the total, and "Passed",
    "Issues Found", the informational items and "Remaining" add up to the
    total. *)
Theorem summary_remaining_untouched d :
  summary_total d = Z.of_nat (length (visible_items d)) /\
  summary_remaining d
  = Z.of_nat (length (filter is_untouched (visible_items d))) /\
  0 <= summary_remaining d <= summary_total d /\
  summary_passed d + summary_issues d + summary_info d + summary_remaining d
  = summary_total d.
Proof.
  pose proof (summary_remaining_count d) as R.
  split; [apply summary_total_visible|]. split; [exact R|]. split.
  - rewrite R, summary_total_visible.
    pose proof (count_untouched_le (visible_items d)). lia.
  - unfold summary_remaining. lia.
Qed.

(** X6.  The progress of the dashboard is the percentage of the summary's
    figures: [(total - remaining) / total * 100], rounded; 0 when the total
    is 0. *)
Theorem progress_from_summary d :
  calculateProgress (Some d)
  = if summary_total d =? 0 then of_Z 0
    else Math_round
           (mul (div (of_Z (summary_total d - summary_remaining d))
                     (of_Z (summary_total d)))
                (of_Z 100)).
Proof.
  rewrite calculateProgress_unfold.
  pose proof (summary_remaining_count d) as R.
  rewrite R, summary_total_visible.
  pose proof (rated_count (visible_items d)) as C.
  replace (Z.of_nat (length (visible_items d))
           - Z.of_nat (length (filter is_untouched (visible_items d))))
    with (Z.of_nat (length (filter rated (visible_items d)))) by lia.
  unfold of_nat.
  destruct (length (visible_items d)) as [|n]; reflexivity.
Qed.

(** X7.  The cards of the dashboard add up to the progress: the numbers of
    active items of the sections sum to the total the progress divides by,
    and their done counts sum to the number it divides; no card shows more
    done than active. *)
Theorem cards_sum_to_progress d :
  length (visible_items d)
  = list_sum (map (fun s => length (activeItems s)) (sections d)) /\
  length (filter rated (visible_items d))
  = list_sum (map doneCount (sections d)) /\
  Forall (fun s => (doneCount s <= length (activeItems s))%nat) (sections d).
Proof.
  rewrite visible_items_sections. split; [apply length_flat_map|]. split.
  - rewrite filter_flat_map, length_flat_map. reflexivity.
  - apply Forall_forall. intros s _. unfold doneCount.
    pose proof (rated_count (activeItems s)). unfold rated in H. lia.
Qed.

(** ** Cards and header of a section *)

Lemma filter_filter {A : Type} (p q : A -> bool) l :
  filter q (filter p l) = filter (fun x => (p x && q x)%bool) l.
Proof.
  induction l as [|x l IH]; simpl; [reflexivity|].
  destruct (p x); simpl; [destruct (q x)|]; rewrite IH; reflexivity.
Qed.

Lemma doneCount_all s :
  all_touched (sec_items s) -> doneCount s = length (activeItems s).
Proof.
  intros H. unfold doneCount. f_equal. apply filter_rated_all.
  unfold activeItems. apply Forall_forall. intros i Hi.
  apply filter_In in Hi as [Hi _].
  unfold all_touched in H. rewrite Forall_forall in H. exact (H i Hi).
Qed.

Lemma doneCount_none s :
  all_untouched (sec_items s) -> doneCount s = 0%nat.
Proof.
  intros H. unfold doneCount.
  replace (filter (fun i => negb (is_untouched i)) (activeItems s))
    with (filter rated (activeItems s)) by reflexivity.
  rewrite filter_rated_none; [reflexivity|].
  unfold activeItems. apply Forall_forall. intros i Hi.
  apply filter_In in Hi as [Hi _].
  unfold all_untouched in H. rewrite Forall_forall in H. exact (H i Hi).
Qed.

(** X8.  The card of a section whose stored status is the rollup of its items
    (as it is after every status change): when the status is [completed]
    the card shows every active item done, and when it is [pending] it shows
    none done. *)
Theorem card_of_rolled_up_section s :
  sec_status s = newStatus (sec_items s) ->
  (sec_status s = completed -> doneCount s = length (activeItems s)) /\
  (sec_status s = pending -> doneCount s = 0%nat).
Proof.
  intros E. rewrite E. split; intros H.
  - apply doneCount_all. apply newStatus_completed. exact H.
  - apply doneCount_none. apply newStatus_pending in H. tauto.
Qed.

Lemma card_of_rolled_up_section_witness :
  (sec_status roof_section = completed ->
   doneCount roof_section = length (activeItems roof_section)) /\
  (sec_status roof_section = pending -> doneCount roof_section = 0%nat).
Proof.
  apply (card_of_rolled_up_section roof_section). reflexivity.
Defined.

Lemma header_matches_card_counts a d s :
  active_section a d = Some s ->
  header_inspected a d = Some (doneCount s) /\
  header_total a d = Some (length (activeItems s)).
Proof.
  intros E. unfold header_inspected, header_total. rewrite E. simpl.
  split; [|reflexivity]. unfold doneCount, activeItems.
  rewrite filter_filter. reflexivity.
Qed.

(** X9.  The header of the section view shows the counts of the card of the
    same section ("x of y inspected" is the done count and the number of
    active items of the first section bearing the active identifier), and
    its progress bar never divides by zero: the width is 0 when no section
    is active, when the active section shows no item, and when none of the
    items it shows is inspected; it is 100 when every item it shows is
    inspected, there being at least one. *)
Theorem section_header_and_bar a d :
  (forall n, header_total a d = Some n -> Z.of_nat n < 2 ^ 53) ->
  (forall s, active_section a d = Some s ->
             header_inspected a d = Some (doneCount s) /\
             header_total a d = Some (length (activeItems s))) /\
  (active_section a d = None -> bar_width a d = of_Z 0) /\
  (header_total a d = Some 0%nat -> bar_width a d = of_Z 0) /\
  (header_inspected a d = Some 0%nat -> bar_width a d = of_Z 0) /\
  (forall n, header_total a d = Some (S n) ->
             header_inspected a d = Some (S n) ->
             bar_width a d = of_Z 100).
Proof.
  intros Hb. split; [exact (header_matches_card_counts a d)|].
  unfold bar_width.
  split; [|split; [|split]].
  - intros E. unfold header_inspected, header_total. rewrite E. reflexivity.
  - intros E. rewrite E.
    destruct (active_section a d) as [s|] eqn:Es;
      [|unfold header_total in E; rewrite Es in E; discriminate].
    destruct (header_matches_card_counts a d s Es) as [Hi Ht].
    rewrite Hi. rewrite Ht in E. injection E as E.
    assert (doneCount s = 0)%nat.
    { unfold doneCount. pose proof (rated_count (activeItems s)) as C.
      unfold rated in C. lia. }
    rewrite H. reflexivity.
  - intros E. rewrite E.
    destruct (header_total a d) as [[|n]|] eqn:Et; try reflexivity.
    destruct (of_nat_finite (S n) ltac:(lia) (Hb _ eq_refl)) as (m & e & Ef).
    unfold count_or. rewrite Ef. reflexivity.
  - intros n Et Ei. rewrite Et, Ei.
    destruct (of_nat_finite (S n) ltac:(lia) (Hb _ Et)) as (m & e & Ef).
    unfold count_or. rewrite Ef, div_self. reflexivity.
Qed.

Lemma section_header_and_bar_witness :
  (forall s, active_section (Some "section-0-0") roof_doc = Some s ->
             header_inspected (Some "section-0-0") roof_doc
             = Some (doneCount s) /\
             header_total (Some "section-0-0") roof_doc
             = Some (length (activeItems s))) /\
  (active_section (Some "section-0-0") roof_doc = None ->
   bar_width (Some "section-0-0") roof_doc = of_Z 0) /\
  (header_total (Some "section-0-0") roof_doc = Some 0%nat ->
   bar_width (Some "section-0-0") roof_doc = of_Z 0) /\
  (header_inspected (Some "section-0-0") roof_doc = Some 0%nat ->
   bar_width (Some "section-0-0") roof_doc = of_Z 0) /\
  (forall n, header_total (Some "section-0-0") roof_doc = Some (S n) ->
             header_inspected (Some "section-0-0") roof_doc = Some (S n) ->
             bar_width (Some "section-0-0") roof_doc = of_Z 100).
Proof.
  apply (section_header_and_bar (Some "section-0-0") roof_doc).
  intros n H. vm_compute in H. injection H as <-. reflexivity.
Defined.

(** ** What the views depend on *)

Lemma statuses_of_visible d :
  map item_status (visible_items d) = concat (visible_statuses d).
Proof.
  rewrite visible_items_sections, flat_map_concat_map, concat_map, map_map.
  reflexivity.
Qed.

Lemma count_statuses (q : ItemStatus -> bool) : forall l l',
  map item_status l = map item_status l' ->
  length (filter (fun i => q (item_status i)) l)
  = length (filter (fun i => q (item_status i)) l').
Proof.
  induction l as [|x l IH]; intros [|y l'] H; simpl in *; try discriminate;
    [reflexivity|].
  injection H as Hxy H. rewrite Hxy.
  destruct (q (item_status y)); simpl; rewrite (IH l' H); reflexivity.
Qed.

(** The progress and the figures of the summary depend on the statuses of the
    visible items only. *)
Lemma views_of_statuses d d' :
  visible_statuses d' = visible_statuses d ->
  calculateProgress (Some d') = calculateProgress (Some d) /\
  summary_total d' = summary_total d /\
  summary_passed d' = summary_passed d /\
  summary_issues d' = summary_issues d /\
  summary_remaining d' = summary_remaining d.
Proof.
  intros H.
  assert (M : map item_status (visible_items d')
              = map item_status (visible_items d))
    by (rewrite !statuses_of_visible, H; reflexivity).
  assert (L : length (visible_items d') = length (visible_items d)).
  { rewrite <- (length_map item_status (visible_items d')), M.
    apply length_map. }
  split; [|split; [|split; [|split]]].
  - rewrite !calculateProgress_unfold, L.
    rewrite (count_statuses (fun st => negb (ItemStatus_eqb st untouched))
               _ _ M : length (filter rated (visible_items d'))
                       = length (filter rated (visible_items d))).
    reflexivity.
  - rewrite !summary_total_visible, L. reflexivity.
  - unfold summary_passed. rewrite !reduce_count_filter. f_equal.
    exact (count_statuses (fun st => ItemStatus_eqb st pass) _ _ M).
  - unfold summary_issues. rewrite !reduce_count_filter. f_equal.
    exact (count_statuses
             (fun x => existsb (fun st => ItemStatus_eqb st x)
                               [attention; moderate; dangerous]) _ _ M).
  - rewrite !summary_remaining_count. f_equal.
    exact (count_statuses (fun st => ItemStatus_eqb st untouched) _ _ M).
Qed.

Lemma visible_statuses_map g d :
  (forall s, In s (sections d) ->
             map item_status (activeItems (g s))
             = map item_status (activeItems s)) ->
  visible_statuses (with_sections d (map g (sections d)))
  = visible_statuses d.
Proof.
  intros H. unfold visible_statuses. simpl. rewrite map_map.
  apply map_ext_in. exact H.
Qed.

Lemma active_statuses_map f l :
  (forall i, In i l -> hidden i = false ->
             item_status (f i) = item_status i) ->
  (forall i, In i l -> hidden (f i) = hidden i) ->
  map item_status (filter shown (map f l)) = map item_status (filter shown l).
Proof.
  induction l as [|x l IH]; intros Hs Hh; simpl; [reflexivity|].
  assert (Ex : shown (f x) = shown x)
    by (unfold shown; rewrite (Hh x) by (left; reflexivity); reflexivity).
  assert (IH' : map item_status (filter shown (map f l))
                = map item_status (filter shown l)).
  { apply IH; [intros i Hi V; apply Hs | intros i Hi; apply Hh];
      try (right; exact Hi); exact V. }
  rewrite Ex. destruct (shown x) eqn:Sx; simpl; [|exact IH'].
  assert (Vx : hidden x = false).
  { unfold shown in Sx. destruct (hidden x); [discriminate | reflexivity]. }
  rewrite (Hs x (or_introl eq_refl) Vx), IH'. reflexivity.
Qed.

Lemma visible_statuses_patch sid f d :
  (forall i, item_status (f i) = item_status i) ->
  (forall i, hidden (f i) = hidden i) ->
  visible_statuses (patch_items sid f d) = visible_statuses d.
Proof.
  intros Hs Hh. unfold patch_items. apply visible_statuses_map.
  intros s _. destruct (negb _); [reflexivity|].
  unfold activeItems. simpl. apply active_statuses_map; auto.
Qed.

Lemma on_item_hidden iid f :
  (forall i, hidden (f i) = hidden i) ->
  forall i, hidden (on_item iid f i) = hidden i.
Proof. intros Hf i. unfold on_item. destruct (_ =? _)%string; auto. Qed.

Ltac keeps_view :=
  eexists; split; [reflexivity|];
  apply visible_statuses_patch;
  [ try apply on_item_status | try apply on_item_hidden ]; reflexivity.

Lemma content_only_statuses a d :
  content_only a = true ->
  exists d', step a (Some d) = Some d' /\
             visible_statuses d' = visible_statuses d /\
             map sec_status (sections d') = map sec_status (sections d).
Proof.
  intros C.
  assert (K : forall sid f,
             (forall i, item_status (f i) = item_status i) ->
             (forall i, hidden (f i) = hidden i) ->
             visible_statuses (patch_items sid f d) = visible_statuses d /\
             map sec_status (sections (patch_items sid f d))
             = map sec_status (sections d)).
  { intros sid f Hs Hh. split; [apply visible_statuses_patch; assumption|].
    unfold patch_items. simpl. rewrite map_map. apply map_ext.
    intros s. destruct (negb _); reflexivity. }
  destruct a; simpl in C; try discriminate; unfold step.
  - rewrite updateItemOption_patch. eexists. split; [reflexivity|].
    apply K; [apply on_item_status | apply on_item_hidden]; reflexivity.
  - rewrite updateItemNote_patch. eexists. split; [reflexivity|].
    apply K; [apply on_item_status | apply on_item_hidden]; reflexivity.
  - rewrite processImageAnalysis_patch.
    destruct (analysis_target _ _ _).
    + eexists. split; [reflexivity|].
      apply K; [apply on_item_status | apply on_item_hidden]; reflexivity.
    + eexists. split; [reflexivity|]. split; reflexivity.
  - destruct cameraTarget as [t|];
      [|eexists; split; [reflexivity | split; reflexivity]].
    eexists. split; [reflexivity|]. split.
    + apply visible_statuses_map. intros s _.
      destruct (negb _); [reflexivity|].
      destruct (truthy_opt _); [|reflexivity].
      unfold activeItems. simpl.
      apply active_statuses_map; [intros i _ _ | intros i _];
        destruct (target_itemId t) as [iid|];
        try destruct (item_id i =? iid)%string; reflexivity.
    + simpl. rewrite map_map. apply map_ext. intros s.
      destruct (negb _); [reflexivity|].
      destruct (truthy_opt _); reflexivity.
  - rewrite deletePhoto_patch. eexists. split; [reflexivity|].
    apply K; [apply on_item_status | apply on_item_hidden]; reflexivity.
  - eexists. split; [reflexivity|]. split; reflexivity.
Qed.

(** X10.  Choosing an option, writing a note (typed or from the image
    analysis), adding or removing a photo and recording the saved keys change
    no figure: the progress, the four figures of the summary and the status
    of every section are what they were. *)
Theorem content_keeps_progress a d :
  content_only a = true ->
  exists d',
    step a (Some d) = Some d' /\
    calculateProgress (Some d') = calculateProgress (Some d) /\
    summary_total d' = summary_total d /\
    summary_passed d' = summary_passed d /\
    summary_issues d' = summary_issues d /\
    summary_remaining d' = summary_remaining d /\
    map sec_status (sections d') = map sec_status (sections d).
Proof.
  intros C. destruct (content_only_statuses a d C) as (d' & E & V & S).
  exists d'. split; [exact E|].
  destruct (views_of_statuses d d' V) as (P & T & Pa & I & R).
  repeat split; assumption.
Qed.

Lemma content_keeps_progress_witness :
  exists d',
    step (SetItemNotes "section-0-0" "item-0-0" "Two shingles missing")
         (Some roof_doc) = Some d' /\
    calculateProgress (Some d') = calculateProgress (Some roof_doc) /\
    summary_total d' = summary_total roof_doc /\
    summary_passed d' = summary_passed roof_doc /\
    summary_issues d' = summary_issues roof_doc /\
    summary_remaining d' = summary_remaining roof_doc /\
    map sec_status (sections d') = map sec_status (sections roof_doc).
Proof.
  apply (content_keeps_progress
           (SetItemNotes "section-0-0" "item-0-0" "Two shingles missing")
           roof_doc).
  reflexivity.
Defined.

(** X11.  Hidden items do not count: a status change that names hidden items
    only changes neither the progress nor a figure of the summary (it does
    roll the status of the section up again, for the rollup counts hidden
    items). *)
Theorem hidden_status_keeps_progress sid iid st d :
  (forall s i, In s (sections d) -> In i (sec_items s) ->
               targeted sid iid s i = true -> hidden i = true) ->
  exists d',
    updateItemStatus sid iid st (Some d) = Some d' /\
    calculateProgress (Some d') = calculateProgress (Some d) /\
    summary_total d' = summary_total d /\
    summary_passed d' = summary_passed d /\
    summary_issues d' = summary_issues d /\
    summary_remaining d' = summary_remaining d.
Proof.
  intros H. eexists. split; [reflexivity|].
  apply views_of_statuses. apply visible_statuses_map.
  intros s Hs. destruct (String.eqb_spec (sec_id s) sid) as [E|E]; simpl;
    [|reflexivity].
  unfold activeItems. simpl. apply active_statuses_map.
  - intros i Hi V. destruct (String.eqb_spec (item_id i) iid) as [Ei|Ei];
      [|reflexivity].
    rewrite (H s i Hs Hi) in V; [discriminate|].
    unfold targeted. rewrite E, Ei, !String.eqb_refl. reflexivity.
  - intros i _. destruct (item_id i =? iid)%string; reflexivity.
Qed.

Lemma hidden_status_keeps_progress_witness :
  exists d',
    updateItemStatus "section-0-0" "item-0-0" dangerous (Some hidden_doc)
    = Some d' /\
    calculateProgress (Some d') = calculateProgress (Some hidden_doc) /\
    summary_total d' = summary_total hidden_doc /\
    summary_passed d' = summary_passed hidden_doc /\
    summary_issues d' = summary_issues hidden_doc /\
    summary_remaining d' = summary_remaining hidden_doc.
Proof.
  apply (hidden_status_keeps_progress "section-0-0" "item-0-0" dangerous
           hidden_doc).
  intros s i [<- | []] [<- | []] _. reflexivity.
Defined.

(* ================================================================== *)
(** * Nothing is deleted, moved or renamed *)
(* ================================================================== *)

Lemma same_item_identity_refl i : same_item_identity i i.
Proof. repeat split. Qed.

Lemma same_section_identity_refl s : same_section_identity s s.
Proof. repeat split. Qed.

Lemma items_extend_refl l : items_extend l l.
Proof. intros j i H. exists i. split; [exact H | repeat split]. Qed.

Lemma items_extend_map f l :
  (forall i, same_item_identity i (f i)) -> items_extend l (map f l).
Proof.
  intros Hf j i H. exists (f i). split; [|apply Hf].
  rewrite nth_error_map, H. reflexivity.
Qed.

Lemma items_extend_app l new : items_extend l (l ++ new).
Proof.
  intros j i H. exists i. split; [|repeat split].
  rewrite nth_error_app1; [exact H|].
  apply nth_error_Some. congruence.
Qed.

Lemma extends_refl d : extends d d.
Proof.
  intros k s H. exists s.
  split; [exact H|]. split; [repeat split | apply items_extend_refl].
Qed.

Lemma extends_trans d1 d2 d3 : extends d1 d2 -> extends d2 d3 -> extends d1 d3.
Proof.
  intros H12 H23 k s H.
  destruct (H12 k s H) as (s2 & E2 & (A1 & A2 & A3 & A4) & I2).
  destruct (H23 k s2 E2) as (s3 & E3 & (B1 & B2 & B3 & B4) & I3).
  exists s3. split; [exact E3|]. split; [repeat split; congruence|].
  intros j i Hi.
  destruct (I2 j i Hi) as (i2 & Ei2 & (C1 & C2 & C3)).
  destruct (I3 j i2 Ei2) as (i3 & Ei3 & (D1 & D2 & D3)).
  exists i3. split; [exact Ei3 | repeat split; congruence].
Qed.

Lemma extends_map g d :
  (forall s, same_section_identity s (g s) /\
             items_extend (sec_items s) (sec_items (g s))) ->
  extends d (with_sections d (map g (sections d))).
Proof.
  intros Hg k s H. exists (g s). split; [|apply Hg].
  unfold section_at in *. simpl. rewrite nth_error_map, H. reflexivity.
Qed.

Lemma extends_patch sid f d :
  (forall i, same_item_identity i (f i)) -> extends d (patch_items sid f d).
Proof.
  intros Hf. unfold patch_items. apply extends_map. intros s.
  destruct (negb _).
  - split; [repeat split | apply items_extend_refl].
  - split; [repeat split | apply items_extend_map; exact Hf].
Qed.

Lemma on_item_identity iid f :
  (forall i, same_item_identity i (f i)) ->
  forall i, same_item_identity i (on_item iid f i).
Proof.
  intros Hf i. unfold on_item.
  destruct (_ =? _)%string; [apply Hf | repeat split].
Qed.

Lemma step_extends a d :
  exists d', step a (Some d) = Some d' /\ extends d d'.
Proof.
  destruct a; unfold step.
  - eexists. split; [reflexivity|]. apply extends_map. intros s.
    destruct (negb _).
    + split; [repeat split | apply items_extend_refl].
    + split; [repeat split|]. simpl. apply items_extend_map.
      intros i. destruct (_ =? _)%string; repeat split.
  - rewrite updateItemOption_patch. eexists. split; [reflexivity|].
    apply extends_patch, on_item_identity. repeat split.
  - rewrite updateItemNote_patch. eexists. split; [reflexivity|].
    apply extends_patch, on_item_identity. repeat split.
  - rewrite processImageAnalysis_patch. destruct (analysis_target _ _ _).
    + eexists. split; [reflexivity|].
      apply extends_patch, on_item_identity. repeat split.
    + eexists. split; [reflexivity | apply extends_refl].
  - rewrite toggleItemVisibility_patch. eexists. split; [reflexivity|].
    apply extends_patch, on_item_identity. repeat split.
  - destruct activeSectionId as [a|].
    + rewrite showAllHidden_patch. eexists. split; [reflexivity|].
      apply extends_patch. repeat split.
    + rewrite showAllHidden_none. eexists.
      split; [reflexivity | apply extends_refl].
  - destruct cameraTarget as [t|];
      [|eexists; split; [reflexivity | apply extends_refl]].
    eexists. split; [reflexivity|]. apply extends_map. intros s.
    destruct (negb _); [split; [repeat split | apply items_extend_refl]|].
    destruct (truthy_opt _).
    + split; [repeat split|]. simpl. apply items_extend_map. intros i.
      destruct (target_itemId t) as [iid|];
        [destruct (item_id i =? iid)%string|]; repeat split.
    + split; [repeat split | apply items_extend_refl].
  - rewrite deletePhoto_patch. eexists. split; [reflexivity|].
    apply extends_patch, on_item_identity. repeat split.
  - destruct answer as [raw|]; simpl.
    + eexists. split; [reflexivity|]. intros k s H. exists s.
      split; [|split; [repeat split | apply items_extend_refl]].
      unfold section_at in *. simpl. rewrite nth_error_app1; [exact H|].
      apply nth_error_Some. congruence.
    + eexists. split; [reflexivity | apply extends_refl].
  - unfold handleAddItem.
    destruct (negb _); [eexists; split; [reflexivity | apply extends_refl]|].
    destruct (find _ _);
      [|eexists; split; [reflexivity | apply extends_refl]].
    destruct (generateSectionItems_items _ _) as [|i0 new];
      [eexists; split; [reflexivity | apply extends_refl]|].
    eexists. split; [reflexivity|]. apply extends_map. intros s.
    destruct (negb _).
    + split; [repeat split | apply items_extend_refl].
    + split; [repeat split | apply items_extend_app].
  - eexists. split; [reflexivity|]. intros k s H. exists s.
    split; [exact H|]. split; [repeat split | apply items_extend_refl].
Qed.

(** X12.  No mutation deletes, moves or renames anything: after any session,
    every section of the document it started from is found at the same
    place, with its identifier, title, icon and description, and every item
    of it is found at the same place in it, with its identifier, label and
    options.  New sections and new items go behind those that are there. *)
Theorem sessions_keep_identities acts : forall d,
  exists d', run acts (Some d) = Some d' /\ extends d d'.
Proof.
  induction acts as [|a acts IH]; intros d.
  - exists d. split; [reflexivity | apply extends_refl].
  - destruct (step_extends a d) as (d1 & E1 & X1).
    destruct (IH d1) as (d' & E & X).
    exists d'. split; [|exact (extends_trans _ _ _ X1 X)].
    unfold run in *. simpl. rewrite E1. exact E.
Qed.

Lemma step_header a d :
  exists d', step a (Some d) = Some d' /\ header_of d' = header_of d /\
             (saves_keys a = false ->
              savedReportId d' = savedReportId d /\ shortId d' = shortId d).
Proof.
  destruct a; unfold step;
    try (eexists; split; [reflexivity | split; [reflexivity | auto]]).
  - rewrite processImageAnalysis_patch. destruct (analysis_target _ _ _);
      eexists; (split; [reflexivity | split; [reflexivity | auto]]).
  - destruct cameraTarget;
      eexists; (split; [reflexivity | split; [reflexivity | auto]]).
  - destruct answer;
      eexists; (split; [reflexivity | split; [reflexivity | auto]]).
  - unfold handleAddItem.
    destruct (negb _);
      [eexists; split; [reflexivity | split; [reflexivity | auto]]|].
    destruct (find _ _);
      [|eexists; split; [reflexivity | split; [reflexivity | auto]]].
    destruct (generateSectionItems_items _ _);
      eexists; (split; [reflexivity | split; [reflexivity | auto]]).
  - simpl. discriminate.
Qed.

(** X13.  What is set when the inspection starts stays as it is: after any
    session the address, the data of the property, the conditions, the
    utilities, the name of the inspector, the creation time, the identifier
    of the profile and its owner are those the session started with, and so
    are the two keys unless a save has recorded new ones. *)
Theorem sessions_keep_header acts : forall d,
  exists d',
    run acts (Some d) = Some d' /\ header_of d' = header_of d /\
    (forallb (fun a => negb (saves_keys a)) acts = true ->
     savedReportId d' = savedReportId d /\ shortId d' = shortId d).
Proof.
  induction acts as [|a acts IH]; intros d.
  - exists d. repeat split; reflexivity.
  - destruct (step_header a d) as (d1 & E1 & H1 & K1).
    destruct (IH d1) as (d' & E & H & K).
    exists d'. split; [|split].
    + unfold run in *. simpl. rewrite E1. exact E.
    + rewrite H. exact H1.
    + intros F. simpl in F. apply andb_true_iff in F as [Fa F].
      apply negb_true_iff in Fa.
      destruct (K F) as [A B]. destruct (K1 Fa) as [A1 B1].
      split; congruence.
Qed.

(* ================================================================== *)
(** * Photos *)
(* ================================================================== *)

Lemma remove_at_miss {A : Type} (l : list A) : forall idx k,
  k < Z.of_nat idx \/ Z.of_nat idx + Z.of_nat (length l) <= k ->
  remove_at idx k l = l.
Proof.
  induction l as [|x l IH]; intros idx k H; simpl; [reflexivity|].
  simpl length in H.
  destruct (Z.eqb_spec (Z.of_nat idx) k) as [E|E]; [lia|].
  rewrite IH by lia. reflexivity.
Qed.

Lemma remove_at_hit {A : Type} (l : list A) : forall idx m,
  (m < length l)%nat ->
  remove_at idx (Z.of_nat (idx + m)) l = (firstn m l ++ skipn (S m) l)%list.
Proof.
  induction l as [|x l IH]; intros idx m H; simpl in H; [lia|].
  cbn [remove_at]. destruct m as [|m].
  - rewrite Nat.add_0_r, Z.eqb_refl. simpl.
    apply remove_at_miss. lia.
  - destruct (Z.eqb_spec (Z.of_nat idx) (Z.of_nat (idx + S m))) as [E|E];
      [lia|].
    replace (idx + S m)%nat with (S idx + m)%nat by lia.
    rewrite IH by lia. reflexivity.
Qed.


Lemma length_remove_one {A : Type} n (l : list A) :
  (n < length l)%nat ->
  S (length (firstn n l ++ skipn (S n) l)) = length l.
Proof.
  intros H. rewrite length_app, length_firstn, length_skipn. lia.
Qed.

Lemma with_photos_same i : with_photos i (item_photos i) = i.
Proof. destruct i; reflexivity. Qed.

(** X14.  [deletePhoto] with an index that is negative or not below the
    number of photos of the items it names changes nothing. *)
Theorem deletePhoto_out_of_range sid iid k d :
  (forall s i, In s (sections d) -> In i (sec_items s) ->
               targeted sid iid s i = true ->
               k < 0 \/ Z.of_nat (length (item_photos i)) <= k) ->
  deletePhoto sid iid k (Some d) = Some d.
Proof.
  intros H. rewrite deletePhoto_patch. f_equal. apply patch_items_fixed.
  intros s i Hs Es Hi. unfold on_item.
  destruct (String.eqb_spec (item_id i) iid) as [Ei|Ei]; [|reflexivity].
  rewrite remove_at_miss; [apply with_photos_same|].
  assert (T : targeted sid iid s i = true)
    by (unfold targeted; rewrite Es, Ei, !String.eqb_refl; reflexivity).
  specialize (H s i Hs Hi T). simpl. lia.
Qed.

Lemma deletePhoto_out_of_range_witness :
  deletePhoto "section-0-0" "item-0-0" 1 (Some photo_doc) = Some photo_doc.
Proof.
  apply (deletePhoto_out_of_range "section-0-0" "item-0-0" 1 photo_doc).
  intros s i [<- | []] [<- | []] _. right. simpl. lia.
Defined.

(** X15.  [deletePhoto] with an index in range removes from the item it
    names the photo at that index and no other: the photos before it and
    the photos behind it stay, in their order, and the rest of the item is
    kept. *)
Theorem deletePhoto_removes_one sid iid n d k j s i :
  section_at d k = Some s -> nth_error (sec_items s) j = Some i ->
  targeted sid iid s i = true ->
  (n < length (item_photos i))%nat ->
  exists d',
    deletePhoto sid iid (Z.of_nat n) (Some d) = Some d' /\
    item_at d' k j
    = Some (with_photos i (firstn n (item_photos i)
                           ++ skipn (S n) (item_photos i))%list) /\
    (forall i', item_at d' k j = Some i' ->
                S (length (item_photos i')) = length (item_photos i)).
Proof.
  intros Hs Hi T Hn. rewrite deletePhoto_patch. eexists.
  split; [reflexivity|].
  apply andb_true_iff in T as [Ts Ti].
  assert (E : item_at
                (patch_items sid
                   (on_item iid
                      (fun i0 => with_photos i0
                                   (remove_at 0 (Z.of_nat n)
                                      (item_photos i0)))) d) k j
              = Some (with_photos i (firstn n (item_photos i)
                                     ++ skipn (S n) (item_photos i))%list)).
  { rewrite item_at_patch, Hs, Ts, Hi. simpl. unfold on_item. rewrite Ti.
    pose proof (remove_at_hit (item_photos i) 0 n Hn) as R.
    change (0 + n)%nat with n in R. rewrite R. reflexivity. }
  split; [exact E|].
  intros i' E'. rewrite E in E'. injection E' as <-.
  exact (length_remove_one n (item_photos i) Hn).
Qed.

Lemma deletePhoto_removes_one_witness :
  exists d',
    deletePhoto "section-0-0" "item-0-0" (Z.of_nat 0) (Some photo_doc)
    = Some d' /\
    item_at d' 0 0
    = Some (with_photos
              (with_photos roof_item ["data:image/jpeg;base64,AAAA"])
              (firstn 0 ["data:image/jpeg;base64,AAAA"]
               ++ skipn 1 ["data:image/jpeg;base64,AAAA"])%list) /\
    (forall i', item_at d' 0 0 = Some i' ->
                S (length (item_photos i'))
                = length (item_photos
                            (with_photos roof_item
                               ["data:image/jpeg;base64,AAAA"]))).
Proof.
  apply (deletePhoto_removes_one "section-0-0" "item-0-0" 0 photo_doc 0 0
           (with_items roof_section
              [with_photos roof_item ["data:image/jpeg;base64,AAAA"]])
           (with_photos roof_item ["data:image/jpeg;base64,AAAA"]));
    try reflexivity.
  simpl. lia.
Defined.




(* ================================================================== *)
(** * Hiding and the recovery button *)
(* ================================================================== *)

Lemma find_map {A : Type} (p : A -> bool) (g : A -> A) l :
  (forall x, p (g x) = p x) ->
  find p (map g l) = option_map g (find p l).
Proof.
  intros H. induction l as [|x l IH]; simpl; [reflexivity|].
  rewrite H. destruct (p x); [reflexivity | exact IH].
Qed.

Lemma active_section_patch a sid f d :
  active_section a (patch_items sid f d)
  = option_map (fun sec =>
                  if negb (sec_id sec =? sid)%string then sec
                  else with_items sec (map f (sec_items sec)))
               (active_section a d).
Proof.
  unfold active_section, patch_items. simpl. apply find_map.
  intros s. destruct (negb _); reflexivity.
Qed.

Lemma active_section_id a d s :
  active_section (Some a) d = Some s -> In s (sections d) /\ sec_id s = a.
Proof.
  intros H. apply find_some in H as [Hin E]. apply String.eqb_eq in E.
  split; assumption.
Qed.

(** X17.  The button that brings hidden items back: it is offered as soon as
    an item of the active section has been hidden, and pressing it leaves no
    item of a section bearing the active identifier hidden, so that the
    button is gone; the statuses of the sections are not touched. *)
Theorem recovery_button a d :
  (forall iid s i,
      active_section (Some a) d = Some s -> In i (sec_items s) ->
      item_id i = iid ->
      exists d1, toggleItemVisibility a iid true (Some d) = Some d1 /\
                 recovery_offered (Some a) d1 = true) /\
  (exists d2,
      showAllHidden (Some a) (Some d) = Some d2 /\
      recovery_offered (Some a) d2 = false /\
      (forall s', In s' (sections d2) -> sec_id s' = a ->
                  activeItems s' = sec_items s') /\
      map sec_status (sections d2) = map sec_status (sections d)).
Proof.
  split.
  - intros iid s i Hs Hi Ei. rewrite toggleItemVisibility_patch.
    eexists. split; [reflexivity|].
    unfold recovery_offered. rewrite active_section_patch, Hs.
    destruct (active_section_id a d s Hs) as [_ Ea].
    simpl. rewrite Ea, String.eqb_refl. simpl.
    apply Nat.ltb_lt.
    assert (In (with_isHidden i true)
               (filter hidden
                  (map (on_item iid (fun i0 => with_isHidden i0 true))
                       (sec_items s)))).
    { apply filter_In. split; [|reflexivity].
      apply in_map_iff. exists i. split; [|exact Hi].
      apply on_item_hit. exact Ei. }
    destruct (filter hidden _); [contradiction | simpl; lia].
  - rewrite showAllHidden_patch. eexists. split; [reflexivity|].
    split; [|split].
    + unfold recovery_offered. rewrite active_section_patch.
      destruct (active_section (Some a) d) as [s|] eqn:Hs; [|reflexivity].
      destruct (active_section_id a d s Hs) as [_ Ea].
      simpl. rewrite Ea, String.eqb_refl. simpl.
      induction (sec_items s) as [|x l IH]; [reflexivity | exact IH].
    + intros s' Hin Ea. unfold patch_items in Hin. simpl in Hin.
      apply in_map_iff in Hin as (s & <- & _).
      destruct (String.eqb_spec (sec_id s) a) as [E|E]; simpl in *;
        [|contradiction].
      unfold activeItems. simpl.
      induction (sec_items s) as [|x l IH]; [reflexivity|].
      simpl. f_equal. exact IH.
    + unfold patch_items. simpl. rewrite map_map. apply map_ext.
      intros s. destruct (negb _); reflexivity.
Qed.

(* ================================================================== *)
(** * Further properties of the gateway *)
(* ================================================================== *)

(** ** Save *)

Lemma save_without_remote inspection w :
  supabase w = false ->
  saveReportToSupabase inspection w
  = (resolved (local_keys inspection w),
     set_localStorage
       (set_rng w (snd (resolve_keys inspection (rng w))))
       (local_backup (uuid (local_keys inspection w))
          (saved_payload inspection w) (now w 0%nat) (localStorage w))).
Proof.
  intros S. rewrite save_unfold. cbv zeta.
  change (supabase (set_localStorage _ _)) with (supabase w).
  change (supabase (set_rng _ _)) with (supabase w).
  unfold saved_payload. rewrite S. reflexivity.
Qed.

Lemma sent_row_storage inspection w ls :
  sent_row inspection (set_localStorage w ls)
  = mkDbPayload (db_id (sent_row inspection w))
      (db_short_id (sent_row inspection w))
      (db_data (sent_row inspection w))
      (now w (if backup_reads_clock ls then 1%nat else 0%nat))
      (db_user_id (sent_row inspection w)).
Proof. reflexivity. Qed.

Lemma save_same_answer inspection w ls :
  upsert w (sent_row inspection (set_localStorage w ls))
  = upsert w (sent_row inspection w) ->
  fst (saveReportToSupabase inspection (set_localStorage w ls))
  = fst (saveReportToSupabase inspection w) /\
  alerts (snd (saveReportToSupabase inspection (set_localStorage w ls)))
  = alerts (snd (saveReportToSupabase inspection w)).
Proof.
  intros U. destruct (supabase w) eqn:S.
  - rewrite (save_with_remote inspection (set_localStorage w ls) S),
      (save_with_remote inspection w S).
    cbv zeta.
    change (upsert (set_localStorage w ls)) with (upsert w). rewrite U.
    change (local_keys inspection (set_localStorage w ls))
      with (local_keys inspection w).
    destruct (upsert w (sent_row inspection w)) as [data [error|] | message];
      try (split; reflexivity).
    destruct (err_code error =? "42501")%string; [split; reflexivity|].
    destruct (err_code error =? "42P01")%string; [split; reflexivity|].
    destruct (err_code error =? "PGRST204")%string; split; reflexivity.
  - rewrite (save_without_remote inspection (set_localStorage w ls) S),
      (save_without_remote inspection w S).
    split; reflexivity.
Qed.

(** X18.  The outcome of a save depends on the browser storage at most
    through the creation time written into the row sent to the remote store
    (the second reading of the clock, or the first when the stored text does
    not parse and the backup gives up before reading it): the keys, the
    document and the owner of the row are the same with any other storage in
    its place, and whenever the remote store answers the two rows alike, in
    particular when the two storages agree on whether the stored text parses,
    the promise settles the same way and the same warnings are raised.
    Without a remote store the save always resolves, with the keys it
    settled on, and raises no warning, whatever the storage. *)
Theorem save_ignores_storage inspection w ls :
  (db_id (sent_row inspection (set_localStorage w ls))
   = db_id (sent_row inspection w) /\
   db_short_id (sent_row inspection (set_localStorage w ls))
   = db_short_id (sent_row inspection w) /\
   db_data (sent_row inspection (set_localStorage w ls))
   = db_data (sent_row inspection w) /\
   db_user_id (sent_row inspection (set_localStorage w ls))
   = db_user_id (sent_row inspection w)) /\
  (upsert w (sent_row inspection (set_localStorage w ls))
   = upsert w (sent_row inspection w) ->
   fst (saveReportToSupabase inspection (set_localStorage w ls))
   = fst (saveReportToSupabase inspection w) /\
   alerts (snd (saveReportToSupabase inspection (set_localStorage w ls)))
   = alerts (snd (saveReportToSupabase inspection w))) /\
  (backup_reads_clock ls = backup_reads_clock (localStorage w) ->
   fst (saveReportToSupabase inspection (set_localStorage w ls))
   = fst (saveReportToSupabase inspection w) /\
   alerts (snd (saveReportToSupabase inspection (set_localStorage w ls)))
   = alerts (snd (saveReportToSupabase inspection w))) /\
  (supabase w = false ->
   fst (saveReportToSupabase inspection (set_localStorage w ls))
   = resolved (local_keys inspection w) /\
   alerts (snd (saveReportToSupabase inspection (set_localStorage w ls)))
   = alerts w).
Proof.
  split; [repeat split|]. split; [apply save_same_answer|]. split.
  - intros R. apply save_same_answer. rewrite sent_row_storage, R.
    reflexivity.
  - intros S.
    rewrite (save_without_remote inspection (set_localStorage w ls) S).
    split; reflexivity.
Qed.

(** The storage can matter: a remote store that checks the creation time of
    the row accepts the save made over working storage and refuses the one
    made over storage whose text does not parse. *)
Example save_depends_on_clock :
  fst (saveReportToSupabase roof_doc clock_world)
  = resolved (local_keys roof_doc clock_world) /\
  fst (saveReportToSupabase roof_doc
         (set_localStorage clock_world corrupt_storage))
  = rejected "Supabase Error 23514: created_at is in the past" /\
  fst (saveReportToSupabase roof_doc corrupt_world)
  = resolved (mkKeys "88888888-8888-4888-8888-888888888888" "FFFFFFFFF") /\
  localStorage (snd (saveReportToSupabase roof_doc corrupt_world))
  = corrupt_storage.
Proof.
  refine (conj _ (conj _ (conj _ _))); vm_compute; reflexivity.
Qed.

(** ** Keys are settled once *)

Lemma matches_truthy p pat s : matches (p :: pat) s = true -> truthy s = true.
Proof. destruct s; [discriminate | reflexivity]. Qed.

Lemma replace_xy_random template : forall g,
  random (snd (replace_xy template g)) = random g.
Proof.
  induction template as [|c rest IH]; intros g; [reflexivity|].
  cbn [replace_xy].
  destruct (Ascii.eqb c "x" || Ascii.eqb c "y")%bool.
  - unfold Math_random.
    match goal with
    | |- context [replace_xy rest ?g1] =>
        specialize (IH g1); destruct (replace_xy rest g1) as [out g2]
    end.
    exact IH.
  - specialize (IH g). destruct (replace_xy rest g) as [out g2]. exact IH.
Qed.

Lemma generateUUID_fair g : fair g -> fair (snd (generateUUID g)).
Proof.
  intros Hg i. unfold generateUUID. destruct (secure g).
  - apply Hg.
  - rewrite replace_xy_random. apply Hg.
Qed.

Lemma generateUUID_truthy g : fair g -> truthy (fst (generateUUID g)) = true.
Proof.
  intros Hg. pose proof (generateUUID_isUuid g Hg) as U.
  rewrite isUuid_matches in U. exact (matches_truthy _ _ _ U).
Qed.

Lemma generateShortId_truthy g :
  fair g -> truthy (fst (generateShortId g)) = true.
Proof.
  intros Hg. exact (matches_truthy _ _ _ (generateShortId_matches g Hg)).
Qed.

(** The keys a save settles on are not empty. *)
Lemma resolve_keys_truthy inspection g :
  fair g ->
  truthy (uuid (fst (resolve_keys inspection g))) = true /\
  truthy (keys_shortId (fst (resolve_keys inspection g))) = true.
Proof.
  intros Hg. unfold resolve_keys.
  assert (A : exists u g1,
             match savedReportId inspection with
             | Some k => if truthy k then (k, g) else generateUUID g
             | None => generateUUID g
             end = (u, g1) /\ truthy u = true /\ fair g1).
  { destruct (savedReportId inspection) as [k|];
      [destruct (truthy k) eqn:T|].
    - exists k, g. auto.
    - exists (fst (generateUUID g)), (snd (generateUUID g)).
      split; [apply surjective_pairing|].
      split; [apply generateUUID_truthy | apply generateUUID_fair]; exact Hg.
    - exists (fst (generateUUID g)), (snd (generateUUID g)).
      split; [apply surjective_pairing|].
      split; [apply generateUUID_truthy | apply generateUUID_fair];
        exact Hg. }
  destruct A as (u & g1 & -> & Tu & Hg1).
  assert (B : exists s g2,
             match shortId inspection with
             | Some k => if truthy k then (k, g1) else generateShortId g1
             | None => generateShortId g1
             end = (s, g2) /\ truthy s = true).
  { destruct (shortId inspection) as [k|]; [destruct (truthy k) eqn:T|].
    - exists k, g1. auto.
    - exists (fst (generateShortId g1)), (snd (generateShortId g1)).
      split; [apply surjective_pairing|].
      apply generateShortId_truthy; exact Hg1.
    - exists (fst (generateShortId g1)), (snd (generateShortId g1)).
      split; [apply surjective_pairing|].
      apply generateShortId_truthy; exact Hg1. }
  destruct B as (s & g2 & -> & Ts). simpl. split; assumption.
Qed.

Lemma or_else_truthy a b : truthy b = true -> truthy (or_else a b) = true.
Proof.
  intros H. unfold or_else. destruct a as [s|]; [|exact H].
  destruct (truthy s) eqn:T; [exact T | exact H].
Qed.

(** Keys that are not empty are reused as they are, and cost no draw. *)
Lemma resolve_keys_reuse inspection u s g :
  savedReportId inspection = Some u -> shortId inspection = Some s ->
  truthy u = true -> truthy s = true ->
  resolve_keys inspection g = (mkKeys u s, g).
Proof.
  intros Eu Es Tu Ts. unfold resolve_keys. rewrite Eu, Es, Tu, Ts.
  reflexivity.
Qed.

(** The keys a save resolves with are not empty. *)
Lemma saved_keys_truthy inspection w keys :
  fair (rng w) ->
  fst (saveReportToSupabase inspection w) = resolved keys ->
  truthy (uuid keys) = true /\ truthy (keys_shortId keys) = true.
Proof.
  intros Hg. destruct (resolve_keys_truthy inspection (rng w) Hg) as [Tu Ts].
  fold (local_keys inspection w) in Tu, Ts.
  rewrite save_unfold. cbv zeta.
  destruct (negb _); [intros E; injection E as <-; auto|].
  destruct (upsert _ _) as [data [error|] | message].
  - destruct (err_code error =? "42501")%string;
      [intros E; injection E as <-; auto|].
    destruct (err_code error =? "42P01")%string;
      [intros E; injection E as <-; auto|].
    destruct (err_code error =? "PGRST204")%string;
      [intros E; injection E as <-; auto | discriminate].
  - intros E. injection E as <-. simpl.
    split; apply or_else_truthy; assumption.
  - discriminate.
Qed.

(** X19.  A document that carries both keys is saved under exactly these
    keys, and the save draws no random number: the keys of a report are
    settled once. *)
Theorem save_reuses_keys inspection w u s :
  savedReportId inspection = Some u -> shortId inspection = Some s ->
  truthy u = true -> truthy s = true ->
  local_keys inspection w = mkKeys u s /\
  rng (snd (saveReportToSupabase inspection w)) = rng w /\
  (supabase w = false ->
   fst (saveReportToSupabase inspection w) = resolved (mkKeys u s)).
Proof.
  intros Eu Es Tu Ts.
  pose proof (resolve_keys_reuse inspection u s (rng w) Eu Es Tu Ts) as R.
  assert (K : local_keys inspection w = mkKeys u s)
    by (unfold local_keys; rewrite R; reflexivity).
  split; [exact K|]. split.
  - rewrite save_unfold. cbv zeta. rewrite R. cbn [snd].
    destruct (negb _); [reflexivity|].
    destruct (upsert _ _) as [data [error|] | message]; try reflexivity.
    destruct (err_code error =? "42501")%string; [reflexivity|].
    destruct (err_code error =? "42P01")%string; [reflexivity|].
    destruct (err_code error =? "PGRST204")%string; reflexivity.
  - intros S. rewrite (save_without_remote inspection w S), K. reflexivity.
Qed.

Lemma save_reuses_keys_witness :
  local_keys saved_doc offline_world = mkKeys sample_uuid sample_shortId /\
  rng (snd (saveReportToSupabase saved_doc offline_world))
  = rng offline_world /\
  (supabase offline_world = false ->
   fst (saveReportToSupabase saved_doc offline_world)
   = resolved (mkKeys sample_uuid sample_shortId)).
Proof.
  apply (save_reuses_keys saved_doc offline_world sample_uuid
           sample_shortId); reflexivity.
Defined.

(** X20.  A save that resolves settles the keys of the report for good: the
    keys it resolves with are not empty (the random numbers being at least 0
    and less than 1); [handleSaveReport] writes them into the document and
    puts the short key into the share link; [handleShareClick] builds the
    same link from the document; and the next save of this document, in any
    world, reuses both keys without drawing a random number. *)
Theorem save_settles_keys loc inspection w keys :
  fair (rng w) ->
  fst (saveReportToSupabase inspection w) = resolved keys ->
  truthy (uuid keys) = true /\ truthy (keys_shortId keys) = true /\
  exists d1,
    handleSaveReport loc (Some inspection) w
    = (Some d1, snd (saveReportToSupabase inspection w),
       Some (constructShareUrl loc (keys_shortId keys))) /\
    savedReportId d1 = Some (uuid keys) /\
    shortId d1 = Some (keys_shortId keys) /\
    sections d1 = sections inspection /\
    handleShareClick loc (Some d1)
    = Some (constructShareUrl loc (keys_shortId keys)) /\
    forall g, resolve_keys d1 g = (keys, g).
Proof.
  intros Hg E.
  destruct (saved_keys_truthy inspection w keys Hg E) as [Tu Ts].
  split; [exact Tu|]. split; [exact Ts|].
  eexists. split; [|split; [|split; [|split; [|split]]]].
  - unfold handleSaveReport.
    destruct (saveReportToSupabase inspection w) as [r w1]. simpl in E.
    subst r. rewrite Ts. simpl. reflexivity.
  - reflexivity.
  - reflexivity.
  - reflexivity.
  - unfold handleShareClick. simpl. rewrite Ts. simpl. rewrite Ts.
    reflexivity.
  - intros g. destruct keys as [u s]. simpl in *.
    apply resolve_keys_reuse; auto.
Qed.

Lemma save_settles_keys_witness :
  truthy (uuid (mkKeys "88888888-8888-4888-8888-888888888888" "FFFFFFFFF"))
  = true /\
  truthy (keys_shortId
            (mkKeys "88888888-8888-4888-8888-888888888888" "FFFFFFFFF"))
  = true /\
  exists d1,
    handleSaveReport sample_location (Some roof_doc) offline_world
    = (Some d1, snd (saveReportToSupabase roof_doc offline_world),
       Some (constructShareUrl sample_location
               (keys_shortId
                  (mkKeys "88888888-8888-4888-8888-888888888888"
                          "FFFFFFFFF")))) /\
    savedReportId d1
    = Some (uuid (mkKeys "88888888-8888-4888-8888-888888888888"
                         "FFFFFFFFF")) /\
    shortId d1
    = Some (keys_shortId
              (mkKeys "88888888-8888-4888-8888-888888888888" "FFFFFFFFF")) /\
    sections d1 = sections roof_doc /\
    handleShareClick sample_location (Some d1)
    = Some (constructShareUrl sample_location
              (keys_shortId
                 (mkKeys "88888888-8888-4888-8888-888888888888"
                         "FFFFFFFFF"))) /\
    forall g,
      resolve_keys d1 g
      = (mkKeys "88888888-8888-4888-8888-888888888888" "FFFFFFFFF", g).
Proof.
  apply (save_settles_keys sample_location roof_doc offline_world
           (mkKeys "88888888-8888-4888-8888-888888888888" "FFFFFFFFF")).
  - intros i. reflexivity.
  - vm_compute. reflexivity.
Defined.

(** ** The local store *)

Lemma lookup_replace_other k key r entries :
  k <> key -> lookup k (replace_entry key r entries) = lookup k entries.
Proof.
  intros N. induction entries as [|[k0 r0] rest IH]; simpl; [reflexivity|].
  destruct (String.eqb_spec k0 key) as [E|E]; simpl.
  - destruct (String.eqb_spec k0 k); [congruence | reflexivity].
  - rewrite IH. reflexivity.
Qed.

Lemma lookup_insert_other n k key r entries :
  k <> key -> lookup k (insert_index n key r entries) = lookup k entries.
Proof.
  intros N. assert (E : (key =? k)%string = false)
    by (apply String.eqb_neq; congruence).
  induction entries as [|[k0 r0] rest IH]; simpl.
  - rewrite E. reflexivity.
  - destruct (array_index k0) as [m|]; [destruct (m <? n)%N|]; simpl;
      rewrite ?E, ?IH; reflexivity.
Qed.

Lemma lookup_append_other k key r entries :
  k <> key -> lookup k (entries ++ [(key, r)]) = lookup k entries.
Proof.
  intros N. induction entries as [|[k0 r0] rest IH]; simpl.
  - destruct (String.eqb_spec key k); [congruence | reflexivity].
  - rewrite IH. reflexivity.
Qed.

Lemma lookup_assign_other k key r entries :
  k <> key -> lookup k (assign key r entries) = lookup k entries.
Proof.
  intros N. unfold assign. destruct (lookup key entries).
  - apply lookup_replace_other. exact N.
  - destruct (array_index key);
      [apply lookup_insert_other | apply lookup_append_other]; exact N.
Qed.

Lemma length_replace_entry key r entries :
  length (replace_entry key r entries) = length entries.
Proof.
  induction entries as [|[k0 r0] rest IH]; simpl; [reflexivity|].
  destruct (k0 =? key)%string; simpl; [|rewrite IH]; reflexivity.
Qed.

Lemma length_insert_index n key r entries :
  length (insert_index n key r entries) = S (length entries).
Proof.
  induction entries as [|[k0 r0] rest IH]; simpl; [reflexivity|].
  destruct (array_index k0) as [m|]; [destruct (m <? n)%N|]; simpl;
    rewrite ?IH; reflexivity.
Qed.

Lemma length_assign key r entries :
  length (assign key r entries)
  = match lookup key entries with
    | Some _ => length entries
    | None => S (length entries)
    end.
Proof.
  unfold assign. destruct (lookup key entries).
  - apply length_replace_entry.
  - destruct (array_index key); [apply length_insert_index|].
    rewrite length_app. simpl. lia.
Qed.

Lemma local_entries_backup u payload created_at ls :
  storage_works ls ->
  local_entries (local_backup u payload created_at ls)
  = map (fun kr => (fst kr, json_record (snd kr)))
        (assign u (mkRecord u (Some payload) None created_at)
                (local_entries ls)).
Proof.
  intros (W & G & S & H). destruct ls as [wd gt st sd]. simpl in W, G, S, H.
  subst wd gt st.
  destruct H as [-> | (entries & ->)]; reflexivity.
Qed.

(** The local loader reads the records a reader can get at. *)
Lemma load_local_entries id ls :
  load_local id ls
  = match (if isUuid id then lookup id (local_entries ls) else None) with
    | Some record =>
        match (match rec_data record with
               | Some p => Some p
               | None => rec_report_data record
               end) with
        | Some stored_profile =>
            Some (with_keys stored_profile (Some id)
                    (shortId stored_profile) (userId stored_profile))
        | None => None
        end
    | None =>
        if negb (isUuid id) then
          match find (carries_shortId id) (local_entries ls) with
          | Some found => rec_data (snd found)
          | None => None
          end
        else None
    end.
Proof.
  unfold load_local, local_entries.
  destruct (safeGetLocalStorage ls) as [t|];
    [|destruct (isUuid id); reflexivity].
  destruct t as [raw | [|entries]]; simpl.
  - destruct (truthy raw); destruct (isUuid id); reflexivity.
  - destruct (isUuid id); reflexivity.
  - reflexivity.
Qed.

(** Writing a record as JSON keeps the short key of its document. *)
Lemma carries_json sid k r :
  carries_shortId sid (k, json_record r) = carries_shortId sid (k, r).
Proof.
  unfold carries_shortId. simpl. destruct (rec_data r); reflexivity.
Qed.

Lemma lookup_none_key key entries k r :
  lookup key entries = None -> In (k, r) entries -> k <> key.
Proof.
  induction entries as [|[k0 r0] rest IH]; simpl; [contradiction|].
  destruct (String.eqb_spec k0 key) as [E|E]; [discriminate|].
  intros L [H | H]; [congruence | exact (IH L H)].
Qed.

Lemma find_json_first p x entries new :
  (forall k r, p (k, json_record r) = p (k, r)) ->
  p (fst x, json_record (snd x)) = true ->
  (forall y, In y entries -> p y = false) ->
  (new = (entries ++ [x])%list \/
   exists n key r, x = (key, r) /\ new = insert_index n key r entries) ->
  find p (map (fun kr => (fst kr, json_record (snd kr))) new)
  = Some (fst x, json_record (snd x)).
Proof.
  intros J Px. revert new.
  induction entries as [|[k0 r0] rest IH]; intros new F H.
  - destruct H as [-> | (n & key & r & -> & ->)]; simpl in *; rewrite Px;
      reflexivity.
  - assert (F0 : p (k0, json_record r0) = false)
      by (rewrite J; apply F; left; reflexivity).
    assert (Fr : forall y, In y rest -> p y = false)
      by (intros y Hy; apply F; right; exact Hy).
    destruct H as [-> | (n & key & r & -> & ->)].
    + simpl. rewrite F0. apply (IH _ Fr). left. reflexivity.
    + simpl in *. destruct (array_index k0) as [m|];
        [destruct (m <? n)%N|]; simpl; rewrite ?Px, ?F0; try reflexivity.
      apply (IH _ Fr). right. exists n, key, r. split; reflexivity.
Qed.

Lemma find_assign sid u r entries :
  carries_shortId sid (u, r) = true ->
  (forall k r0, In (k, r0) entries -> carries_shortId sid (k, r0) = true ->
                k = u) ->
  find (carries_shortId sid)
       (map (fun kr => (fst kr, json_record (snd kr))) (assign u r entries))
  = Some (u, json_record r).
Proof.
  intros C H. unfold assign.
  destruct (lookup u entries) as [r1|] eqn:L.
  - revert L. induction entries as [|[k0 r0] rest IH]; simpl;
      [discriminate|].
    destruct (String.eqb_spec k0 u) as [E|E]; intros L.
    + subst k0. cbn [map find fst snd]. rewrite carries_json, C.
      reflexivity.
    + cbn [map find fst snd]. rewrite carries_json.
      destruct (carries_shortId sid (k0, r0)) eqn:C0.
      * exfalso. apply E. apply (H k0 r0); [left; reflexivity | exact C0].
      * apply IH; [|exact L]. intros k r2 Hin. apply H. right. exact Hin.
  - assert (F : forall y, In y entries -> carries_shortId sid y = false).
    { intros [k r0] Hy.
      destruct (carries_shortId sid (k, r0)) eqn:C0; [|reflexivity].
      exfalso. apply (lookup_none_key u entries k r0 L Hy).
      exact (H k r0 Hy C0). }
    apply (find_json_first (carries_shortId sid) (u, r) entries);
      [intros k r0; apply carries_json | rewrite carries_json; exact C
       | exact F |].
    destruct (array_index u) as [n|]; [right | left; reflexivity].
    exists n, u, r. split; reflexivity.
Qed.

Lemma json_number_twice n : json_number (json_number n) = json_number n.
Proof. destruct n as [[s | s | | s m e]|]; reflexivity. Qed.

Lemma json_profile_twice p : json_profile (json_profile p) = json_profile p.
Proof.
  unfold json_profile. simpl. rewrite !json_number_twice.
  destruct (sqft p); simpl; rewrite ?json_number_twice; reflexivity.
Qed.

(** X21.  With working storage, the backup of a save writes under the
    primary key of the report a record that holds the document as its JSON
    text gives it back (a number that is NaN or infinite comes back as
    [null]), and leaves every other record of the local store as its text
    gives it back: a record that was read from the store is still there,
    unchanged, and a report saved again takes the place it had, not a second
    one. *)
Theorem backup_keeps_other_records u payload created_at ls :
  storage_works ls ->
  (forall k, k <> u ->
     lookup k (local_entries (local_backup u payload created_at ls))
     = option_map json_record (lookup k (local_entries ls))) /\
  (forall k r, k <> u -> lookup k (local_entries ls) = Some r ->
     json_record r = r ->
     lookup k (local_entries (local_backup u payload created_at ls))
     = Some r) /\
  lookup u (local_entries (local_backup u payload created_at ls))
  = Some (mkRecord u (Some (json_profile payload)) None created_at) /\
  length (local_entries (local_backup u payload created_at ls))
  = match lookup u (local_entries ls) with
    | Some _ => length (local_entries ls)
    | None => S (length (local_entries ls))
    end.
Proof.
  intros W. rewrite (local_entries_backup u payload created_at ls W).
  split; [|split; [|split]].
  - intros k N. rewrite lookup_json, lookup_assign_other by exact N.
    reflexivity.
  - intros k r N L J.
    rewrite lookup_json, lookup_assign_other, L by exact N.
    simpl. rewrite J. reflexivity.
  - rewrite lookup_json, lookup_assign. reflexivity.
  - rewrite length_map. apply length_assign.
Qed.

Lemma backup_keeps_other_records_witness :
  (forall k, k <> sample_uuid ->
     lookup k (local_entries
                 (local_backup sample_uuid nan_doc "2024-01-02"
                    busy_storage))
     = option_map json_record (lookup k (local_entries busy_storage))) /\
  (forall k r, k <> sample_uuid ->
     lookup k (local_entries busy_storage) = Some r ->
     json_record r = r ->
     lookup k (local_entries
                 (local_backup sample_uuid nan_doc "2024-01-02"
                    busy_storage))
     = Some r) /\
  lookup sample_uuid
    (local_entries
       (local_backup sample_uuid nan_doc "2024-01-02" busy_storage))
  = Some (mkRecord sample_uuid (Some (json_profile nan_doc)) None
                   "2024-01-02") /\
  length (local_entries
            (local_backup sample_uuid nan_doc "2024-01-02" busy_storage))
  = match lookup sample_uuid (local_entries busy_storage) with
    | Some _ => length (local_entries busy_storage)
    | None => S (length (local_entries busy_storage))
    end.
Proof.
  apply (backup_keeps_other_records sample_uuid nan_doc "2024-01-02"
           busy_storage).
  repeat split. right. eexists. reflexivity.
Defined.

(** On the sample store: the record of the other report is found as it was,
    the record of the report saved again is replaced where it stood, and the
    number of floors, which was not a number, reads [null]. *)
Example backup_on_busy_storage :
  let after :=
    local_entries
      (local_backup sample_uuid nan_doc "2024-01-02" busy_storage) in
  lookup other_uuid after = lookup other_uuid (local_entries busy_storage) /\
  map fst after = map fst (local_entries busy_storage) /\
  option_map (fun r => option_map floors (rec_data r))
             (lookup sample_uuid after)
  = Some (Some null_number) /\
  floors nan_doc = num S754_nan.
Proof.
  refine (conj _ (conj _ (conj _ _))); vm_compute; reflexivity.
Qed.

(** X22.  A local store whose content does not parse, or parses to [null],
    is never repaired: the backup gives up and leaves the storage as it is,
    so that no identifier can be loaded from it afterwards. *)
Theorem backup_skips_unreadable_store u payload created_at ls t id :
  window_defined ls = true -> getItem_throws ls = false ->
  stored ls = Some t -> text_truthy t = true ->
  JSON_parse t = None \/ JSON_parse t = Some json_null ->
  local_backup u payload created_at ls = ls /\
  load_local id (local_backup u payload created_at ls) = None.
Proof.
  intros W G S T P.
  assert (B : local_backup u payload created_at ls = ls).
  { unfold local_backup, safeGetLocalStorage. rewrite W, G, S.
    cbn [negb]. rewrite T.
    destruct P as [-> | ->]; reflexivity. }
  split; [exact B|]. rewrite B.
  unfold load_local, safeGetLocalStorage. rewrite W, G, S.
  cbn [negb]. rewrite T. cbn [negb].
  destruct P as [-> | ->]; reflexivity.
Qed.

Lemma backup_skips_unreadable_store_witness :
  local_backup sample_uuid saved_doc "2024-01-02" corrupt_storage
  = corrupt_storage /\
  load_local sample_uuid
    (local_backup sample_uuid saved_doc "2024-01-02" corrupt_storage)
  = None.
Proof.
  apply (backup_skips_unreadable_store sample_uuid saved_doc "2024-01-02"
           corrupt_storage (unparseable "{oops") sample_uuid);
    try reflexivity.
  left. reflexivity.
Defined.

(** ** Round trips through the local store *)

Lemma load_without_remote id w :
  supabase w = false ->
  fst (loadReportFromSupabase id w)
  = resolved (load_local id (localStorage w)).
Proof. intros S. unfold loadReportFromSupabase. rewrite S. reflexivity. Qed.

Lemma json_profile_finite p :
  json_safe p -> json_profile p = p.
Proof.
  intros (F & B & R & Q). destruct p. simpl in *. unfold json_profile. simpl.
  assert (A : forall n, finite_numeric n = true -> json_number n = n).
  { intros [[s | s | | s m e]|]; try discriminate; try reflexivity.
    destruct s; [discriminate | reflexivity]. }
  rewrite (A _ F), (A _ B), (A _ R).
  destruct sqft0 as [n|]; simpl in *; [rewrite (A _ Q)|]; reflexivity.
Qed.

(** X23.  Without a remote store and with working storage, a report is read
    back under its primary key, when that key has the canonical form (as a
    generated key has), as the JSON text of the saved document gives it
    back: the document with its two keys, its strings, sections, items and
    photos as they were, and each of its numbers as it was when it is finite
    and not the negative zero; a number that is NaN or infinite comes back
    as [null], and the negative zero as zero.  So a document whose numbers
    are all finite and not the negative zero is read back exactly as it was
    saved. *)
Theorem local_round_trip_by_key inspection w :
  supabase w = false -> storage_works (localStorage w) ->
  isUuid (uuid (local_keys inspection w)) = true ->
  fst (loadReportFromSupabase (uuid (local_keys inspection w))
         (snd (saveReportToSupabase inspection w)))
  = resolved (Some (json_profile (saved_payload inspection w))) /\
  sections (json_profile (saved_payload inspection w))
  = sections inspection /\
  savedReportId (json_profile (saved_payload inspection w))
  = Some (uuid (local_keys inspection w)) /\
  shortId (json_profile (saved_payload inspection w))
  = Some (keys_shortId (local_keys inspection w)) /\
  floors (json_profile (saved_payload inspection w))
  = json_number (floors inspection) /\
  (json_safe inspection ->
   fst (loadReportFromSupabase (uuid (local_keys inspection w))
          (snd (saveReportToSupabase inspection w)))
   = resolved (Some (saved_payload inspection w))).
Proof.
  intros S W U.
  assert (E : fst (loadReportFromSupabase (uuid (local_keys inspection w))
                     (snd (saveReportToSupabase inspection w)))
              = resolved (Some (json_profile (saved_payload inspection w)))).
  { rewrite (save_without_remote inspection w S). cbn [snd].
    rewrite load_without_remote by exact S. f_equal.
    change (localStorage (set_localStorage _ ?ls)) with ls.
    rewrite load_local_entries, U, local_entries_backup by exact W.
    rewrite lookup_json, lookup_assign. reflexivity. }
  split; [exact E|]. repeat (split; [reflexivity|]).
  intros J. rewrite E. do 2 f_equal. apply json_profile_finite.
  destruct J as (F & B & R & Q). repeat split; assumption.
Qed.

Lemma local_round_trip_by_key_witness :
  fst (loadReportFromSupabase (uuid (local_keys nan_doc busy_world))
         (snd (saveReportToSupabase nan_doc busy_world)))
  = resolved (Some (json_profile (saved_payload nan_doc busy_world))) /\
  sections (json_profile (saved_payload nan_doc busy_world))
  = sections nan_doc /\
  savedReportId (json_profile (saved_payload nan_doc busy_world))
  = Some (uuid (local_keys nan_doc busy_world)) /\
  shortId (json_profile (saved_payload nan_doc busy_world))
  = Some (keys_shortId (local_keys nan_doc busy_world)) /\
  floors (json_profile (saved_payload nan_doc busy_world))
  = json_number (floors nan_doc) /\
  (json_safe nan_doc ->
   fst (loadReportFromSupabase (uuid (local_keys nan_doc busy_world))
          (snd (saveReportToSupabase nan_doc busy_world)))
   = resolved (Some (saved_payload nan_doc busy_world))).
Proof.
  apply (local_round_trip_by_key nan_doc busy_world).
  - reflexivity.
  - repeat split. right. eexists. reflexivity.
  - vm_compute. reflexivity.
Defined.

(** The document whose number of floors is not a number comes back with
    [null] in its place, and so not as it was saved; the roof document comes
    back as it was saved. *)
Example round_trip_samples :
  (exists p,
     fst (loadReportFromSupabase (uuid (local_keys nan_doc busy_world))
            (snd (saveReportToSupabase nan_doc busy_world)))
     = resolved (Some p) /\
     floors p = null_number /\ floors nan_doc = num S754_nan /\
     p <> saved_payload nan_doc busy_world) /\
  json_safe roof_doc /\
  fst (loadReportFromSupabase (uuid (local_keys roof_doc busy_world))
         (snd (saveReportToSupabase roof_doc busy_world)))
  = resolved (Some (saved_payload roof_doc busy_world)).
Proof.
  split; [|split].
  - eexists. split; [vm_compute; reflexivity|].
    split; [reflexivity|]. split; [reflexivity|]. intros H.
    apply (f_equal floors) in H. vm_compute in H. discriminate H.
  - repeat split.
  - vm_compute. reflexivity.
Qed.

(** X24.  Without a remote store and with working storage, a report is read
    back under its short key, as the JSON text of the saved document gives
    it back (exactly as it was saved when its numbers are finite and not the
    negative zero), when the short key has not the canonical form (a
    generated one never has) and no record of another report in the store
    carries the same short key. *)
Theorem local_round_trip_by_short_key inspection w :
  supabase w = false -> storage_works (localStorage w) ->
  isUuid (keys_shortId (local_keys inspection w)) = false ->
  (forall k r, In (k, r) (local_entries (localStorage w)) ->
               carries_shortId (keys_shortId (local_keys inspection w)) (k, r)
               = true ->
               k = uuid (local_keys inspection w)) ->
  fst (loadReportFromSupabase (keys_shortId (local_keys inspection w))
         (snd (saveReportToSupabase inspection w)))
  = resolved (Some (json_profile (saved_payload inspection w))) /\
  shortId (json_profile (saved_payload inspection w))
  = Some (keys_shortId (local_keys inspection w)) /\
  sections (json_profile (saved_payload inspection w))
  = sections inspection /\
  (json_safe inspection ->
   fst (loadReportFromSupabase (keys_shortId (local_keys inspection w))
          (snd (saveReportToSupabase inspection w)))
   = resolved (Some (saved_payload inspection w))).
Proof.
  intros S W U H.
  assert (E : fst (loadReportFromSupabase
                     (keys_shortId (local_keys inspection w))
                     (snd (saveReportToSupabase inspection w)))
              = resolved (Some (json_profile (saved_payload inspection w)))).
  { rewrite (save_without_remote inspection w S). cbn [snd].
    rewrite load_without_remote by exact S. f_equal.
    change (localStorage (set_localStorage _ ?ls)) with ls.
    rewrite load_local_entries, U, local_entries_backup by exact W.
    cbn [negb]. rewrite find_assign; [reflexivity | | exact H].
    unfold carries_shortId, saved_payload. simpl. apply String.eqb_refl. }
  split; [exact E|]. repeat (split; [reflexivity|]).
  intros J. rewrite E. do 2 f_equal. apply json_profile_finite.
  destruct J as (F & B & R & Q). repeat split; assumption.
Qed.

Lemma local_round_trip_by_short_key_witness :
  fst (loadReportFromSupabase (keys_shortId (local_keys nan_doc busy_world))
         (snd (saveReportToSupabase nan_doc busy_world)))
  = resolved (Some (json_profile (saved_payload nan_doc busy_world))) /\
  shortId (json_profile (saved_payload nan_doc busy_world))
  = Some (keys_shortId (local_keys nan_doc busy_world)) /\
  sections (json_profile (saved_payload nan_doc busy_world))
  = sections nan_doc /\
  (json_safe nan_doc ->
   fst (loadReportFromSupabase (keys_shortId (local_keys nan_doc busy_world))
          (snd (saveReportToSupabase nan_doc busy_world)))
   = resolved (Some (saved_payload nan_doc busy_world))).
Proof.
  apply (local_round_trip_by_short_key nan_doc busy_world).
  - reflexivity.
  - repeat split. right. eexists. reflexivity.
  - vm_compute. reflexivity.
  - intros k r [E | [E | []]]; injection E as <- <-; intros C;
      vm_compute in C; discriminate C.
Defined.

(** A record of another report that carries the same short key and stands
    before the record of the report is the one the short key finds. *)
Example short_key_collision :
  fst (loadReportFromSupabase "FFFFFFFFF"
         (snd (saveReportToSupabase roof_doc clash_world)))
  = resolved (Some clash_doc) /\
  savedReportId clash_doc = Some other_uuid /\
  uuid (local_keys roof_doc clash_world)
  = "88888888-8888-4888-8888-888888888888".
Proof.
  refine (conj _ (conj _ _)); vm_compute; reflexivity.
Qed.

(** ** Load: remote first, local second *)


Example load_from_serving_world :
  fst (loadReportFromSupabase sample_shortId
         (set_localStorage serving_world corrupt_storage))
  = resolved (Some (with_keys roof_doc (Some sample_uuid)
                              (Some sample_shortId) (Some "user-7"))) /\
  fst (loadReportFromSupabase sample_uuid denied_world) = resolved None.
Proof. split; vm_compute; reflexivity. Qed.

(* ================================================================== *)
(** * Identifiers of a generated plan *)
(* ================================================================== *)

Lemma to_uint_nonnil n : Nat.to_uint n <> Decimal.Nil.
Proof.
  intros H. pose proof (DecimalNat.Unsigned.of_to n) as E.
  rewrite H in E. simpl in E. subst n. discriminate H.
Qed.

Lemma decimal_inj n m : decimal n = decimal m -> n = m.
Proof.
  intros H. unfold decimal in H.
  apply (f_equal DecimalString.NilZero.uint_of_string) in H.
  rewrite !DecimalString.NilZero.usu in H by apply to_uint_nonnil.
  injection H as H. apply DecimalNat.Unsigned.to_uint_inj. exact H.
Qed.

Lemma string_of_uint_no_dash d c :
  In c (list_ascii_of_string (DecimalString.NilEmpty.string_of_uint d)) ->
  c <> "-"%char.
Proof.
  induction d; simpl; intros H; try contradiction;
    destruct H as [<- | H]; try discriminate; auto.
Qed.

Lemma decimal_no_dash n c :
  In c (list_ascii_of_string (decimal n)) -> c <> "-"%char.
Proof.
  unfold decimal, DecimalString.NilZero.string_of_uint.
  destruct (Nat.to_uint n) eqn:E;
    try apply string_of_uint_no_dash.
  simpl. intros [<- | []]. discriminate.
Qed.

(** Two strings without dash, each followed by a dash and a rest, are equal
    only part by part. *)
Lemma app_dash_inj a : forall a' b b',
  (forall c, In c (list_ascii_of_string a) -> c <> "-"%char) ->
  (forall c, In c (list_ascii_of_string a') -> c <> "-"%char) ->
  a ++ String "-" b = a' ++ String "-" b' -> a = a' /\ b = b'.
Proof.
  induction a as [|x a IH]; intros [|y a'] b b' Ha Ha' H; simpl in *.
  - injection H as H. auto.
  - injection H as Hy _. exfalso. apply (Ha' y); auto.
  - injection H as Hx _. exfalso. apply (Ha x); auto.
  - injection H as Hxy H.
    destruct (IH a' b b') as [E1 E2]; auto.
    subst. auto.
Qed.

Lemma dashed_pair_inj a b a' b' :
  decimal a ++ "-" ++ decimal b = decimal a' ++ "-" ++ decimal b' ->
  a = a' /\ b = b'.
Proof.
  intros H.
  destruct (app_dash_inj (decimal a) (decimal a') (decimal b) (decimal b')
              (decimal_no_dash a) (decimal_no_dash a') H) as [E1 E2].
  split; apply decimal_inj; assumption.
Qed.

Lemma In_mapi_from {A B : Type} (f : A -> nat -> B) l : forall k y,
  In y (mapi_from k f l) -> exists x i, (k <= i)%nat /\ y = f x i.
Proof.
  induction l as [|x l IH]; intros k y H; simpl in H; [contradiction|].
  destruct H as [<- | H].
  - exists x, k. split; [lia | reflexivity].
  - destruct (IH (S k) y H) as (x' & i & Hi & E).
    exists x', i. split; [lia | exact E].
Qed.

Lemma NoDup_mapi_from {A B : Type} (f : A -> nat -> B) l :
  (forall x x' i i', f x i = f x' i' -> i = i') ->
  forall k, NoDup (mapi_from k f l).
Proof.
  intros Hf. induction l as [|x l IH]; intros k; simpl; constructor.
  - intros H. destruct (In_mapi_from f l (S k) _ H) as (x' & i & Hi & E).
    apply Hf in E. lia.
  - apply IH.
Qed.

Lemma map_mapi_from {A B C : Type} (g : B -> C) (f : A -> nat -> B) l :
  forall k, map g (mapi_from k f l) = mapi_from k (fun x i => g (f x i)) l.
Proof.
  induction l as [|x l IH]; intros k; simpl; [reflexivity|].
  rewrite IH. reflexivity.
Qed.

Lemma plan_item_ids clock rawData : forall k a,
  In a (map item_id
          (flat_map sec_items
             (mapi_from k
                (fun section index =>
                   mkSection
                     ("section-" ++ decimal index ++ "-"
                        ++ decimal (clock index))
                     (raw_title section) (raw_iconName section)
                     (raw_description section)
                     (mapi_from 0
                        (fun item i =>
                           generated_item
                             ("item-" ++ decimal index ++ "-" ++ decimal i)
                             item)
                        (raw_items section))
                     None pending)
                rawData))) ->
  exists index i,
    (k <= index)%nat /\ a = "item-" ++ decimal index ++ "-" ++ decimal i.
Proof.
  induction rawData as [|r rest IH]; intros k a H; simpl in H;
    [contradiction|].
  rewrite map_app in H. apply in_app_or in H as [H | H].
  - rewrite map_mapi_from in H.
    destruct (In_mapi_from _ _ _ _ H) as (x & i & _ & E).
    exists k, i. split; [lia | exact E].
  - destruct (IH (S k) a H) as (index & i & Hk & E).
    exists index, i. split; [lia | exact E].
Qed.

Lemma plan_item_ids_unique clock rawData : forall k,
  NoDup (map item_id
           (flat_map sec_items
              (mapi_from k
                 (fun section index =>
                    mkSection
                      ("section-" ++ decimal index ++ "-"
                         ++ decimal (clock index))
                      (raw_title section) (raw_iconName section)
                      (raw_description section)
                      (mapi_from 0
                         (fun item i =>
                            generated_item
                              ("item-" ++ decimal index ++ "-" ++ decimal i)
                              item)
                         (raw_items section))
                      None pending)
                 rawData))).
Proof.
  induction rawData as [|r rest IH]; intros k; simpl; [constructor|].
  rewrite map_app. apply NoDup_app.
  - rewrite map_mapi_from. apply NoDup_mapi_from.
    intros x x' i i' E. simpl in E. injection E as E.
    apply dashed_pair_inj in E. tauto.
  - apply IH.
  - intros a Ha Hb. rewrite map_mapi_from in Ha.
    destruct (In_mapi_from _ _ _ _ Ha) as (x & i & _ & E).
    destruct (plan_item_ids clock rest (S k) a Hb) as (index & i' & Hk & E').
    simpl in E. rewrite E in E'. injection E' as E'.
    apply dashed_pair_inj in E'. lia.
Qed.

Lemma NoDup_app_disjoint {A : Type} (l1 l2 : list A) a :
  NoDup (l1 ++ l2) -> In a l1 -> In a l2 -> False.
Proof.
  induction l1 as [|x l1 IH]; simpl; intros N H1 H2; [contradiction|].
  inversion N as [|? ? Hx N']; subst.
  destruct H1 as [-> | H1].
  - apply Hx. apply in_or_app. right. exact H2.
  - exact (IH N' H1 H2).
Qed.

Lemma In_item_ids ss k s j i :
  nth_error ss k = Some s -> nth_error (sec_items s) j = Some i ->
  In (item_id i) (map item_id (flat_map sec_items ss)).
Proof.
  intros Hs Hi. apply in_map. apply in_flat_map. exists s.
  split; eapply nth_error_In; eassumption.
Qed.

(** With identifiers that are unique, two places holding items of the same
    identifier are one place. *)
Lemma unique_position ss :
  NoDup (map item_id (flat_map sec_items ss)) ->
  forall k j k' j' s i s' i',
    nth_error ss k = Some s -> nth_error (sec_items s) j = Some i ->
    nth_error ss k' = Some s' -> nth_error (sec_items s') j' = Some i' ->
    item_id i = item_id i' -> k = k' /\ j = j'.
Proof.
  induction ss as [|s0 rest IH]; intros N k j k' j' s i s' i' Hs Hi Hs' Hi' E.
  - destruct k; discriminate.
  - simpl in N. rewrite map_app in N.
    destruct k as [|k], k' as [|k']; simpl in Hs, Hs'.
    + injection Hs as <-. injection Hs' as <-. split; [reflexivity|].
      assert (N1 : NoDup (map item_id (sec_items s0))).
      { clear - N. revert N. generalize (map item_id
                                           (flat_map sec_items rest)).
        induction (map item_id (sec_items s0)) as [|x l IHl]; intros r N;
          [constructor|].
        simpl in N. inversion N as [|? ? Hx N']; subst. constructor.
        - intros H. apply Hx. apply in_or_app. left. exact H.
        - exact (IHl r N'). }
      apply (proj1 (NoDup_nth_error (map item_id (sec_items s0))) N1).
      * rewrite length_map. apply nth_error_Some. congruence.
      * rewrite !nth_error_map, Hi, Hi'. simpl. rewrite E. reflexivity.
    + exfalso. apply (NoDup_app_disjoint _ _ (item_id i) N).
      * apply in_map. eapply nth_error_In. injection Hs as <-. exact Hi.
      * rewrite E. exact (In_item_ids rest k' s' j' i' Hs' Hi').
    + exfalso. apply (NoDup_app_disjoint _ _ (item_id i') N).
      * apply in_map. eapply nth_error_In. injection Hs' as <-. exact Hi'.
      * rewrite <- E. exact (In_item_ids rest k s j i Hs Hi).
    + assert (N2 : NoDup (map item_id (flat_map sec_items rest))).
      { clear - N. induction (map item_id (sec_items s0)) as [|x l IHl];
          [exact N|].
        simpl in N. inversion N; subst. auto. }
      destruct (IH N2 k j k' j' s i s' i' Hs Hi Hs' Hi' E) as [-> ->].
      split; reflexivity.
Qed.

(** X26.  In a document an inspection starts from (a generated plan, or the
    built-in one) no two sections bear the same identifier and no two items,
    of the same section or of different ones, bear the same identifier; so
    the two identifiers a mutation is given name at most one item. *)
Theorem initial_ids_unique d :
  initial d ->
  NoDup (map sec_id (sections d)) /\
  NoDup (map item_id (flat_map sec_items (sections d))) /\
  (forall sid iid k j k' j' s i s' i',
     section_at d k = Some s -> nth_error (sec_items s) j = Some i ->
     section_at d k' = Some s' -> nth_error (sec_items s') j' = Some i' ->
     targeted sid iid s i = true -> targeted sid iid s' i' = true ->
     k = k' /\ j = j').
Proof.
  intros I.
  assert (A : NoDup (map sec_id (sections d)) /\
              NoDup (map item_id (flat_map sec_items (sections d)))).
  { destruct I as [(clock & rawData & E) | E]; rewrite E.
    - split.
      + unfold generateInspectionPlan_sections. rewrite map_mapi_from.
        apply NoDup_mapi_from. intros x x' i i' H. simpl in H.
        injection H as H. apply dashed_pair_inj in H. tauto.
      + apply plan_item_ids_unique.
    - split; simpl;
        repeat (constructor;
                [intros H; simpl in H;
                 repeat (destruct H as [H | H]; [discriminate H|]); exact H|]);
        constructor. }
  destruct A as [A1 A2]. split; [exact A1|]. split; [exact A2|].
  intros sid iid k j k' j' s i s' i' Hs Hi Hs' Hi' T T'.
  apply (unique_position (sections d) A2 k j k' j' s i s' i' Hs Hi Hs' Hi').
  apply andb_true_iff in T as [_ T]. apply andb_true_iff in T' as [_ T'].
  apply String.eqb_eq in T, T'. congruence.
Qed.

Lemma initial_ids_unique_witness :
  NoDup (map sec_id (sections forty_doc)) /\
  NoDup (map item_id (flat_map sec_items (sections forty_doc))) /\
  (forall sid iid k j k' j' s i s' i',
     section_at forty_doc k = Some s ->
     nth_error (sec_items s) j = Some i ->
     section_at forty_doc k' = Some s' ->
     nth_error (sec_items s') j' = Some i' ->
     targeted sid iid s i = true -> targeted sid iid s' i' = true ->
     k = k' /\ j = j').
Proof.
  apply (initial_ids_unique forty_doc).
  left. exists clock0, forty_plan. reflexivity.
Defined.

(* ================================================================== *)
(** * The share link and the name of the inspector *)
(* ================================================================== *)

Lemma path_separator p :
  p ++ (if endsWith_slash p then EmptyString else "/")
  = without_trailing_slash p ++ "/".
Proof.
  induction p as [|c r IH]; [reflexivity|].
  destruct r as [|c' r'].
  - simpl. destruct (Ascii.eqb_spec c "/") as [-> | N]; reflexivity.
  - change (endsWith_slash (String c (String c' r')))
      with (endsWith_slash (String c' r')).
    change (without_trailing_slash (String c (String c' r')))
      with (String c (without_trailing_slash (String c' r'))).
    change (String c (String c' r') ++ ?x) with (String c (String c' r' ++ x)).
    rewrite IH. reflexivity.
Qed.

Lemma append_assoc a b c : (a ++ b) ++ c = a ++ (b ++ c).
Proof.
  induction a as [|x a IH]; simpl; [reflexivity | rewrite IH; reflexivity].
Qed.

(** X27.  The share link is the origin, the path without the slash it may
    end with, and [/?id=] followed by the identifier: one slash is written
    between the path and the query whether or not the path ends with one. *)
Theorem share_url_normal_form loc id :
  constructShareUrl loc id
  = loc_origin loc ++ without_trailing_slash (loc_pathname loc)
      ++ "/?id=" ++ id.
Proof.
  unfold constructShareUrl. cbv zeta. f_equal.
  rewrite <- append_assoc, path_separator, append_assoc. reflexivity.
Qed.

Lemma before_at_no_at email c :
  In c (list_ascii_of_string (before_at email)) -> c <> "@"%char.
Proof.
  induction email as [|x r IH]; simpl; [contradiction|].
  destruct (Ascii.eqb_spec x "@") as [E|E]; simpl; [contradiction|].
  intros [<- | H]; [exact E | exact (IH H)].
Qed.

(** X28.  The name of the inspector written into a new document is never
    empty and never holds an [@]: it is the part of the address of the
    signed-in user before the first [@], [Inspector] when that part is empty
    or the address is missing, and [Guest Inspector] when nobody is signed
    in. *)
Theorem inspector_name_shape user :
  truthy (inspector_name user) = true /\
  (forall c, In c (list_ascii_of_string (inspector_name user)) ->
             c <> "@"%char) /\
  (forall email, user = Some (Some email) ->
     truthy (before_at email) = true ->
     inspector_name user = before_at email) /\
  (forall email, user = Some (Some email) ->
     truthy (before_at email) = false ->
     inspector_name user = "Inspector") /\
  (user = Some None -> inspector_name user = "Inspector") /\
  (user = None -> inspector_name user = "Guest Inspector").
Proof.
  split; [|split; [|split; [|split; [|split]]]].
  - destruct user as [[email|]|]; try reflexivity.
    simpl. destruct (truthy (before_at email)) eqn:T; [exact T | reflexivity].
  - intros c. destruct user as [[email|]|]; simpl.
    + destruct (truthy (before_at email)).
      * apply before_at_no_at.
      * simpl. intros H.
        repeat (destruct H as [<- | H]; [discriminate|]). contradiction.
    + intros H.
      repeat (destruct H as [<- | H]; [discriminate|]). contradiction.
    + intros H.
      repeat (destruct H as [<- | H]; [discriminate|]). contradiction.
  - intros email -> T. simpl. rewrite T. reflexivity.
  - intros email -> T. simpl. rewrite T. reflexivity.
  - intros ->. reflexivity.
  - intros ->. reflexivity.
Qed.

(** The three cases on sample users: an address, an address that starts
    with [@], and a guest. *)
Example inspector_name_samples :
  inspector_name (Some (Some "dana.reyes@example.org")) = "dana.reyes" /\
  inspector_name (Some (Some "@example.org")) = "Inspector" /\
  inspector_name (Some None) = "Inspector" /\
  inspector_name None = "Guest Inspector".
Proof. refine (conj _ (conj _ (conj _ _))); reflexivity. Qed.

(* ================================================================== *)
(** * The cleaned answer of the generation service *)
(* ================================================================== *)

Lemma indexOf_first_index c l : forall i,
  indexOf_from i c l = first_index_from i (fun x => (x =? c)%N) l.
Proof. induction l as [|x r IH]; intros i; simpl; [|rewrite IH]; reflexivity. Qed.

Lemma lastIndexOf_last_index c l : forall i found,
  lastIndexOf_from i c l found
  = last_index_from i (fun x => (x =? c)%N) l found.
Proof.
  induction l as [|x r IH]; intros i found; simpl; [|rewrite IH]; reflexivity.
Qed.

Lemma first_index_split p l : forall i,
  (first_index_from i p l = -1 /\
   forallb (fun x => negb (p x)) l = true) \/
  (exists pre x post,
      l = (pre ++ x :: post)%list /\
      forallb (fun x => negb (p x)) pre = true /\ p x = true /\
      first_index_from i p l = i + Z.of_nat (length pre)).
Proof.
  induction l as [|x r IH]; intros i; simpl.
  - left. split; reflexivity.
  - destruct (p x) eqn:Px.
    + right. exists [], x, r. simpl. repeat split; try assumption. lia.
    + destruct (IH (i + 1)) as [[E F] | (pre & y & post & -> & F & Py & E)].
      * left. split; [exact E | exact F].
      * right. exists (x :: pre), y, post. simpl. rewrite Px.
        repeat split; try assumption. rewrite E. lia.
Qed.

Lemma first_index_range p l : forall i,
  first_index_from i p l = -1 \/ i <= first_index_from i p l.
Proof.
  intros i.
  destruct (first_index_split p l i)
    as [[E _] | (pre & x & post & _ & _ & _ & E)]; [left; exact E|].
  right. rewrite E. lia.
Qed.

(** The start index computed from the two searches is the index of the
    first opening bracket. *)
Lemma startIndex_first_opening l : forall i,
  0 <= i ->
  (if (negb (indexOf_from i curly_open l =? -1)
       && negb (indexOf_from i square_open l =? -1))%bool
   then Z.min (indexOf_from i curly_open l) (indexOf_from i square_open l)
   else if negb (indexOf_from i curly_open l =? -1)
        then indexOf_from i curly_open l
        else indexOf_from i square_open l)
  = first_index_from i is_opening l.
Proof.
  induction l as [|x r IH]; intros i Hi; [reflexivity|].
  cbn [indexOf_from first_index_from]. unfold is_opening at 1.
  destruct (N.eqb_spec x curly_open) as [Ec|Ec].
  - subst x. change (curly_open =? square_open)%N with false. cbn [orb].
    destruct (Z.eqb_spec i (-1)); [lia|]. cbn [negb andb].
    rewrite indexOf_first_index.
    destruct (first_index_range (fun x => (x =? square_open)%N) r (i + 1))
      as [E | E].
    + rewrite E. reflexivity.
    + destruct (Z.eqb_spec (first_index_from (i + 1)
                              (fun x => (x =? square_open)%N) r) (-1));
        [lia|].
      cbn [negb]. lia.
  - cbn [orb]. destruct (N.eqb_spec x square_open) as [Es|Es].
    + destruct (Z.eqb_spec i (-1)); [lia|]. cbn [negb].
      rewrite indexOf_first_index.
      destruct (first_index_range (fun x => (x =? curly_open)%N) r (i + 1))
        as [E | E].
      * rewrite E. reflexivity.
      * destruct (Z.eqb_spec (first_index_from (i + 1)
                                (fun x => (x =? curly_open)%N) r) (-1));
          [lia|].
        cbn [negb andb]. lia.
    + apply IH. lia.
Qed.

Lemma last_index_split p l : forall i found,
  (last_index_from i p l found = found /\
   forallb (fun x => negb (p x)) l = true) \/
  (exists pre x post,
      l = (pre ++ x :: post)%list /\
      forallb (fun x => negb (p x)) post = true /\ p x = true /\
      last_index_from i p l found = i + Z.of_nat (length pre)).
Proof.
  induction l as [|x r IH]; intros i found; simpl.
  - left. split; reflexivity.
  - destruct (IH (i + 1) (if p x then i else found))
      as [[E F] | (pre & y & post & -> & F & Py & E)].
    + destruct (p x) eqn:Px.
      * right. exists [], x, r. simpl. repeat split; try assumption.
        rewrite E. lia.
      * left. split; [exact E | exact F].
    + right. exists (x :: pre), y, post. simpl.
      repeat split; try assumption. rewrite E. lia.
Qed.

(** The end index computed from the two searches is the index of the last
    closing bracket. *)
Lemma endIndex_last_closing l : forall i f1 f2,
  f1 < i -> f2 < i ->
  Z.max (lastIndexOf_from i curly_close l f1)
        (lastIndexOf_from i square_close l f2)
  = last_index_from i is_closing l (Z.max f1 f2).
Proof.
  induction l as [|x r IH]; intros i f1 f2 H1 H2; [reflexivity|].
  cbn [lastIndexOf_from last_index_from].
  rewrite IH.
  - f_equal. unfold is_closing.
    destruct (N.eqb_spec x curly_close) as [Ec|Ec].
    + subst x. change (curly_close =? square_close)%N with false.
      cbn [orb]. lia.
    + cbn [orb]. destruct (x =? square_close)%N; lia.
  - destruct (x =? curly_close)%N; lia.
  - destruct (x =? square_close)%N; lia.
Qed.

Lemma skipn_length_app {A : Type} (pre l : list A) :
  skipn (length pre) (pre ++ l) = l.
Proof. induction pre as [|x pre IH]; simpl; [reflexivity | exact IH]. Qed.

Lemma firstn_length_app {A : Type} (pre : list A) x post :
  firstn (S (length pre)) (pre ++ x :: post) = (pre ++ [x])%list.
Proof.
  induction pre as [|y pre IH]; simpl; [reflexivity|].
  simpl in IH. rewrite IH. reflexivity.
Qed.

(** [cleanJson] keeps a segment of the cleaned text: it drops what stands
    before the first opening bracket and what stands behind the last closing
    bracket of the rest. *)
Lemma cleanJson_split c t :
  exists pre post,
    trim (remove_fences (c :: t))
    = (pre ++ cleanJson (Some (c :: t)) ++ post)%list /\
    forallb (fun x => negb (is_opening x)) pre = true /\
    forallb (fun x => negb (is_closing x)) post = true /\
    (pre <> [] ->
     exists x r, cleanJson (Some (c :: t)) = x :: r /\ is_opening x = true) /\
    (post <> [] ->
     exists r x, cleanJson (Some (c :: t)) = (r ++ [x])%list /\
                 is_closing x = true).
Proof.
  unfold cleanJson. cbv zeta.
  set (cleaned := trim (remove_fences (c :: t))).
  unfold indexOf. rewrite (startIndex_first_opening cleaned 0) by lia.
  assert (S1 : exists pre c1,
             cleaned = (pre ++ c1)%list /\
             (if negb (first_index_from 0 is_opening cleaned =? -1)
              then substring_from (first_index_from 0 is_opening cleaned)
                                  cleaned
              else cleaned) = c1 /\
             forallb (fun x => negb (is_opening x)) pre = true /\
             (pre <> [] ->
              exists x r, c1 = x :: r /\ is_opening x = true)).
  { destruct (first_index_split is_opening cleaned 0)
      as [[E F] | (pre & x & post & E0 & F & Px & E)].
    - exists [], cleaned. rewrite E. simpl. repeat split. congruence.
    - exists pre, (x :: post). rewrite E.
      destruct (Z.eqb_spec (0 + Z.of_nat (length pre)) (-1)); [lia|].
      cbn [negb]. unfold substring_from.
      replace (Z.to_nat (0 + Z.of_nat (length pre))) with (length pre)
        by lia.
      rewrite E0, skipn_length_app. repeat split; try assumption.
      intros _. exists x, post. split; [reflexivity | exact Px]. }
  destruct S1 as (pre & c1 & Ec & -> & Fpre & Hpre).
  unfold lastIndexOf.
  rewrite (endIndex_last_closing c1 0 (-1) (-1)) by lia.
  change (Z.max (-1) (-1)) with (-1).
  destruct (last_index_split is_closing c1 0 (-1))
    as [[E F] | (pre1 & y & post1 & E1 & F & Py & E)].
  - rewrite E. cbn [Z.eqb negb]. exists pre, [].
    rewrite app_nil_r. repeat split; try assumption. congruence.
  - rewrite E.
    destruct (Z.eqb_spec (0 + Z.of_nat (length pre1)) (-1)); [lia|].
    cbn [negb]. unfold substring_to.
    replace (Z.to_nat (0 + Z.of_nat (length pre1) + 1))
      with (S (length pre1)) by lia.
    rewrite E1, firstn_length_app. exists pre, post1.
    split; [|split; [exact Fpre | split; [exact F | split]]].
    + rewrite Ec, E1, <- !app_assoc. reflexivity.
    + intros N. destruct (Hpre N) as (x & r & Ex & Px).
      rewrite E1 in Ex. destruct pre1 as [|z pre1]; simpl in *.
      * injection Ex as <- _. exists y, []. split; [reflexivity | exact Px].
      * injection Ex as <- _. exists z, (pre1 ++ [y])%list.
        split; [reflexivity | exact Px].
    + intros _. exists pre1, y. split; [reflexivity | exact Py].
Qed.

(** X29.  [cleanJson]: a missing or empty answer gives the text of the empty
    array; otherwise the result is a segment of the answer once its code
    fences are removed and it is trimmed: only what stands before the first
    opening bracket, and what stands behind the last closing bracket of the
    rest, is dropped, and when something is dropped at an end the result
    starts, respectively ends, with a bracket. *)
Theorem cleanJson_segment text :
  match text with
  | None | Some [] => cleanJson text = [square_open; square_close]
  | Some t =>
      exists pre post,
        trim (remove_fences t) = (pre ++ cleanJson text ++ post)%list /\
        forallb (fun x => negb (is_opening x)) pre = true /\
        forallb (fun x => negb (is_closing x)) post = true /\
        (pre <> [] ->
         exists x r, cleanJson text = x :: r /\ is_opening x = true) /\
        (post <> [] ->
         exists r x, cleanJson text = (r ++ [x])%list /\ is_closing x = true)
  end.
Proof.
  destruct text as [[|c t]|]; try reflexivity. apply cleanJson_split.
Qed.

Lemma is_prefix_app (p q l : Text) :
  is_prefix (p ++ q)%list l = true -> is_prefix p l = true.
Proof.
  revert l. induction p as [|a p IH]; intros [|b l]; simpl; try discriminate;
    try reflexivity.
  intros H. apply andb_true_iff in H as [E H]. rewrite E. exact (IH l H).
Qed.

Lemma remove_fences_free l : fence_free l -> remove_fences l = l.
Proof.
  unfold remove_fences. induction l as [|c r IH]; intros F; [reflexivity|].
  cbn [remove_fences_from].
  pose proof (F 0%nat) as F0. cbn [skipn] in F0.
  destruct (is_prefix fence_json (c :: r)) eqn:J.
  - apply (is_prefix_app fence [106; 115; 111; 110]%N) in J. congruence.
  - rewrite F0. f_equal. apply IH. intros k. exact (F (S k)).
Qed.

Lemma opening_not_space a : is_opening a = true -> is_space a = false.
Proof.
  unfold is_opening. intros H. apply orb_true_iff in H as [H | H];
    apply N.eqb_eq in H; subst a; reflexivity.
Qed.

Lemma closing_not_space b : is_closing b = true -> is_space b = false.
Proof.
  unfold is_closing. intros H. apply orb_true_iff in H as [H | H];
    apply N.eqb_eq in H; subst b; reflexivity.
Qed.

Lemma trim_bracketed a mid b :
  is_opening a = true -> is_closing b = true ->
  trim (a :: mid ++ [b])%list = (a :: mid ++ [b])%list.
Proof.
  intros Ha Hb. unfold trim. cbn [trimStart].
  rewrite (opening_not_space a Ha).
  change (a :: mid ++ [b])%list with ((a :: mid) ++ [b])%list.
  rewrite rev_app_distr. cbn [rev app trimStart].
  rewrite (closing_not_space b Hb).
  change (b :: rev mid ++ [a])%list with (rev [b] ++ rev (a :: mid))%list.
  rewrite <- rev_app_distr, rev_involutive. reflexivity.
Qed.

(** X30.  [cleanJson] returns an answer that is already bare as it is: a text
    that starts with an opening bracket, ends with a closing bracket and
    holds no code fence comes back unchanged. *)
Theorem cleanJson_keeps_json a mid b :
  fence_free (a :: mid ++ [b])%list ->
  is_opening a = true -> is_closing b = true ->
  cleanJson (Some (a :: mid ++ [b])%list) = (a :: mid ++ [b])%list.
Proof.
  intros F Ha Hb.
  destruct (cleanJson_split a (mid ++ [b])%list)
    as (pre & post & E & Fpre & Fpost & _ & _).
  rewrite (remove_fences_free _ F), (trim_bracketed a mid b Ha Hb) in E.
  destruct pre as [|x pre].
  - destruct post as [|z post' _] using rev_ind.
    + rewrite app_nil_r in E. simpl in E. symmetry. exact E.
    + exfalso. rewrite forallb_app in Fpost.
      apply andb_true_iff in Fpost as [_ Fz]. simpl in Fz.
      change (a :: mid ++ [b])%list with ((a :: mid) ++ [b])%list in E.
      simpl app at 2 in E. rewrite app_assoc in E.
      apply app_inj_tail in E as [_ <-]. rewrite Hb in Fz. discriminate.
  - exfalso. simpl in E. injection E as <- _. simpl in Fpre.
    rewrite Ha in Fpre. discriminate.
Qed.

Lemma cleanJson_keeps_json_witness :
  cleanJson (Some (91 :: [49; 44; 50] ++ [93])%list)%N
  = (91 :: [49; 44; 50] ++ [93])%list%N.
Proof.
  apply (cleanJson_keeps_json 91 [49; 44; 50] 93)%N; try reflexivity.
  intros k. do 5 (destruct k as [|k]; [reflexivity|]).
  destruct k; reflexivity.
Defined.
